(** * Visibility and pass prediction for the Dhaka ground station

    A shallow embedding of the analysis scripts

      - [analysis/scripts/satellite_pass_predictor.py]
        ([calculate_geo_visibility], [predict_leo_passes]),
      - [analysis/scripts/geo_arc_survey.py]
        ([calculate_geo_angles], [calculate_slant_range], [survey_geo_arc],
        [print_survey]) and
      - [analysis/classification/encryption_classifier.py]
        ([TransponderSample], [EncryptionAuditReport]),

    together with the properties of the design document that concern them.

    Python floats are modelled by the numbers they denote.  The pass loop
    only subtracts, multiplies and compares, so it is written over [Q] and
    runs inside Rocq; the GEO geometry calls [math.cos], [math.atan2] and
    friends, so it is written over [R].  Rounding of the floating-point
    operations is not modelled.  The numeric theorems about the geometry
    are therefore stated as enclosures and gaps whose margins are many
    orders of magnitude above the rounding error of binary64; the lemmas
    that hold of the real numbers only, exact symmetries among them, say
    so.

    Exceptions are modelled where the scripts can raise them: the truth
    test of a Skyfield [Time] in the pass loop raises [TypeError], and the
    loop and [predict_leo_passes] return an outcome. *)

From Stdlib Require Import ZArith QArith List String Ascii Bool Lia Lqa.
From Stdlib Require Import Reals Lra Psatz Machin Zfloor.
From Stdlib Require Import Sorted Permutation.
Import ListNotations.

(* ====================================================================== *)
(** * Part I: the LEO pass loop of [predict_leo_passes]                    *)
(* ====================================================================== *)

Module Leo.

Local Open Scope Q_scope.

(** A Skyfield [Time] is identified with its terrestrial-time Julian date,
    the only attribute the loop reads ([ti.tt]). *)
Definition Time := Q.

Definition tt (t : Time) : Q := t.

(** Event codes returned by [find_events]: 0 rise, 1 culmination, 2 set. *)
Definition RISE : Z := 0.
Definition CULMINATION : Z := 1.
Definition SET : Z := 2.

Definition Event := (Time * Z)%type.

Inductive Quality := OneStar | TwoStars | ThreeStars.

(** The dictionary appended to [all_passes].  [time_utc] and [time_local]
    are renderings of the same instant [max_time]; the local one is shifted
    by six hours, a quarter of a day. *)
Record PassRecord := mkPass {
  satellite     : string;
  time_utc      : Time;
  time_local    : Time;
  max_elevation : Q;
  duration_min  : Q;
  frequency     : string
}.

(** The line printed for a pass. *)
Record PassLine := mkLine {
  line_pass_num : Z;
  line_local    : Time;
  line_max_el   : Q;
  line_duration : Q;
  line_quality  : Quality
}.

(** What one iteration does to the outside: it prints and it appends. *)
Inductive Effect :=
| Print (l : PassLine)
| Append (r : PassRecord).

(** The exception the loop can raise. *)
Inductive Exception := TypeError.

(** A computation either goes on with a value or raises. *)
Inductive Outcome (A : Type) :=
| Normal (a : A)
| Raises (e : Exception).

Arguments Normal {A} a.
Arguments Raises {A} e.

(** The truth value of a [Time].  The elements of [zip(t0, events)] are
    single instants; [Time] has no [__bool__], so the truth test goes to
    [Time.__len__], and that raises [TypeError] for a single instant. *)
Definition Time_bool (t : Time) : Outcome bool := Raises TypeError.

(** The four variables initialised before the loop. *)
Record Vars := mkVars {
  pass_num  : Z;
  rise_time : option Time;
  max_el    : Q;
  max_time  : option Time
}.

Definition vars0 : Vars :=
  {| pass_num := 0%Z; rise_time := None; max_el := 0; max_time := None |}.

Definition quality_of (el : Q) : Quality :=
  if Qlt_le_dec 60 el then ThreeStars
  else if Qlt_le_dec 30 el then TwoStars
  else OneStar.

Section Loop.

(** [alt.degrees] of [(sat - station).at(ti).altaz()]: the propagation
    service, outside the repository. *)
Variable altaz_degrees : Time -> Q.

(** [name] and [info["freq"]] of the target being processed. *)
Variable name : string.
Variable freq : string.

(** The two assignments that end the set branch. *)
Definition after_set (v : Vars) : Vars :=
  {| pass_num := pass_num v; rise_time := None;
     max_el := 0; max_time := max_time v |}.

(** The body of [if rise_time and max_time:], entered with both variables
    holding instants. *)
Definition close_pass (v : Vars) (ti rt mt : Time) : Vars * list Effect :=
  let n := (pass_num v + 1)%Z in
  let duration := (tt ti - tt rt) * 24 * 60 in
  let quality := quality_of (max_el v) in
  let utc := mt in
  let local := mt + 6 / 24 in
  ({| pass_num := n; rise_time := None;
      max_el := 0; max_time := max_time v |},
   [ Print (mkLine n local (max_el v) duration quality);
     Append (mkPass name utc local (max_el v) duration freq) ]).

(** One iteration of [for ti, event in zip(t0, events)].  In the set
    branch [rise_time and max_time] tests [rise_time] first: [None] is
    false and ends the test; an instant is asked for its truth value. *)
Definition on_event (v : Vars) (e : Event) : Outcome Vars * list Effect :=
  let (ti, event) := e in
  if (event =? RISE)%Z then
    (Normal {| pass_num := pass_num v; rise_time := Some ti;
               max_el := 0; max_time := max_time v |}, [])
  else if (event =? CULMINATION)%Z then
    (Normal {| pass_num := pass_num v; rise_time := rise_time v;
               max_el := altaz_degrees ti; max_time := Some ti |}, [])
  else if (event =? SET)%Z then
    match rise_time v with
    | None => (Normal (after_set v), [])
    | Some rt =>
        match Time_bool rt with
        | Raises x => (Raises x, [])
        | Normal false => (Normal (after_set v), [])
        | Normal true =>
            match max_time v with
            | None => (Normal (after_set v), [])
            | Some mt =>
                match Time_bool mt with
                | Raises x => (Raises x, [])
                | Normal false => (Normal (after_set v), [])
                | Normal true =>
                    let (v', out) := close_pass v ti rt mt in
                    (Normal v', out)
                end
            end
        end
    end
  else (Normal v, []).

(** The loop from a given state of the variables; it stops at the first
    exception. *)
Fixpoint for_events (v : Vars) (es : list Event)
    : Outcome Vars * list Effect :=
  match es with
  | [] => (Normal v, [])
  | e :: rest =>
      match on_event v e with
      | (Normal v1, out1) =>
          let (o, out2) := for_events v1 rest in (o, out1 ++ out2)
      | (Raises x, out1) => (Raises x, out1)
      end
  end.

Definition records_of (out : list Effect) : list PassRecord :=
  flat_map (fun x => match x with Append r => [r] | Print _ => [] end) out.

Definition lines_of (out : list Effect) : list PassLine :=
  flat_map (fun x => match x with Print l => [l] | Append _ => [] end) out.

(** The exception an outcome carries, if any. *)
Definition raised {A : Type} (o : Outcome A) : option Exception :=
  match o with Normal _ => None | Raises x => Some x end.

(** The loop as the function runs it for one target: fresh variables,
    then every event in order.  The value is what was printed and
    appended, and the exception that ended the loop, if one did. *)
Definition pass_loop (es : list Event) : list Effect * option Exception :=
  (snd (for_events vars0 es), raised (fst (for_events vars0 es))).

Definition passes (es : list Event) : list PassRecord :=
  records_of (fst (pass_loop es)).

(** ** Vocabulary for the statements *)

(** A complete pass as [find_events] reports it: a rise, culminations of
    which [pe_last] is the final one, and a set. *)
Record PassEvents := mkPassEvents {
  pe_rise  : Time;
  pe_culms : list Time;
  pe_last  : Time;
  pe_set   : Time
}.

Definition culminations (ts : list Time) : list Event :=
  map (fun t => (t, CULMINATION)) ts.

Definition events_of_pass (p : PassEvents) : list Event :=
  (pe_rise p, RISE) :: culminations (pe_culms p ++ [pe_last p])
    ++ [(pe_set p, SET)].

Definition is_code (c : Z) (e : Event) : bool := (snd e =? c)%Z.

(** No event of the list carries the code [c]. *)
Definition free_of (c : Z) (es : list Event) : bool :=
  forallb (fun e => negb (is_code c e)) es.

(** Some event of the list carries the code [c]. *)
Definition has_code (c : Z) (es : list Event) : bool :=
  existsb (is_code c) es.

(** Some rise of the list is followed, sooner or later, by a set. *)
Fixpoint rise_then_set (es : list Event) : bool :=
  match es with
  | [] => false
  | e :: rest => (is_code RISE e && has_code SET rest) || rise_then_set rest
  end.

End Loop.

(** ** Sample data for concrete runs *)

(** A propagation service that reports 50 degrees at instant 2 and 40
    degrees at any other instant. *)
Definition two_peaks (t : Time) : Q := if Qeq_bool t 2 then 50 else 40.

Definition noaa19 : string := "NOAA 19".
Definition noaa19_freq : string := "137.100 MHz".

(** ** Further vocabulary *)

(** How many events of the list carry the code [c]. *)
Definition count_code (c : Z) (es : list Event) : nat :=
  List.length (filter (is_code c) es).

(** The three codes [find_events] documents. *)
Definition known_code (e : Event) : bool :=
  is_code RISE e || is_code CULMINATION e || is_code SET e.

(** Whether a rise is waiting for its set. *)
Definition armed (v : Vars) : bool :=
  match rise_time v with Some _ => true | None => false end.

End Leo.

(* ====================================================================== *)
(** * Part II: the GEO geometry of both scripts                            *)
(* ====================================================================== *)

Module Geo.

Local Open Scope R_scope.

(** ** The [math] module *)

Definition radians (x : R) : R := x * PI / 180.

Definition degrees (x : R) : R := x * 180 / PI.

(** [math.atan2 y x], the angle of the point [(x, y)] in [(-pi, pi]].
    The reals have one zero: at [y = 0] with [x] a negative zero the
    function of the C library returns pi, which this definition cannot
    tell from [atan2 0 0 = 0].  The scripts reach that point only for an
    observer on the equator; the theorems below that bound an azimuth
    are about the Dhaka observer, where [x] is strictly negative. *)
Definition atan2 (y x : R) : R :=
  if Rlt_dec 0 x then atan (y / x)
  else if Rlt_dec x 0 then
    if Rle_dec 0 y then atan (y / x) + PI else atan (y / x) - PI
  else if Rlt_dec 0 y then PI / 2
  else if Rlt_dec y 0 then - PI / 2
  else 0.

(** [x % m] with a positive modulus, as the remainder of the floored
    division.  Over the reals the result lies in [[0, m)]; on floats a
    negative [x] of tiny magnitude gives [m] itself, because [x + m]
    rounds to [m].  The theorems below that bound an azimuth take the
    remainder only of angles at least 90 degrees away from 0 and from
    360. *)
Definition py_mod (x m : R) : R := x - m * IZR (Zfloor (x / m)).

(** [min a b] of Python keeps its first argument unless the second is
    smaller. *)
Definition py_min (a b : R) : R := if Rlt_dec b a then b else a.

(** [round(x, ndigits)] for [ndigits >= 0]: the nearest multiple of
    [10 ^ -ndigits], a tie going to the even one. *)
Definition round_half_even (x : R) : Z :=
  let f := Zfloor x in
  if Rlt_dec (x - IZR f) (1 / 2) then f
  else if Rlt_dec (1 / 2) (x - IZR f) then (f + 1)%Z
  else if Z.even f then f else (f + 1)%Z.

Definition py_round (x : R) (ndigits : Z) : R :=
  IZR (round_half_even (x * IZR (10 ^ ndigits))) / IZR (10 ^ ndigits).

(** [needle in hay] on strings. *)
Fixpoint str_in (needle hay : string) : bool :=
  if String.prefix needle hay then true
  else match hay with
       | EmptyString => false
       | String _ rest => str_in needle rest
       end.

(** ** [geo_arc_survey.py]: constants *)

Definition R_EARTH : R := 6371.
Definition R_GEO : R := 42164.
Definition GEO_ALTITUDE : R := 35786.
Definition DHAKA_LAT : R := 23.8103.
Definition DHAKA_LON : R := 90.4125.
Definition MIN_ELEVATION : R := 5.

(** ** [calculate_geo_angles]

    The function reads the observer and the threshold from the module
    constants; the embedding takes them as arguments and instantiates them
    below, so that statements can range over every observer. *)

Definition cos_gamma_at (station_lat station_lon sat_lon : R) : R :=
  cos (radians station_lat) * cos (radians (sat_lon - station_lon)).

Definition elevation_at (station_lat station_lon sat_lon : R) : R :=
  let cos_gamma := cos_gamma_at station_lat station_lon sat_lon in
  degrees (atan2 (cos_gamma - R_EARTH / R_GEO) (sqrt (1 - cos_gamma ^ 2))).

Definition azimuth_at (station_lat station_lon sat_lon : R) : R :=
  let lat := radians station_lat in
  let delta_lon := radians (sat_lon - station_lon) in
  py_mod (degrees (atan2 (sin delta_lon) (- cos delta_lon * sin lat))) 360.

Definition calculate_geo_angles_at
    (station_lat station_lon min_elevation sat_lon : R) : option (R * R) :=
  let lat := radians station_lat in
  let delta_lon := radians (sat_lon - station_lon) in
  let cos_gamma := cos lat * cos delta_lon in
  let r_ratio := R_EARTH / R_GEO in
  if Rle_dec cos_gamma r_ratio then None
  else
    let elevation :=
      degrees (atan2 (cos_gamma - r_ratio) (sqrt (1 - cos_gamma ^ 2))) in
    if Rlt_dec elevation min_elevation then None
    else
      let azimuth :=
        py_mod (degrees (atan2 (sin delta_lon)
                               (- cos delta_lon * sin lat))) 360 in
      Some (elevation, azimuth).

Definition calculate_geo_angles (sat_lon : R) : option (R * R) :=
  calculate_geo_angles_at DHAKA_LAT DHAKA_LON MIN_ELEVATION sat_lon.

(** ** [calculate_slant_range] *)

Definition calculate_slant_range (elevation : R) : R :=
  let el_rad := radians elevation in
  R_EARTH * (- sin el_rad + sqrt (sin el_rad ^ 2 + (R_GEO / R_EARTH) ^ 2 - 1)).

(** ** [survey_geo_arc] *)

Inductive Priority := HIGH | MEDIUM | LOW.

(** A row of [GEO_DATABASE]:
    operator, satellite name, longitude, bands, coverage. *)
Definition DbRow := (string * string * R * string * string)%type.

Record SurveyRow := mkSurvey {
  sv_operator       : string;
  sv_satellite      : string;
  sv_longitude      : R;
  sv_bands          : string;
  sv_coverage       : string;
  sv_elevation      : R;
  sv_azimuth        : R;
  sv_slant_range_km : R;
  sv_priority       : Priority;
  sv_priority_score : R
}.

Definition GEO_DATABASE : list DbRow :=
  [ ("RSCC", "Express AM6", 53.0, "C/Ku", "Russia, Central Asia, Middle East");
    ("ISRO", "GSAT-31", 55.0, "C/Ku", "India, South Asia");
    ("Gazprom", "Yamal 402", 55.0, "Ku", "Russia, Central Asia, South Asia");
    ("Intelsat", "Intelsat 17", 66.0, "C/Ku", "South Asia, East Africa");
    ("Intelsat", "Intelsat 20", 68.5, "C/Ku", "South Asia, Middle East");
    ("RSCC", "Express AM22", 72.0, "Ku", "Russia, South Asia");
    ("APT Satellite", "Apstar 7", 76.5, "C/Ku", "Asia-Pacific");
    ("Thaicom", "Thaicom 6", 78.5, "C/Ku", "Southeast Asia, South Asia");
    ("Thaicom", "Thaicom 8", 78.5, "Ku", "South/Southeast Asia");
    ("ISRO", "GSAT-30", 83.0, "C/Ku", "India, South Asia");
    ("ISRO", "INSAT-4A", 83.0, "C/Ku", "India");
    ("China Satcom", "ChinaSat 12", 87.5, "C/Ku", "Asia-Pacific");
    ("MEASAT", "MEASAT-3", 91.5, "C/Ku", "Asia, Middle East, Africa");
    ("MEASAT", "MEASAT-3a", 91.5, "C/Ku", "Asia, Middle East");
    ("MEASAT", "MEASAT-3b", 91.5, "Ku/Ka", "Malaysia, South Asia");
    ("ISRO", "INSAT-4B", 93.5, "C/Ku", "India");
    ("SES", "NSS-6/SES-8", 95.0, "Ku", "Asia-Pacific");
    ("SES", "SES-12", 95.0, "Ku/Ka", "Asia-Pacific, Middle East");
    ("AsiaSat", "AsiaSat 5", 100.5, "C/Ku", "Asia-Pacific");
    ("AsiaSat", "AsiaSat 7", 105.5, "C/Ku", "Asia-Pacific");
    ("Telkom", "Telkom 4", 108.0, "C/Ku", "Indonesia, Southeast Asia");
    ("SKY Perfect JSAT", "JCSAT-110R", 110.0, "Ku", "Japan, Asia-Pacific");
    ("ABS", "ABS-2A", 116.0, "Ku/Ka", "Asia, Middle East, CIS");
    ("BSCCL", "Bangabandhu-1", 119.1, "C/Ku", "Bangladesh, South Asia");
    ("AsiaSat", "AsiaSat 9", 122.0, "C/Ku/Ka", "Asia-Pacific");
    ("JSAT", "JCSAT-4B", 124.0, "Ku", "Japan, Asia");
    ("China Satcom", "ChinaSat 11", 125.0, "C/Ku", "China, Asia-Pacific");
    ("SKY Perfect JSAT", "Superbird C2", 144.0, "Ku/Ka", "Japan");
    ("Optus", "Optus D3", 156.0, "Ku", "Australia, New Zealand") ]%string.

Section Survey.

(** The built-in [round(x, ndigits)]; only the stored fields go through
    it, never a value that is compared.  Statements that do not look at
    the stored digits hold for any function here; [py_round] above is the
    one to take when they do. *)
Variable round : R -> Z -> R.

(** The score as the loop body accumulates it. *)
Definition priority_score_of (elevation : R) (bands coverage : string) : R :=
  let priority_score := 0 in
  let priority_score := priority_score + py_min (elevation / 10) 5 in
  let priority_score :=
    if str_in "Ku" bands then priority_score + 3 else priority_score in
  let priority_score :=
    if str_in "Bangladesh" coverage || str_in "South Asia" coverage
    then priority_score + 2 else priority_score in
  let priority_score :=
    if str_in "India" coverage then priority_score + 1 else priority_score in
  priority_score.

Definition priority_of (priority_score : R) : Priority :=
  if Rle_dec 7 priority_score then HIGH
  else if Rle_dec 4 priority_score then MEDIUM
  else LOW.

(** One iteration of the loop over [GEO_DATABASE]: [None] is [continue]. *)
Definition survey_row (row : DbRow) : option SurveyRow :=
  let '(operator, name, lon, bands, coverage) := row in
  match calculate_geo_angles lon with
  | None => None
  | Some (elevation, azimuth) =>
      let slant_range := calculate_slant_range elevation in
      let priority_score := priority_score_of elevation bands coverage in
      let priority := priority_of priority_score in
      Some {| sv_operator := operator;
              sv_satellite := name;
              sv_longitude := lon;
              sv_bands := bands;
              sv_coverage := coverage;
              sv_elevation := round elevation 2;
              sv_azimuth := round azimuth 2;
              sv_slant_range_km := round slant_range 1;
              sv_priority := priority;
              sv_priority_score := round priority_score 1 |}
  end.

(** [results.sort(key=lambda x: x["longitude"])]: a stable sort, written
    as insertion from the right. *)
Fixpoint insert_by_longitude (x : SurveyRow) (l : list SurveyRow)
    : list SurveyRow :=
  match l with
  | [] => [x]
  | y :: rest =>
      if Rlt_dec (sv_longitude y) (sv_longitude x)
      then y :: insert_by_longitude x rest
      else x :: l
  end.

Definition sort_by_longitude (l : list SurveyRow) : list SurveyRow :=
  fold_right insert_by_longitude [] l.

Definition survey_rows (db : list DbRow) : list SurveyRow :=
  flat_map (fun row => match survey_row row with
                       | Some r => [r]
                       | None => []
                       end) db.

Definition survey_geo_arc : list SurveyRow :=
  sort_by_longitude (survey_rows GEO_DATABASE).

End Survey.

(** ** The score and the tier in the words of the design document *)

(** Elevation term capped at five, plus three for the band under study,
    plus two for the home region, plus one for the secondary region. *)
Definition spec_score (elevation : R) (bands coverage : string) : R :=
  Rmin (elevation / 10) 5
  + (if str_in "Ku" bands then 3 else 0)
  + (if str_in "Bangladesh" coverage || str_in "South Asia" coverage
     then 2 else 0)
  + (if str_in "India" coverage then 1 else 0).

(** [tier_is score p]: HIGH from seven up, MEDIUM from four up to seven,
    LOW otherwise. *)
Definition tier_is (score : R) (p : Priority) : Prop :=
  (7 <= score -> p = HIGH) /\
  (4 <= score < 7 -> p = MEDIUM) /\
  (score < 4 -> p = LOW).

(** ** [satellite_pass_predictor.py]: [calculate_geo_visibility] *)

Definition GROUND_STATION_latitude : R := 23.8103.
Definition GROUND_STATION_longitude : R := 90.4125.

(** [GEO_TARGETS]: name, longitude, operator, in dictionary order. *)
Definition GEO_TARGETS : list (string * R * string) :=
  [ ("Bangabandhu-1", 119.1, "BSCCL (Bangladesh)");
    ("GSAT-30", 83.0, "ISRO (India)");
    ("GSAT-31", 55.0, "ISRO (India)");
    ("INSAT-4A", 83.0, "ISRO (India)");
    ("INSAT-4B", 93.5, "ISRO (India)");
    ("Thaicom 6", 78.5, "Thaicom (Thailand)");
    ("Thaicom 8", 78.5, "Thaicom (Thailand)");
    ("AsiaSat 5", 100.5, "AsiaSat (Hong Kong)");
    ("AsiaSat 7", 105.5, "AsiaSat (Hong Kong)");
    ("AsiaSat 9", 122.0, "AsiaSat (Hong Kong)");
    ("MEASAT-3", 91.5, "MEASAT (Malaysia)");
    ("MEASAT-3a", 91.5, "MEASAT (Malaysia)");
    ("MEASAT-3b", 91.5, "MEASAT (Malaysia)");
    ("Intelsat 17", 66.0, "Intelsat");
    ("Intelsat 20", 68.5, "Intelsat");
    ("SES-8", 95.0, "SES (Luxembourg)");
    ("SES-12", 95.0, "SES (Luxembourg)");
    ("ChinaSat 12", 87.5, "China Satcom");
    ("Apstar 7", 76.5, "APT Satellite (China)");
    ("NSS-6", 95.0, "SES");
    ("Yamal 402", 55.0, "Gazprom (Russia)");
    ("Express AM6", 53.0, "RSCC (Russia)");
    ("JCSAT-2B", 154.0, "SKY Perfect JSAT (Japan)") ]%string.

Record VisibleRow := mkVisible {
  vis_name      : string;
  vis_longitude : R;
  vis_operator  : string;
  vis_elevation : R;
  vis_azimuth   : R
}.

(** The locals of the loop body, as functions of the longitude. *)
Definition vis_lat_rad : R := GROUND_STATION_latitude * 3.14159 / 180.

Definition vis_dlon_rad (lon : R) : R :=
  Rabs (lon - GROUND_STATION_longitude) * 3.14159 / 180.

Definition vis_cos_gamma (lon : R) : R :=
  cos vis_lat_rad * cos (vis_dlon_rad lon).

Definition vis_elevation_of (lon : R) : R :=
  let cos_gamma := vis_cos_gamma lon in
  let r_ratio := 6371 / 42164 in
  degrees (atan ((cos_gamma - r_ratio) / sqrt (1 - cos_gamma ^ 2))).

Definition vis_azimuth_of (lon : R) : R :=
  py_mod (degrees (atan2 (sin (vis_dlon_rad lon))
                         (- cos (vis_dlon_rad lon) * sin vis_lat_rad))) 360.

(** The elevation and azimuth the loop body computes for a longitude, or
    [None] when it appends nothing. *)
Definition geo_visibility_angles (arc_min arc_max lon : R) : option (R * R) :=
  if Rle_dec arc_min lon then
    if Rle_dec lon arc_max then
      let delta_lon := Rabs (lon - GROUND_STATION_longitude) in
      let lat_rad := GROUND_STATION_latitude * 3.14159 / 180 in
      let dlon_rad := delta_lon * 3.14159 / 180 in
      let cos_gamma := cos lat_rad * cos dlon_rad in
      if Rlt_dec 0.1513 cos_gamma then
        let r_ratio := 6371 / 42164 in
        let elevation :=
          degrees (atan ((cos_gamma - r_ratio) / sqrt (1 - cos_gamma ^ 2))) in
        let azimuth :=
          py_mod (degrees (atan2 (sin dlon_rad)
                                 (- cos dlon_rad * sin lat_rad))) 360 in
        Some (elevation, azimuth)
      else None
    else None
  else None.

Definition geo_visibility_row (arc_min arc_max : R)
    (target : string * R * string) : list VisibleRow :=
  let '(name, lon, operator) := target in
  match geo_visibility_angles arc_min arc_max lon with
  | Some (elevation, azimuth) =>
      [ {| vis_name := name; vis_longitude := lon; vis_operator := operator;
           vis_elevation := elevation; vis_azimuth := azimuth |} ]
  | None => []
  end.

(** [sorted(GEO_TARGETS.items(), key=lambda x: x[1]["longitude"])]. *)
Fixpoint insert_target (x : string * R * string)
    (l : list (string * R * string)) : list (string * R * string) :=
  match l with
  | [] => [x]
  | y :: rest =>
      if Rlt_dec (snd (fst y)) (snd (fst x))
      then y :: insert_target x rest
      else x :: l
  end.

Definition sorted_targets (l : list (string * R * string))
    : list (string * R * string) :=
  fold_right insert_target [] l.

Definition calculate_geo_visibility (arc_min arc_max : R) : list VisibleRow :=
  flat_map (geo_visibility_row arc_min arc_max) (sorted_targets GEO_TARGETS).

(** ** Sample data for concrete runs *)

Definition bangabandhu : DbRow :=
  ("BSCCL", "Bangabandhu-1", 119.1, "C/Ku", "Bangladesh, South Asia")%string.

(** A stand-in for [round] that keeps its argument. *)
Definition no_rounding (x : R) (ndigits : Z) : R := x.

Definition bangabandhu_survey : SurveyRow :=
  let el := elevation_at DHAKA_LAT DHAKA_LON 119.1 in
  let az := azimuth_at DHAKA_LAT DHAKA_LON 119.1 in
  {| sv_operator := "BSCCL";
     sv_satellite := "Bangabandhu-1";
     sv_longitude := 119.1;
     sv_bands := "C/Ku";
     sv_coverage := "Bangladesh, South Asia";
     sv_elevation := el;
     sv_azimuth := az;
     sv_slant_range_km := calculate_slant_range el;
     sv_priority := priority_of (priority_score_of el "C/Ku"
                                   "Bangladesh, South Asia");
     sv_priority_score := priority_score_of el "C/Ku"
                            "Bangladesh, South Asia" |}.

(** ** [print_survey]: the arc coverage line *)

(** The pair printed as arc coverage, [results[0]["longitude"]] and
    [results[-1]["longitude"]]; [None] stands for the [IndexError] both
    subscripts raise on an empty list. *)
Definition arc_coverage (results : list SurveyRow) : option (R * R) :=
  match results with
  | [] => None
  | first :: _ => Some (sv_longitude first, sv_longitude (last results first))
  end.

(** ** Orderings of the two result lists *)

Definition by_longitude (a b : SurveyRow) : Prop :=
  sv_longitude a <= sv_longitude b.

Definition vis_by_longitude (a b : VisibleRow) : Prop :=
  vis_longitude a <= vis_longitude b.

(** The rows at one orbital position. *)
Definition at_longitude (x : R) (s : SurveyRow) : bool :=
  if Req_dec_T (sv_longitude s) x then true else false.

End Geo.

(* ====================================================================== *)
(** * Part II b: the rest of [predict_leo_passes]                          *)
(* ====================================================================== *)

Module Predictor.

Import Leo.
Local Open Scope Q_scope.

(** An [EarthSatellite] as the function uses it: its [name], the zipped
    result of [find_events(station, now, end, altitude_degrees=10.0)], and
    the altitude in degrees of [(sat - station).at(t)]. *)
Record Satellite := mkSat {
  sat_name   : string;
  sat_events : list Event;
  sat_altaz  : Time -> Q
}.

(** [LEO_TARGETS]: name, then NORAD id, frequency and band. *)
Definition LEO_TARGETS : list (string * (Z * string * string)) :=
  [ ("NOAA 15",     (25338%Z, "137.620 MHz", "VHF"));
    ("NOAA 18",     (28654%Z, "137.9125 MHz", "VHF"));
    ("NOAA 19",     (33591%Z, "137.100 MHz", "VHF"));
    ("Meteor-M2",   (40069%Z, "137.100 MHz", "VHF"));
    ("Meteor-M2-2", (44387%Z, "137.900 MHz", "VHF"));
    ("Meteor-M2-3", (57166%Z, "137.900 MHz", "VHF"));
    ("ISS (SSTV)",  (25544%Z, "145.800 MHz", "VHF")) ]%string.

Section Predict.

(** The string methods of the Python runtime: [str.lower], [str.upper] and
    [s.split()[0]]. *)
Variables lower upper first_word : string -> string.

(** [by_name.get(key)] for [by_name = {sat.name: sat for sat in satellites}]:
    of several satellites with one name the dictionary keeps the last. *)
Definition by_name_get (satellites : list Satellite) (key : string)
    : option Satellite :=
  find (fun sat => String.eqb (sat_name sat) key) (rev satellites).

(** The satellite looked up for a target: by name, by upper-cased name,
    else the first one whose lower-cased name contains the lower-cased
    first word of the target's name. *)
Definition find_satellite (satellites : list Satellite) (name : string)
    : option Satellite :=
  match by_name_get satellites name with
  | Some sat => Some sat
  | None =>
      match by_name_get satellites (upper name) with
      | Some sat => Some sat
      | None =>
          let matches :=
            filter (fun s => Geo.str_in (lower (first_word name))
                                        (lower (sat_name s))) satellites in
          match matches with
          | m :: _ => Some m
          | [] => None
          end
      end
  end.

(** The body of the loop over the targets: what one target appends to
    [all_passes], and the exception that leaves the body, if any. *)
Definition target_passes (satellites : list Satellite)
    (target : string * (Z * string * string))
    : list PassRecord * option Exception :=
  let '(name, (norad_id, freq, band)) := target in
  match find_satellite satellites name with
  | None => ([], None)
  | Some sat =>
      match sat_events sat with
      | [] => ([], None)
      | _ :: _ =>
          let (out, x) := pass_loop (sat_altaz sat) name freq (sat_events sat)
          in (records_of out, x)
      end
  end.

(** The loop over the targets from a given [all_passes]; nothing catches
    an exception, so the first one ends the loop and the function. *)
Fixpoint for_targets (satellites : list Satellite)
    (targets : list (string * (Z * string * string)))
    (all_passes : list PassRecord) : Outcome (list PassRecord) :=
  match targets with
  | [] => Normal all_passes
  | target :: rest =>
      match target_passes satellites target with
      | (rs, None) => for_targets satellites rest (all_passes ++ rs)
      | (_, Some x) => Raises x
      end
  end.

Definition all_targets (satellites : list Satellite)
    (targets : list (string * (Z * string * string)))
    : Outcome (list PassRecord) :=
  for_targets satellites targets [].

(** The variable [targets]: the whole table, or its entries whose
    lower-cased name contains the lower-cased [target_name] when one is
    given (an empty string counts as none). *)
Definition targets_for (target_name : option string)
    : list (string * (Z * string * string)) :=
  match target_name with
  | None => LEO_TARGETS
  | Some t =>
      if String.eqb t "" then LEO_TARGETS
      else filter (fun kv => Geo.str_in (lower t) (lower (fst kv)))
                  LEO_TARGETS
  end.

(** [predict_leo_passes]: [tle] is the result of [load.tle_file], [None]
    when it raised; [target_name] is the argument of the same name.  The
    outcome is the list the function returns, or the exception that
    leaves it. *)
Definition predict_leo_passes (tle : option (list Satellite))
    (target_name : option string) : Outcome (list PassRecord) :=
  match tle with
  | None => Normal []
  | Some satellites =>
      let targets := targets_for target_name in
      match target_name with
      | None => all_targets satellites targets
      | Some t =>
          if String.eqb t "" then all_targets satellites targets
          else
            match targets with
            | [] => Normal []
            | _ :: _ => all_targets satellites targets
            end
      end
  end.

(** ** Vocabulary for the statements *)

(** The events found for a target hold a rise that is followed by a
    set. *)
Definition sees_a_pass (satellites : list Satellite)
    (target : string * (Z * string * string)) : bool :=
  match find_satellite satellites (fst target) with
  | Some sat => rise_then_set (sat_events sat)
  | None => false
  end.

End Predict.

End Predictor.

(* ====================================================================== *)
(** * Part II c: [encryption_classifier.py]                                *)
(* ====================================================================== *)

Module Audit.

Local Open Scope Q_scope.

Module EncryptionStatus.

Inductive t :=
  ENCRYPTED | PLAINTEXT | OBFUSCATED | COMPRESSED | CONTROL | UNKNOWN.

Definition value (s : t) : string :=
  match s with
  | ENCRYPTED => "ENCRYPTED"
  | PLAINTEXT => "PLAINTEXT"
  | OBFUSCATED => "OBFUSCATED"
  | COMPRESSED => "COMPRESSED"
  | CONTROL => "CONTROL"
  | UNKNOWN => "UNKNOWN"
  end.

Definition eqb (a b : t) : bool :=
  match a, b with
  | ENCRYPTED, ENCRYPTED | PLAINTEXT, PLAINTEXT | OBFUSCATED, OBFUSCATED
  | COMPRESSED, COMPRESSED | CONTROL, CONTROL | UNKNOWN, UNKNOWN => true
  | _, _ => false
  end.

End EncryptionStatus.

Module TrafficType.

Inductive t :=
  TELECOM_BACKHAUL | ENTERPRISE_VSAT | BROADCAST_TV | GOVERNMENT
| IOT_SCADA | MARITIME | AVIATION | INTERNET_ACCESS | UNKNOWN.

Definition value (s : t) : string :=
  match s with
  | TELECOM_BACKHAUL => "Telecom Backhaul"
  | ENTERPRISE_VSAT => "Enterprise VSAT"
  | BROADCAST_TV => "Broadcast TV"
  | GOVERNMENT => "Government/Military"
  | IOT_SCADA => "IoT/SCADA"
  | MARITIME => "Maritime"
  | AVIATION => "Aviation"
  | INTERNET_ACCESS => "Internet Access"
  | UNKNOWN => "Unknown"
  end.

End TrafficType.

Module ModulationType.

Inductive t := DVB_S | DVB_S2 | DVB_S2X | SCPC | MCPC | TDMA | UNKNOWN.

Definition value (s : t) : string :=
  match s with
  | DVB_S => "DVB-S"
  | DVB_S2 => "DVB-S2"
  | DVB_S2X => "DVB-S2X"
  | SCPC => "SCPC"
  | MCPC => "MCPC"
  | TDMA => "TDMA"
  | UNKNOWN => "Unknown"
  end.

End ModulationType.

Module TransponderSample.

Record t := mk {
  satellite_name : string;
  satellite_longitude : Q;
  transponder_id : string;
  frequency_mhz : Q;
  polarization : string;
  observation_date : string;
  observation_duration_sec : Z;
  observer_location : string;
  modulation : ModulationType.t;
  symbol_rate_msps : option Q;
  signal_strength_dbm : option Q;
  carrier_to_noise_db : option Q;
  encryption_status : EncryptionStatus.t;
  traffic_type : TrafficType.t;
  confidence : Q;
  evidence_notes : string;
  contains_pii : bool;
  responsible_disclosure_required : bool;
  operator_name : option string;
  operator_country : option string
}.

(** The dictionary of [to_dict]: the fields of [asdict], with the three
    enumeration members replaced by their values. *)
Record dict := mkDict {
  d_satellite_name : string;
  d_satellite_longitude : Q;
  d_transponder_id : string;
  d_frequency_mhz : Q;
  d_polarization : string;
  d_observation_date : string;
  d_observation_duration_sec : Z;
  d_observer_location : string;
  d_modulation : string;
  d_symbol_rate_msps : option Q;
  d_signal_strength_dbm : option Q;
  d_carrier_to_noise_db : option Q;
  d_encryption_status : string;
  d_traffic_type : string;
  d_confidence : Q;
  d_evidence_notes : string;
  d_contains_pii : bool;
  d_responsible_disclosure_required : bool;
  d_operator_name : option string;
  d_operator_country : option string
}.

Definition to_dict (self : t) : dict :=
  {| d_satellite_name := satellite_name self;
     d_satellite_longitude := satellite_longitude self;
     d_transponder_id := transponder_id self;
     d_frequency_mhz := frequency_mhz self;
     d_polarization := polarization self;
     d_observation_date := observation_date self;
     d_observation_duration_sec := observation_duration_sec self;
     d_observer_location := observer_location self;
     d_modulation := ModulationType.value (modulation self);
     d_symbol_rate_msps := symbol_rate_msps self;
     d_signal_strength_dbm := signal_strength_dbm self;
     d_carrier_to_noise_db := carrier_to_noise_db self;
     d_encryption_status := EncryptionStatus.value (encryption_status self);
     d_traffic_type := TrafficType.value (traffic_type self);
     d_confidence := confidence self;
     d_evidence_notes := evidence_notes self;
     d_contains_pii := contains_pii self;
     d_responsible_disclosure_required :=
       responsible_disclosure_required self;
     d_operator_name := operator_name self;
     d_operator_country := operator_country self |}.

End TransponderSample.

Module EncryptionAuditReport.

(** The attributes of a report.  The two time stamps are strings produced
    by [datetime.utcnow().isoformat()]; the embedding receives them as
    arguments. *)
Record t := mk {
  satellite_name : string;
  satellite_longitude : Q;
  samples : list TransponderSample.t;
  created_at : string;
  last_updated : string
}.

(** [__init__], called at the instant [now]. *)
Definition init (satellite_name : string) (satellite_longitude : Q)
    (now : string) : t :=
  {| satellite_name := satellite_name;
     satellite_longitude := satellite_longitude;
     samples := [];
     created_at := now;
     last_updated := now |}.

(** [add_sample], called at the instant [now]. *)
Definition add_sample (self : t) (sample : TransponderSample.t)
    (now : string) : t :=
  {| satellite_name := satellite_name self;
     satellite_longitude := satellite_longitude self;
     samples := samples self ++ [sample];
     created_at := created_at self;
     last_updated := now |}.

(** [sum(1 for s in self.samples if cond(s))]. *)
Definition count_if (cond : TransponderSample.t -> bool)
    (l : list TransponderSample.t) : Z :=
  fold_left (fun acc s => if cond s then (acc + 1)%Z else acc) l 0%Z.

Definition has_status (st : EncryptionStatus.t) (s : TransponderSample.t)
    : bool :=
  EncryptionStatus.eqb (TransponderSample.encryption_status s) st.

(** The dictionary of a report with samples.  The counters are integers.
    The two rates are kept as the exact quotients; the floats of the
    program differ from them by the rounding of one division and one
    multiplication, so the statements about the rates are limited to what
    that rounding preserves. *)
Record stats := mkStats {
  total_transponders : Z;
  encrypted : Z;
  plaintext : Z;
  obfuscated : Z;
  unknown : Z;
  encryption_rate : Q;
  plaintext_rate : Q;
  pii_exposure_count : Z;
  disclosure_required_count : Z
}.

(** The two shapes of dictionary [get_statistics] returns. *)
Inductive statistics :=
| NoObservations (total : Z) (message : string)
| Statistics (st : stats).

Definition get_statistics (self : t) : statistics :=
  let total := Z.of_nat (List.length (samples self)) in
  if (total =? 0)%Z then NoObservations 0 "No observations yet"
  else
    let encrypted :=
      count_if (has_status EncryptionStatus.ENCRYPTED) (samples self) in
    let plaintext :=
      count_if (has_status EncryptionStatus.PLAINTEXT) (samples self) in
    let obfuscated :=
      count_if (has_status EncryptionStatus.OBFUSCATED) (samples self) in
    let unknown :=
      count_if (has_status EncryptionStatus.UNKNOWN) (samples self) in
    Statistics
      {| total_transponders := total;
         encrypted := encrypted;
         plaintext := plaintext;
         obfuscated := obfuscated;
         unknown := unknown;
         encryption_rate :=
           if (0 <? total)%Z
           then inject_Z encrypted / inject_Z total * 100 else 0;
         plaintext_rate :=
           if (0 <? total)%Z
           then inject_Z plaintext / inject_Z total * 100 else 0;
         pii_exposure_count :=
           count_if TransponderSample.contains_pii (samples self);
         disclosure_required_count :=
           count_if TransponderSample.responsible_disclosure_required
                    (samples self) |}.

(** The numbers [print_summary] prints, each read with
    [stats.get(key, 0)]. *)
Record summary := mkSummary {
  sum_total : Z;
  sum_encrypted : Z;
  sum_encryption_rate : Q;
  sum_plaintext : Z;
  sum_plaintext_rate : Q;
  sum_obfuscated : Z;
  sum_unknown : Z;
  sum_pii : Z;
  sum_disclosure : Z
}.

Definition print_summary (self : t) : summary :=
  match get_statistics self with
  | NoObservations _ _ =>
      {| sum_total := 0; sum_encrypted := 0; sum_encryption_rate := 0;
         sum_plaintext := 0; sum_plaintext_rate := 0; sum_obfuscated := 0;
         sum_unknown := 0; sum_pii := 0; sum_disclosure := 0 |}
  | Statistics st =>
      {| sum_total := total_transponders st;
         sum_encrypted := encrypted st;
         sum_encryption_rate := encryption_rate st;
         sum_plaintext := plaintext st;
         sum_plaintext_rate := plaintext_rate st;
         sum_obfuscated := obfuscated st;
         sum_unknown := unknown st;
         sum_pii := pii_exposure_count st;
         sum_disclosure := disclosure_required_count st |}
  end.

(** The dictionary [export_json] hands to [json.dump]. *)
Record export := mkExport {
  ex_satellite : string;
  ex_longitude : Q;
  ex_created_at : string;
  ex_last_updated : string;
  ex_statistics : statistics;
  ex_samples : list TransponderSample.dict
}.

Definition export_json (self : t) : export :=
  {| ex_satellite := satellite_name self;
     ex_longitude := satellite_longitude self;
     ex_created_at := created_at self;
     ex_last_updated := last_updated self;
     ex_statistics := get_statistics self;
     ex_samples := map TransponderSample.to_dict (samples self) |}.

(** A report built by [__init__] at [t0] followed by one [add_sample] per
    element of [adds], each with the instant of its call. *)
Definition built (satellite_name : string) (satellite_longitude : Q)
    (t0 : string) (adds : list (TransponderSample.t * string)) : t :=
  fold_left (fun r a => add_sample r (fst a) (snd a)) adds
            (init satellite_name satellite_longitude t0).

(** The sample of [demo]. *)
Definition sample1 : TransponderSample.t :=
  {| TransponderSample.satellite_name := "Bangabandhu-1";
     TransponderSample.satellite_longitude := 119.1;
     TransponderSample.transponder_id := "BB1-C01";
     TransponderSample.frequency_mhz := 3625;
     TransponderSample.polarization := "H";
     TransponderSample.observation_date := "2026-03-15T10:00:00Z";
     TransponderSample.observation_duration_sec := 3600;
     TransponderSample.observer_location := "Dhaka, Bangladesh";
     TransponderSample.modulation := ModulationType.DVB_S2;
     TransponderSample.symbol_rate_msps := Some 27.5;
     TransponderSample.signal_strength_dbm := None;
     TransponderSample.carrier_to_noise_db := None;
     TransponderSample.encryption_status := EncryptionStatus.UNKNOWN;
     TransponderSample.traffic_type := TrafficType.UNKNOWN;
     TransponderSample.confidence := 0;
     TransponderSample.evidence_notes :=
       "Awaiting Phase 3 equipment for actual observation";
     TransponderSample.contains_pii := false;
     TransponderSample.responsible_disclosure_required := false;
     TransponderSample.operator_name := None;
     TransponderSample.operator_country := None |}.

End EncryptionAuditReport.

End Audit.

(* ====================================================================== *)
(** * Part III: properties of the pass loop                                *)
(* ====================================================================== *)

Module LeoSpec.

Import Leo.
Local Open Scope Q_scope.

Section LoopFacts.

Variable altaz_degrees : Time -> Q.
Variables name freq : string.

Local Abbreviation on_event := (on_event altaz_degrees name freq).
Local Abbreviation for_events := (for_events altaz_degrees name freq).
Local Abbreviation pass_loop := (pass_loop altaz_degrees name freq).
Local Abbreviation passes := (passes altaz_degrees name freq).
Local Abbreviation close_pass := (close_pass name freq).

(** *** One iteration *)

(** The four ways an iteration can end. *)
Lemma on_event_cases (v : Vars) (ti : Time) (c : Z) :
  (c = RISE /\
   on_event v (ti, c) =
   (Normal {| pass_num := pass_num v; rise_time := Some ti;
              max_el := 0; max_time := max_time v |}, [])) \/
  (c = CULMINATION /\
   on_event v (ti, c) =
   (Normal {| pass_num := pass_num v; rise_time := rise_time v;
              max_el := altaz_degrees ti; max_time := Some ti |}, [])) \/
  (c = SET /\
   ((rise_time v = None /\ on_event v (ti, c) = (Normal (after_set v), [])) \/
    (rise_time v <> None /\ on_event v (ti, c) = (Raises TypeError, [])))) \/
  (c <> RISE /\ c <> CULMINATION /\ c <> SET /\
   on_event v (ti, c) = (Normal v, [])).
Proof.
  unfold Leo.on_event.
  destruct (Z.eqb_spec c RISE) as [->|Hr]; [left; auto|].
  destruct (Z.eqb_spec c CULMINATION) as [->|Hc]; [right; left; auto|].
  destruct (Z.eqb_spec c SET) as [->|Hs]; [|right; right; right; auto].
  right; right; left; split; [reflexivity|].
  destruct (rise_time v) as [rt|]; [right | left; auto].
  split; [discriminate | reflexivity].
Qed.

Lemma on_event_silent (v : Vars) (e : Event) : snd (on_event v e) = [].
Proof.
  destruct e as [ti c].
  destruct (on_event_cases v ti c)
    as [[_ ->] | [[_ ->] | [[_ [[_ ->] | [_ ->]]] | (_ & _ & _ & ->)]]];
    reflexivity.
Qed.

(** *** The loop *)

Lemma for_events_cons (e : Event) (es : list Event) (v : Vars) :
  for_events v (e :: es) =
  match fst (on_event v e) with
  | Normal v1 => for_events v1 es
  | Raises x => (Raises x, [])
  end.
Proof.
  cbn [Leo.for_events]; pose proof (on_event_silent v e) as Hs.
  destruct (on_event v e) as [[v1|x] out]; cbn in Hs |- *; subst out.
  - now destruct (for_events v1 es).
  - reflexivity.
Qed.

Lemma for_events_silent (es : list Event) (v : Vars) :
  snd (for_events v es) = [].
Proof.
  revert v; induction es as [|e es IH]; intro v; [reflexivity|].
  rewrite for_events_cons; destruct (fst (on_event v e)); [apply IH|].
  reflexivity.
Qed.

Lemma for_events_app (es1 es2 : list Event) (v : Vars) :
  for_events v (es1 ++ es2) =
  match fst (for_events v es1) with
  | Normal v1 => for_events v1 es2
  | Raises x => (Raises x, [])
  end.
Proof.
  revert v; induction es1 as [|e es1 IH]; intro v; [reflexivity|].
  change ((e :: es1) ++ es2) with (e :: (es1 ++ es2)).
  rewrite !for_events_cons.
  destruct (fst (on_event v e)); [apply IH | reflexivity].
Qed.

Lemma pass_loop_eq (es : list Event) :
  pass_loop es = ([], raised (fst (for_events vars0 es))).
Proof. unfold Leo.pass_loop; now rewrite for_events_silent. Qed.

(** *** When the loop raises *)

Lemma has_code_cons (c : Z) (ti : Time) (c' : Z) (es : list Event) :
  has_code c ((ti, c') :: es) = (c' =? c)%Z || has_code c es.
Proof. reflexivity. Qed.

Lemma rise_then_set_cons (ti : Time) (c : Z) (es : list Event) :
  rise_then_set ((ti, c) :: es) =
  ((c =? RISE)%Z && has_code SET es) || rise_then_set es.
Proof. reflexivity. Qed.

Lemma raised_from (es : list Event) (v : Vars) :
  raised (fst (for_events v es)) =
  if (armed v && has_code SET es) || rise_then_set es
  then Some TypeError else None.
Proof.
  revert v; induction es as [|[ti c] es IH]; intro v.
  - cbn; now rewrite andb_false_r.
  - rewrite for_events_cons, rise_then_set_cons, has_code_cons.
    destruct (on_event_cases v ti c)
      as [[-> ->] | [[-> ->] | [[-> [[Hn ->] | [Hn ->]]] | (H1 & H2 & H3 & ->)]]];
      cbn [fst].
    + rewrite IH.
      change (armed {| pass_num := pass_num v; rise_time := Some ti;
                       max_el := 0; max_time := max_time v |}) with true.
      change (RISE =? SET)%Z with false; change (RISE =? RISE)%Z with true.
      cbn [andb orb].
      destruct (armed v), (has_code SET es), (rise_then_set es); reflexivity.
    + rewrite IH.
      change (CULMINATION =? SET)%Z with false.
      change (CULMINATION =? RISE)%Z with false.
      unfold armed; cbn [rise_time andb orb]; reflexivity.
    + rewrite IH; unfold armed; cbn [after_set rise_time]; rewrite Hn.
      change (SET =? RISE)%Z with false; reflexivity.
    + unfold armed; destruct (rise_time v); [reflexivity | contradiction].
    + rewrite IH.
      destruct (Z.eqb_spec c RISE); [contradiction|].
      destruct (Z.eqb_spec c SET); [contradiction | reflexivity].
Qed.

Lemma pass_loop_outcome (es : list Event) :
  pass_loop es = ([], if rise_then_set es then Some TypeError else None).
Proof. rewrite pass_loop_eq, raised_from; reflexivity. Qed.

Lemma has_code_app (c : Z) (a b : list Event) :
  has_code c (a ++ b) = has_code c a || has_code c b.
Proof. unfold has_code; apply existsb_app. Qed.

Lemma has_code_free (c : Z) (es : list Event) :
  has_code c es = negb (free_of c es).
Proof.
  unfold has_code, free_of; induction es as [|e es IH]; [reflexivity|].
  cbn; rewrite IH; now destruct (is_code c e), (forallb _ es).
Qed.

Lemma rise_then_set_app (a b : list Event) :
  rise_then_set (a ++ b) =
  rise_then_set a || (has_code RISE a && has_code SET b) || rise_then_set b.
Proof.
  induction a as [|e a IH]; [reflexivity|].
  cbn [app rise_then_set has_code existsb]; fold (has_code RISE a).
  fold (has_code SET (a ++ b)); fold (has_code SET a).
  rewrite IH, has_code_app.
  destruct (is_code RISE e), (has_code SET a), (has_code SET b),
    (rise_then_set a), (has_code RISE a), (rise_then_set b); reflexivity.
Qed.

Lemma rise_then_set_free (c : Z) (es : list Event) :
  c = RISE \/ c = SET -> free_of c es = true -> rise_then_set es = false.
Proof.
  intros Hc Hfree; induction es as [|e es IH]; [reflexivity|].
  unfold free_of in Hfree; cbn [forallb] in Hfree.
  fold (free_of c es) in Hfree.
  apply andb_prop in Hfree; destruct Hfree as [He Hes].
  cbn [rise_then_set]; rewrite (IH Hes), orb_false_r.
  destruct Hc as [-> | ->].
  - apply negb_true_iff in He; now rewrite He.
  - rewrite has_code_free, Hes; apply andb_false_r.
Qed.

(** *** Culminations only overwrite *)

Lemma culminations_app (a b : list Time) :
  culminations (a ++ b) = culminations a ++ culminations b.
Proof. unfold culminations; apply map_app. Qed.

Lemma for_culminations (cs : list Time) (tl : Time) (v : Vars) :
  for_events v (culminations (cs ++ [tl])) =
  (Normal {| pass_num := pass_num v; rise_time := rise_time v;
             max_el := altaz_degrees tl; max_time := Some tl |}, []).
Proof.
  revert v; induction cs as [|c cs IH]; intro v.
  - reflexivity.
  - change (culminations ((c :: cs) ++ [tl]))
      with ((c, CULMINATION) :: culminations (cs ++ [tl])).
    rewrite for_events_cons; cbn [fst Leo.on_event]; cbn.
    rewrite IH; reflexivity.
Qed.

Lemma events_of_pass_rise_then_set (p : PassEvents) (rest : list Event) :
  rise_then_set (events_of_pass p ++ rest) = true.
Proof.
  unfold events_of_pass.
  change (((pe_rise p, RISE)
           :: culminations (pe_culms p ++ [pe_last p]) ++ [(pe_set p, SET)])
          ++ rest)
    with ((pe_rise p, RISE)
          :: (culminations (pe_culms p ++ [pe_last p]) ++ [(pe_set p, SET)])
             ++ rest).
  rewrite rise_then_set_cons, !has_code_app.
  change (has_code SET [(pe_set p, SET)]) with true.
  change (RISE =? RISE)%Z with true.
  now rewrite orb_true_r.
Qed.

(** ** The claims about the pass loop *)

(** C2, at the failing inputs.  For any non-empty run of complete passes,
    each a rise, one or more culminations and a set, the loop returns no
    record: at the first set the test [rise_time and max_time] asks an
    instant for its truth value and [TypeError] is raised. *)
Theorem complete_pass_raises (p : PassEvents) (ps : list PassEvents) :
  pass_loop (flat_map events_of_pass (p :: ps)) = ([], Some TypeError).
Proof.
  rewrite pass_loop_outcome; cbn [flat_map].
  now rewrite events_of_pass_rise_then_set.
Qed.

(** C3, at the failing inputs.  Each culmination overwrites [max_el]:
    after the rise and the culminations of a pass the variable holds the
    elevation of the last culmination, whatever the earlier ones were;
    and the set that should report it raises [TypeError]. *)
Theorem last_culmination_overwrites (p : PassEvents) (v : Vars) :
  for_events v ((pe_rise p, RISE)
                :: culminations (pe_culms p ++ [pe_last p])) =
  (Normal {| pass_num := pass_num v; rise_time := Some (pe_rise p);
             max_el := altaz_degrees (pe_last p);
             max_time := Some (pe_last p) |}, []) /\
  for_events v (events_of_pass p) = (Raises TypeError, []).
Proof.
  assert (H : for_events v ((pe_rise p, RISE)
                            :: culminations (pe_culms p ++ [pe_last p])) =
              (Normal {| pass_num := pass_num v; rise_time := Some (pe_rise p);
                         max_el := altaz_degrees (pe_last p);
                         max_time := Some (pe_last p) |}, [])).
  { rewrite for_events_cons; cbn [fst Leo.on_event]; cbn.
    now rewrite for_culminations. }
  split; [exact H|].
  unfold events_of_pass.
  change ((pe_rise p, RISE)
          :: culminations (pe_culms p ++ [pe_last p]) ++ [(pe_set p, SET)])
    with (((pe_rise p, RISE) :: culminations (pe_culms p ++ [pe_last p]))
          ++ [(pe_set p, SET)]).
  rewrite for_events_app, H; reflexivity.
Qed.


(** C6 (as amended).  A set with no rise before it is discarded silently:
    a sequence without a rise makes the loop append nothing and print
    nothing, and so do the events that follow a set up to the next
    rise. *)
Theorem orphan_set_is_silent :
  (forall es : list Event,
      free_of RISE es = true -> pass_loop es = ([], None)) /\
  (forall (pre : list Event) (t : Time) (es : list Event),
      free_of RISE es = true ->
      pass_loop (pre ++ (t, SET) :: es) = pass_loop (pre ++ [(t, SET)])).
Proof.
  split.
  - intros es Hfree; rewrite pass_loop_outcome.
    now rewrite (rise_then_set_free RISE es (or_introl eq_refl) Hfree).
  - intros pre t es Hfree; rewrite !pass_loop_outcome.
    replace (pre ++ (t, SET) :: es) with ((pre ++ [(t, SET)]) ++ es)
      by (now rewrite <- app_assoc).
    rewrite (rise_then_set_app (pre ++ [(t, SET)]) es).
    rewrite (rise_then_set_free RISE es (or_introl eq_refl) Hfree).
    rewrite orb_false_r.
    destruct (rise_then_set (pre ++ [(t, SET)])) eqn:E; [reflexivity|].
    cbn [orb].
    (* a rise of [pre ++ [set]] is followed by that set *)
    rewrite rise_then_set_app in E; cbn in E.
    rewrite orb_false_r, andb_true_r in E.
    apply orb_false_iff in E; destruct E as [_ E].
    rewrite has_code_app, E; cbn.
    unfold is_code; cbn; reflexivity.
Qed.

(** C8.  Events after the last set change nothing, so a pass still in
    progress when the sequence ends is not reported; and as long as no
    rise of the sequence is followed by a set, the loop ends normally
    without a record. *)
Theorem in_progress_pass_not_reported :
  (forall es tail : list Event,
      free_of SET tail = true ->
      pass_loop (es ++ tail) = pass_loop es /\
      passes (es ++ tail) = passes es) /\
  (forall es : list Event,
      rise_then_set es = false -> pass_loop es = ([], None)).
Proof.
  split.
  - intros es tail Hfree.
    assert (H : pass_loop (es ++ tail) = pass_loop es).
    { rewrite !pass_loop_outcome, rise_then_set_app.
      rewrite (rise_then_set_free SET tail (or_intror eq_refl) Hfree).
      rewrite (has_code_free SET tail), Hfree; cbn [negb].
      now rewrite andb_false_r, !orb_false_r. }
    split; [exact H|]; unfold Leo.passes; now rewrite H.
  - intros es Hes; rewrite pass_loop_outcome, Hes; reflexivity.
Qed.

End LoopFacts.

(** ** Concrete runs *)

(** A pass with culminations of 50 and then 40 degrees: before the set
    [max_el] holds 40, the lower of the two, and the set raises. *)
Lemma two_culminations_keep_the_last :
  fst (for_events two_peaks noaa19 noaa19_freq vars0
         [(1, RISE); (2, CULMINATION); (3, CULMINATION)]) =
  Normal {| pass_num := 0; rise_time := Some 1;
            max_el := 40; max_time := Some 3 |} /\
  40 < two_peaks 2 /\
  pass_loop two_peaks noaa19 noaa19_freq
    [(1, RISE); (2, CULMINATION); (3, CULMINATION); (4, SET)] =
  ([], Some TypeError).
Proof. repeat split. Qed.

(** One complete pass: the loop raises at its set. *)
Lemma one_pass_raises :
  pass_loop two_peaks noaa19 noaa19_freq
    [(1, RISE); (2, CULMINATION); (3, SET)] = ([], Some TypeError).
Proof. reflexivity. Qed.

(** C6, refuted as stated: a lone set yields no record, but it yields no
    printed line either, so no warning reaches the caller. *)
Lemma orphan_set_raises_no_warning :
  ~ (List.length (passes two_peaks noaa19 noaa19_freq [(1, SET)]) = 0%nat /\
     List.length
       (lines_of (fst (pass_loop two_peaks noaa19 noaa19_freq [(1, SET)])))
       = 1%nat).
Proof. vm_compute; intros [_ H]; discriminate H. Qed.

Lemma orphan_set_is_silent_witness :
  pass_loop two_peaks noaa19 noaa19_freq [(1, CULMINATION); (2, SET)]
    = ([], None) /\
  pass_loop two_peaks noaa19 noaa19_freq
    ([(1, SET); (2, CULMINATION)] ++ (3, SET) :: [(4, SET)]) =
  pass_loop two_peaks noaa19 noaa19_freq
    ([(1, SET); (2, CULMINATION)] ++ [(3, SET)]).
Proof.
  split.
  - apply (proj1 (orphan_set_is_silent two_peaks noaa19 noaa19_freq)).
    reflexivity.
  - apply (proj2 (orphan_set_is_silent two_peaks noaa19 noaa19_freq)).
    reflexivity.
Defined.

Lemma in_progress_pass_not_reported_witness :
  (pass_loop two_peaks noaa19 noaa19_freq
     ([(1, SET)] ++ [(2, RISE); (3, CULMINATION)]) =
   pass_loop two_peaks noaa19 noaa19_freq [(1, SET)] /\
   passes two_peaks noaa19 noaa19_freq
     ([(1, SET)] ++ [(2, RISE); (3, CULMINATION)]) =
   passes two_peaks noaa19 noaa19_freq [(1, SET)]) /\
  pass_loop two_peaks noaa19 noaa19_freq [(2, RISE); (3, CULMINATION)]
    = ([], None).
Proof.
  split.
  - apply (proj1 (in_progress_pass_not_reported two_peaks noaa19 noaa19_freq)).
    reflexivity.
  - apply (proj2 (in_progress_pass_not_reported two_peaks noaa19 noaa19_freq)).
    reflexivity.
Defined.

End LeoSpec.

(* ====================================================================== *)
(** * Part IV: properties of the GEO geometry                              *)
(* ====================================================================== *)

Module GeoSpec.

Import Geo.
Local Open Scope R_scope.

(** ** Enclosures for the transcendental functions *)

Lemma PI_lower : 3.14159 < PI.
Proof.
  pose proof (PI_2_3_7_ineq 3) as [H _].
  unfold PI_2_3_7_tg, tg_alt, Ratan_seq in H; simpl in H; lra.
Qed.

Lemma PI_upper : PI < 3.1416.
Proof.
  pose proof (PI_2_3_7_ineq 3) as [_ H].
  unfold PI_2_3_7_tg, tg_alt, Ratan_seq in H; simpl in H; lra.
Qed.

Lemma PI_lower6 : 3.141592 < PI.
Proof.
  pose proof (PI_2_3_7_ineq 3) as [H _].
  unfold PI_2_3_7_tg, tg_alt, Ratan_seq in H; simpl in H; lra.
Qed.

Lemma PI_upper6 : PI < 3.141593.
Proof.
  pose proof (PI_2_3_7_ineq 3) as [_ H].
  unfold PI_2_3_7_tg, tg_alt, Ratan_seq in H; simpl in H; lra.
Qed.

Lemma cos_approx_2 a : cos_approx a 2 = 1 - a ^ 2 / 2 + a ^ 4 / 24.
Proof.
  unfold cos_approx, cos_term, sum_f_R0; simpl fact; simpl Nat.mul.
  rewrite !INR_IZR_INZ; simpl Z.of_nat; field.
Qed.

Lemma cos_approx_3 a :
  cos_approx a 3 = 1 - a ^ 2 / 2 + a ^ 4 / 24 - a ^ 6 / 720.
Proof.
  unfold cos_approx, cos_term, sum_f_R0; simpl fact; simpl Nat.mul.
  rewrite !INR_IZR_INZ; simpl Z.of_nat; field.
Qed.

Lemma sin_approx_2 a : sin_approx a 2 = a - a ^ 3 / 6 + a ^ 5 / 120.
Proof.
  unfold sin_approx, sin_term, sum_f_R0; simpl fact; simpl Nat.add.
  rewrite !INR_IZR_INZ; simpl Z.of_nat; field.
Qed.

Lemma sin_approx_3 a :
  sin_approx a 3 = a - a ^ 3 / 6 + a ^ 5 / 120 - a ^ 7 / 5040.
Proof.
  unfold sin_approx, sin_term, sum_f_R0; simpl fact; simpl Nat.add.
  rewrite !INR_IZR_INZ; simpl Z.of_nat; field.
Qed.

Lemma cos_enclosure (a b x : R) :
  0 <= a -> a <= x -> x <= b -> b <= 3 / 2 ->
  1 - b ^ 2 / 2 + b ^ 4 / 24 - b ^ 6 / 720 <= cos x <=
  1 - a ^ 2 / 2 + a ^ 4 / 24.
Proof.
  intros Ha Hax Hxb Hb.
  pose proof PI2_3_2; pose proof PI_RGT_0.
  assert (Hcb : cos b <= cos x) by (apply cos_decr_1; lra).
  assert (Hca : cos x <= cos a) by (apply cos_decr_1; lra).
  destruct (cos_bound b 1) as [Hl _]; [lra | lra |].
  destruct (cos_bound a 0) as [_ Hu]; [lra | lra |].
  change (2 * 1 + 1)%nat with 3%nat in Hl.
  change (2 * (0 + 1))%nat with 2%nat in Hu.
  rewrite cos_approx_3 in Hl; rewrite cos_approx_2 in Hu; lra.
Qed.

Lemma sin_enclosure (a b x : R) :
  0 <= a -> a <= x -> x <= b -> b <= 3 / 2 ->
  a - a ^ 3 / 6 + a ^ 5 / 120 - a ^ 7 / 5040 <= sin x <=
  b - b ^ 3 / 6 + b ^ 5 / 120.
Proof.
  intros Ha Hax Hxb Hb.
  pose proof PI2_3_2; pose proof PI_RGT_0.
  assert (Hsa : sin a <= sin x) by (apply sin_incr_1; lra).
  assert (Hsb : sin x <= sin b) by (apply sin_incr_1; lra).
  destruct (sin_bound a 1) as [Hl _]; [lra | lra |].
  destruct (sin_bound b 0) as [_ Hu]; [lra | lra |].
  change (2 * 1 + 1)%nat with 3%nat in Hl.
  change (2 * (0 + 1))%nat with 2%nat in Hu.
  rewrite sin_approx_3 in Hl; rewrite sin_approx_2 in Hu; lra.
Qed.

Lemma sqrt_enclosure (lo hi x : R) :
  0 <= lo -> 0 <= hi -> lo ^ 2 <= x -> x <= hi ^ 2 -> lo <= sqrt x <= hi.
Proof.
  intros Hlo Hhi Hl Hu; split.
  - rewrite <- (sqrt_pow2 lo Hlo); now apply sqrt_le_1_alt.
  - rewrite <- (sqrt_pow2 hi Hhi); now apply sqrt_le_1_alt.
Qed.

Lemma atan_le (x y : R) : x <= y -> atan x <= atan y.
Proof.
  intros [H | ->]; [left; now apply atan_increasing | right; reflexivity].
Qed.

Lemma cos_pos_open (t : R) : - PI / 2 < t < PI / 2 -> 0 < cos t.
Proof. intros [H1 H2]; apply cos_gt_0; lra. Qed.

(** [atan (n / s)] against an angle [t], by cross-multiplication. *)
Lemma atan_quot_le (n s t : R) :
  0 < s -> - PI / 2 < t < PI / 2 ->
  n * cos t <= s * sin t -> atan (n / s) <= t.
Proof.
  intros Hs Ht Hx.
  pose proof (cos_pos_open t Ht) as Hc.
  rewrite <- (atan_tan t) by lra.
  apply atan_le; unfold tan.
  apply (Rmult_le_reg_r (s * cos t)); [nra|].
  field_simplify; [lra | lra | lra].
Qed.

Lemma atan_quot_ge (n s t : R) :
  0 < s -> - PI / 2 < t < PI / 2 ->
  s * sin t <= n * cos t -> t <= atan (n / s).
Proof.
  intros Hs Ht Hx.
  pose proof (cos_pos_open t Ht) as Hc.
  rewrite <- (atan_tan t) at 1 by lra.
  apply atan_le; unfold tan.
  apply (Rmult_le_reg_r (s * cos t)); [nra|].
  field_simplify; [lra | lra | lra].
Qed.

(** ** The [math] functions *)

Lemma degrees_radians (x : R) : degrees (radians x) = x.
Proof. unfold degrees, radians; field; apply PI_neq0. Qed.

Lemma radians_degrees (x : R) : radians (degrees x) = x.
Proof. unfold degrees, radians; field; apply PI_neq0. Qed.

Lemma degrees_le (x y : R) : x <= y -> degrees x <= degrees y.
Proof.
  intro H; unfold degrees, Rdiv; pose proof PI_RGT_0 as Hpi.
  apply Rmult_le_compat_r; [left; now apply Rinv_0_lt_compat | lra].
Qed.

Lemma degrees_lt (x y : R) : x < y -> degrees x < degrees y.
Proof.
  intro H; unfold degrees, Rdiv; pose proof PI_RGT_0 as Hpi.
  apply Rmult_lt_compat_r; [now apply Rinv_0_lt_compat | lra].
Qed.

Lemma radians_le (x y : R) : x <= y -> radians x <= radians y.
Proof. intro H; unfold radians; pose proof PI_RGT_0; nra. Qed.

Lemma radians_opp (x : R) : radians (- x) = - radians x.
Proof. unfold radians; field. Qed.

Lemma degrees_opp (x : R) : degrees (- x) = - degrees x.
Proof. unfold degrees; field; apply PI_neq0. Qed.

Lemma atan2_right (y x : R) : 0 < x -> atan2 y x = atan (y / x).
Proof. intro H; unfold atan2; destruct (Rlt_dec 0 x); [reflexivity | lra]. Qed.

Lemma atan2_upper_left (y x : R) :
  x < 0 -> 0 <= y -> atan2 y x = atan (y / x) + PI.
Proof.
  intros Hx Hy; unfold atan2.
  destruct (Rlt_dec 0 x); [lra|].
  destruct (Rlt_dec x 0); [|lra].
  destruct (Rle_dec 0 y); [reflexivity | lra].
Qed.

(** Away from the negative real axis, mirroring the point in the x axis
    negates the angle. *)
Lemma atan2_mirror (y x : R) : y <> 0 -> atan2 (- y) x = - atan2 y x.
Proof.
  intro Hy; unfold atan2.
  replace (- y / x) with (- (y / x)) by (unfold Rdiv; ring).
  rewrite atan_opp.
  destruct (Rlt_dec 0 x); [reflexivity|].
  destruct (Rlt_dec x 0).
  - destruct (Rle_dec 0 y), (Rle_dec 0 (- y)); lra.
  - destruct (Rlt_dec 0 y), (Rlt_dec 0 (- y)), (Rlt_dec y 0),
      (Rlt_dec (- y) 0); lra.
Qed.

Lemma py_mod_small (x m : R) : 0 <= x -> x < m -> py_mod x m = x.
Proof.
  intros H0 Hm; unfold py_mod.
  rewrite (Zfloor_eq 0 (x / m)); [simpl; ring|].
  assert (0 < m) by lra; simpl; split.
  - apply Rmult_le_pos; [lra | left; now apply Rinv_0_lt_compat].
  - apply (Rmult_lt_reg_r m); [lra|]; unfold Rdiv.
    rewrite Rmult_assoc, Rinv_l; lra.
Qed.

(** The remainders of [x] and [- x] add up to a multiple of the modulus. *)
Lemma py_mod_reflect (x m : R) :
  exists k : Z, py_mod x m + py_mod (- x) m = m * IZR k.
Proof.
  exists (- Zfloor (x / m) - Zfloor (- x / m))%Z; unfold py_mod.
  rewrite minus_IZR, opp_IZR; ring.
Qed.

(** ** Visibility gate of [calculate_geo_angles] *)

Lemma calculate_geo_angles_at_unfold (lat0 lon0 min_el lon : R) :
  calculate_geo_angles_at lat0 lon0 min_el lon =
  if Rle_dec (cos_gamma_at lat0 lon0 lon) (R_EARTH / R_GEO) then None
  else if Rlt_dec (elevation_at lat0 lon0 lon) min_el then None
       else Some (elevation_at lat0 lon0 lon, azimuth_at lat0 lon0 lon).
Proof. reflexivity. Qed.

Lemma geo_visibility_angles_unfold (arc_min arc_max lon : R) :
  geo_visibility_angles arc_min arc_max lon =
  if Rle_dec arc_min lon then
    if Rle_dec lon arc_max then
      if Rlt_dec 0.1513 (vis_cos_gamma lon)
      then Some (vis_elevation_of lon, vis_azimuth_of lon)
      else None
    else None
  else None.
Proof. reflexivity. Qed.

(** ** The Dhaka observer *)

Lemma cos_Rabs (x : R) : cos (Rabs x) = cos x.
Proof. unfold Rabs; destruct (Rcase_abs x); [apply cos_neg | reflexivity]. Qed.

Lemma cos_enclosure_abs (a b x : R) :
  0 <= a -> a <= Rabs x -> Rabs x <= b -> b <= 3 / 2 ->
  1 - b ^ 2 / 2 + b ^ 4 / 24 - b ^ 6 / 720 <= cos x <=
  1 - a ^ 2 / 2 + a ^ 4 / 24.
Proof. intros; rewrite <- cos_Rabs; now apply cos_enclosure. Qed.

Lemma survey_lat_enclosure : 0.4155 <= radians DHAKA_LAT <= 0.4156.
Proof.
  unfold radians, DHAKA_LAT; pose proof PI_lower; pose proof PI_upper; lra.
Qed.

Lemma survey_cos_lat : 0.9148 <= cos (radians DHAKA_LAT) <= 0.9150.
Proof.
  destruct survey_lat_enclosure as [Ha Hb].
  pose proof (cos_enclosure 0.4155 0.4156 _ ltac:(lra) Ha Hb ltac:(lra)); lra.
Qed.

Lemma survey_sin_lat : 0.4036 <= sin (radians DHAKA_LAT) <= 0.4038.
Proof.
  destruct survey_lat_enclosure as [Ha Hb].
  pose proof (sin_enclosure 0.4155 0.4156 _ ltac:(lra) Ha Hb ltac:(lra)); lra.
Qed.

Lemma vis_lat_enclosure : 0.4155 <= vis_lat_rad <= 0.4156.
Proof. unfold vis_lat_rad, GROUND_STATION_latitude; lra. Qed.

Lemma vis_cos_lat : 0.9148 <= cos vis_lat_rad <= 0.9150.
Proof.
  destruct vis_lat_enclosure as [Ha Hb].
  pose proof (cos_enclosure 0.4155 0.4156 _ ltac:(lra) Ha Hb ltac:(lra)); lra.
Qed.

Lemma vis_sin_lat : 0.4036 <= sin vis_lat_rad <= 0.4038.
Proof.
  destruct vis_lat_enclosure as [Ha Hb].
  pose proof (sin_enclosure 0.4155 0.4156 _ ltac:(lra) Ha Hb ltac:(lra)); lra.
Qed.

(** Inside the default arc the longitude difference stays below 69.6
    degrees, and [cos gamma] stays well above both horizon thresholds. *)
Lemma arc_delta (lon : R) :
  40 <= lon <= 160 -> Rabs (lon - DHAKA_LON) <= 69.5875.
Proof. intros [H1 H2]; unfold DHAKA_LON; apply Rabs_le; lra. Qed.

Lemma radians_Rabs (x : R) : Rabs (radians x) = radians (Rabs x).
Proof.
  unfold radians, Rdiv; pose proof PI_RGT_0.
  rewrite !Rabs_mult, (Rabs_pos_eq PI), (Rabs_pos_eq (/ 180)); lra.
Qed.

Lemma survey_cos_gamma_in_arc (lon : R) :
  40 <= lon <= 160 ->
  0.3188 <= cos_gamma_at DHAKA_LAT DHAKA_LON lon <= 0.9150.
Proof.
  intro Harc; pose proof (arc_delta lon Harc) as Hd.
  pose proof PI_lower as Hpl; pose proof PI_upper as Hpu.
  assert (Hr : 0 <= Rabs (radians (lon - DHAKA_LON)) <= 1.2146).
  { rewrite radians_Rabs; unfold radians.
    pose proof (Rabs_pos (lon - DHAKA_LON)); split; nra. }
  destruct Hr as [Hr0 Hr1].
  pose proof (cos_enclosure_abs 0 1.2146 _ ltac:(lra) Hr0 Hr1 ltac:(lra)) as Hc.
  pose proof survey_cos_lat as Hl; unfold cos_gamma_at.
  pose proof (COS_bound (radians (lon - DHAKA_LON))); split; nra.
Qed.

Lemma vis_cos_gamma_in_arc (lon : R) :
  40 <= lon <= 160 -> 0.3188 <= vis_cos_gamma lon <= 0.9150.
Proof.
  intro Harc; pose proof (arc_delta lon Harc) as Hd.
  unfold DHAKA_LON in Hd; unfold vis_cos_gamma, vis_dlon_rad,
    GROUND_STATION_longitude.
  set (d := Rabs (lon - 90.4125)) in *.
  assert (Hd0 : 0 <= d) by apply Rabs_pos.
  pose proof (cos_enclosure 0 1.2146 (d * 3.14159 / 180)
                ltac:(lra) ltac:(lra) ltac:(lra) ltac:(lra)) as Hc.
  pose proof vis_cos_lat as Hl.
  pose proof (COS_bound (d * 3.14159 / 180)); split; nra.
Qed.

(** ** Elevation as a function of [cos gamma] *)

Lemma degrees_ge_of (d x : R) : radians d <= x -> d <= degrees x.
Proof. intro H; rewrite <- (degrees_radians d); now apply degrees_le. Qed.

Lemma degrees_le_of (d x : R) : x <= radians d -> degrees x <= d.
Proof. intro H; rewrite <- (degrees_radians d); now apply degrees_le. Qed.

Lemma sqrt_one_minus_sq (c : R) :
  0 <= c -> c < 1 -> 0 < sqrt (1 - c ^ 2) <= 1.
Proof.
  intros H0 H1; split.
  - apply sqrt_lt_R0; nra.
  - apply (sqrt_enclosure 0 1); nra.
Qed.

Lemma elevation_formula (lat0 lon0 lon : R) :
  0 <= cos_gamma_at lat0 lon0 lon -> cos_gamma_at lat0 lon0 lon < 1 ->
  elevation_at lat0 lon0 lon =
  degrees (atan ((cos_gamma_at lat0 lon0 lon - R_EARTH / R_GEO) /
                 sqrt (1 - cos_gamma_at lat0 lon0 lon ^ 2))).
Proof.
  intros H0 H1; unfold elevation_at; cbv zeta.
  rewrite atan2_right; [reflexivity|].
  now apply sqrt_one_minus_sq.
Qed.

(** The quotient under the arctangent grows with [cos gamma]. *)
Lemma elevation_quotient_increasing (r c1 c2 : R) :
  0 <= r -> r < c1 -> c1 < c2 -> c2 < 1 ->
  (c1 - r) / sqrt (1 - c1 ^ 2) < (c2 - r) / sqrt (1 - c2 ^ 2).
Proof.
  intros Hr H1 H12 H2.
  destruct (sqrt_one_minus_sq c1) as [Hs1 _]; [lra | lra |].
  destruct (sqrt_one_minus_sq c2) as [Hs2 _]; [lra | lra |].
  assert (Hle : sqrt (1 - c2 ^ 2) <= sqrt (1 - c1 ^ 2))
    by (apply sqrt_le_1_alt; nra).
  apply (Rmult_lt_reg_r (sqrt (1 - c1 ^ 2) * sqrt (1 - c2 ^ 2))); [nra|].
  replace ((c1 - r) / sqrt (1 - c1 ^ 2) *
           (sqrt (1 - c1 ^ 2) * sqrt (1 - c2 ^ 2)))
    with ((c1 - r) * sqrt (1 - c2 ^ 2)) by (field; lra).
  replace ((c2 - r) / sqrt (1 - c2 ^ 2) *
           (sqrt (1 - c1 ^ 2) * sqrt (1 - c2 ^ 2)))
    with ((c2 - r) * sqrt (1 - c1 ^ 2)) by (field; lra).
  nra.
Qed.

Lemma radians_5 : 0.0872 <= radians 5 <= 0.0873.
Proof. unfold radians; pose proof PI_lower; pose proof PI_upper; lra. Qed.

Lemma survey_elevation_in_arc (lon : R) :
  40 <= lon <= 160 -> 5 <= elevation_at DHAKA_LAT DHAKA_LON lon.
Proof.
  intro Harc; destruct (survey_cos_gamma_in_arc lon Harc) as [Hc0 Hc1].
  rewrite elevation_formula by lra.
  set (c := cos_gamma_at DHAKA_LAT DHAKA_LON lon) in *.
  destruct (sqrt_one_minus_sq c) as [Hs0 Hs1]; [lra | lra |].
  destruct radians_5 as [Ht0 Ht1]; pose proof PI2_1.
  apply degrees_ge_of, atan_quot_ge; [assumption | lra |].
  pose proof (sin_enclosure 0.0872 0.0873 _ ltac:(lra) Ht0 Ht1 ltac:(lra)).
  pose proof (cos_enclosure 0.0872 0.0873 _ ltac:(lra) Ht0 Ht1 ltac:(lra)).
  unfold R_EARTH, R_GEO; nra.
Qed.

Lemma survey_visible_in_arc (lon : R) :
  40 <= lon <= 160 ->
  calculate_geo_angles lon =
  Some (elevation_at DHAKA_LAT DHAKA_LON lon,
        azimuth_at DHAKA_LAT DHAKA_LON lon).
Proof.
  intro Harc; unfold calculate_geo_angles.
  rewrite calculate_geo_angles_at_unfold.
  destruct (survey_cos_gamma_in_arc lon Harc) as [Hc0 _].
  pose proof (survey_elevation_in_arc lon Harc) as He.
  destruct (Rle_dec _ _) as [H|_]; [unfold R_EARTH, R_GEO in H; lra|].
  destruct (Rlt_dec _ _) as [H|_]; [unfold MIN_ELEVATION in H; lra|].
  reflexivity.
Qed.

Lemma vis_visible_in_arc (lon : R) :
  40 <= lon <= 160 ->
  geo_visibility_angles 40 160 lon =
  Some (vis_elevation_of lon, vis_azimuth_of lon).
Proof.
  intros [H1 H2]; rewrite geo_visibility_angles_unfold.
  destruct (vis_cos_gamma_in_arc lon (conj H1 H2)) as [Hc0 _].
  destruct (Rle_dec 40 lon); [|lra].
  destruct (Rle_dec lon 160); [|lra].
  destruct (Rlt_dec _ _); [reflexivity | lra].
Qed.

(** ** The two elevation computations compared *)

Lemma cos_diff (p q : R) :
  cos p - cos q = 2 * sin ((q - p) / 2) * sin ((q + p) / 2).
Proof.
  rewrite form2.
  replace ((p - q) / 2) with (- ((q - p) / 2)) by field.
  replace ((p + q) / 2) with ((q + p) / 2) by field.
  rewrite sin_neg; ring.
Qed.

Lemma sin_le_x (x : R) : 0 <= x -> sin x <= x.
Proof.
  intros [H | <-]; [left; now apply sin_lt_x | rewrite sin_0; lra].
Qed.

(** The cosine is 1-Lipschitz. *)
Lemma cos_diff_le (p q : R) :
  0 <= p -> p <= q -> q <= 3 -> 0 <= cos p - cos q <= q - p.
Proof.
  intros H0 Hpq Hq; pose proof PI_lower as Hpi.
  rewrite cos_diff.
  assert (Hu : 0 <= sin ((q - p) / 2)) by (apply sin_ge_0; lra).
  assert (Hu' : sin ((q - p) / 2) <= (q - p) / 2) by (apply sin_le_x; lra).
  assert (Hw : 0 <= sin ((q + p) / 2)) by (apply sin_ge_0; lra).
  pose proof (SIN_bound ((q + p) / 2)) as [_ Hw'].
  split; nra.
Qed.

(** How the quotient under the arctangent moves with [cos gamma]. *)
Lemma quotient_gap (r cA cB : R) :
  0.151 <= r -> r < cA -> cA <= cB -> cB <= 0.915 ->
  cB - cA <=
  (cB - r) / sqrt (1 - cB ^ 2) - (cA - r) / sqrt (1 - cA ^ 2) <=
  15 * (cB - cA).
Proof.
  intros Hr HA HAB HB.
  assert (HsA : 0.4 <= sqrt (1 - cA ^ 2) <= 1) by (apply sqrt_enclosure; nra).
  assert (HsB : 0.4 <= sqrt (1 - cB ^ 2) <= 1) by (apply sqrt_enclosure; nra).
  assert (HqA : sqrt (1 - cA ^ 2) ^ 2 = 1 - cA ^ 2) by (apply pow2_sqrt; nra).
  assert (HqB : sqrt (1 - cB ^ 2) ^ 2 = 1 - cB ^ 2) by (apply pow2_sqrt; nra).
  set (sA := sqrt (1 - cA ^ 2)) in *; set (sB := sqrt (1 - cB ^ 2)) in *.
  assert (Hle : sB <= sA).
  { destruct (Rle_lt_dec sB sA) as [|Hgt]; [assumption|]; exfalso; nra. }
  assert (Hd : (sA - sB) * (sA + sB) = (cB - cA) * (cB + cA)) by nra.
  assert (Hd' : sA - sB <= 2.2875 * (cB - cA)).
  { assert (0 <= sA - sB) by lra.
    assert ((sA - sB) * 0.8 <= (sA - sB) * (sA + sB)) by nra.
    assert ((cB - cA) * (cB + cA) <= (cB - cA) * 1.83) by nra.
    lra. }
  replace ((cB - r) / sB - (cA - r) / sA)
    with (((cB - cA) * sA + (cA - r) * (sA - sB)) / (sA * sB))
    by (field; lra).
  assert (Hp : 0.16 <= sA * sB <= 1) by nra.
  set (N := (cB - cA) * sA + (cA - r) * (sA - sB)).
  assert (HD : 0 <= cB - cA) by lra.
  assert (HN1 : (cB - cA) * (sA * sB) <= N).
  { assert (0 <= (cA - r) * (sA - sB)) by (apply Rmult_le_pos; lra).
    assert (0 <= (cB - cA) * sA * (1 - sB))
      by (apply Rmult_le_pos; [apply Rmult_le_pos|]; lra).
    unfold N; lra. }
  assert (HN2 : N <= 15 * (cB - cA) * (sA * sB)).
  { assert (0 <= (cB - cA) * sA * (sB - 0.4))
      by (apply Rmult_le_pos; [apply Rmult_le_pos|]; lra).
    assert (0 <= (0.764 - (cA - r)) * (sA - sB))
      by (apply Rmult_le_pos; lra).
    assert (0 <= (cB - cA) * (sA * sB - 0.16))
      by (apply Rmult_le_pos; lra).
    unfold N; lra. }
  split; apply (Rmult_le_reg_r (sA * sB)); try lra;
    unfold Rdiv; rewrite Rmult_assoc, Rinv_l; lra.
Qed.

(** The quotient under the arctangent lies between 0 and 2. *)
Lemma elevation_quotient_range (r c : R) :
  0.151 <= r -> r < c -> c <= 0.915 ->
  0 < (c - r) / sqrt (1 - c ^ 2) <= 2.
Proof.
  intros Hr Hc Hu.
  assert (Hs : 0.4 <= sqrt (1 - c ^ 2) <= 1) by (apply sqrt_enclosure; nra).
  split.
  - apply Rdiv_lt_0_compat; lra.
  - apply (Rmult_le_reg_r (sqrt (1 - c ^ 2))); [lra|].
    unfold Rdiv; rewrite Rmult_assoc, Rinv_l; lra.
Qed.

Lemma sin_cos_atan (u : R) :
  sin (atan u) = u * cos (atan u) /\ 0 < cos (atan u).
Proof.
  pose proof (atan_bound u) as Hb.
  assert (Hc : 0 < cos (atan u)) by (apply cos_gt_0; lra).
  split; [|exact Hc].
  pose proof (tan_atan u) as Ht; unfold tan in Ht.
  rewrite <- Ht at 2; field; lra.
Qed.

(** Two arctangents are no farther apart than an angle [e] whose sine
    covers the distance of their arguments. *)
Lemma atan_gap_le (u v e : R) :
  0 <= u -> u <= v -> 0 <= e -> atan u + e < PI / 2 ->
  v - u <= sin e -> atan v <= atan u + e.
Proof.
  intros Hu Huv He Hlt Hs.
  pose proof (atan_bound u) as Hb.
  destruct (sin_cos_atan u) as [Hsa Hca].
  assert (Hau : 0 <= atan u).
  { rewrite <- atan_0; apply atan_le; lra. }
  pose proof (COS_bound e) as [_ Hce].
  assert (He0 : 0 <= sin e) by (apply sin_ge_0; pose proof PI_lower; lra).
  replace v with (v / 1) by field.
  apply atan_quot_le; [lra | lra |].
  rewrite sin_plus, cos_plus, Hsa.
  set (c := cos (atan u)) in *; set (ce := cos e) in *; set (se := sin e) in *.
  assert (Hce0 : 0 <= ce).
  { unfold ce; apply cos_ge_0; pose proof PI_lower; lra. }
  assert (Hk : (v - u) * ce <= (1 + u * v) * se).
  { assert ((v - u) * ce <= v - u) by nra.
    assert (0 <= u * v * se) by (apply Rmult_le_pos; nra).
    lra. }
  assert (Hm : c * ((v - u) * ce) <= c * ((1 + u * v) * se))
    by (apply Rmult_le_compat_l; lra).
  lra.
Qed.

(** And at least as far apart as an angle [e] that the distance of their
    arguments covers. *)
Lemma atan_gap_ge (u v e : R) :
  0 <= u -> u <= v -> 0 <= e -> atan u + e < PI / 2 ->
  sin e * (1 + u * v) <= (v - u) * cos e -> atan u + e <= atan v.
Proof.
  intros Hu Huv He Hlt Hs.
  pose proof (atan_bound u) as Hb.
  destruct (sin_cos_atan u) as [Hsa Hca].
  assert (Hau : 0 <= atan u).
  { rewrite <- atan_0; apply atan_le; lra. }
  replace v with (v / 1) by field.
  apply atan_quot_ge; [lra | lra |].
  rewrite sin_plus, cos_plus, Hsa.
  set (c := cos (atan u)) in *; set (ce := cos e) in *; set (se := sin e) in *.
  assert (Hm : c * (se * (1 + u * v)) <= c * ((v - u) * ce))
    by (apply Rmult_le_compat_l; lra).
  lra.
Qed.

Lemma atan_2 : atan 2 <= 1.2.
Proof.
  pose proof PI_lower.
  pose proof (cos_enclosure 1.2 1.2 1.2 ltac:(lra) ltac:(lra) ltac:(lra)
                ltac:(lra)).
  pose proof (sin_enclosure 1.2 1.2 1.2 ltac:(lra) ltac:(lra) ltac:(lra)
                ltac:(lra)).
  replace 2 with (2 / 1) by field.
  apply atan_quot_le; lra.
Qed.

Lemma degrees_plus (x y : R) : degrees (x + y) = degrees x + degrees y.
Proof. unfold degrees; field; apply PI_neq0. Qed.

Lemma vis_cos_gamma_le (lon : R) : vis_cos_gamma lon <= 0.915.
Proof.
  unfold vis_cos_gamma; pose proof vis_cos_lat.
  pose proof (COS_bound (vis_dlon_rad lon)); nra.
Qed.

Lemma dhaka_cos_gamma_le (lon : R) :
  cos_gamma_at DHAKA_LAT DHAKA_LON lon <= 0.915.
Proof.
  unfold cos_gamma_at; pose proof survey_cos_lat.
  pose proof (COS_bound (radians (lon - DHAKA_LON))); nra.
Qed.

(** With the same observer and within 90 degrees of its meridian, the
    predictor's [cos gamma] is the larger one: its angles are scaled by
    3.14159 / 180, slightly less than pi / 180. *)
Lemma vis_cos_gamma_exceeds (lon : R) :
  Rabs (lon - DHAKA_LON) < 90 ->
  0 < cos_gamma_at DHAKA_LAT DHAKA_LON lon < vis_cos_gamma lon /\
  vis_cos_gamma lon < 1.
Proof.
  intro Hd; pose proof PI_lower as Hpl; pose proof PI_upper as Hpu.
  pose proof (Rabs_pos (lon - DHAKA_LON)) as Hd0.
  destruct survey_lat_enclosure as [Hla Hlb].
  destruct vis_lat_enclosure as [Hva Hvb].
  assert (Hlat : cos (radians DHAKA_LAT) < cos vis_lat_rad).
  { apply cos_decreasing_1; try lra.
    unfold radians, vis_lat_rad, DHAKA_LAT, GROUND_STATION_latitude; lra. }
  pose proof survey_cos_lat as Hcl; pose proof vis_cos_lat as Hcv.
  assert (Hlat1 : cos vis_lat_rad < 1).
  { rewrite <- cos_0; apply cos_decreasing_1; lra. }
  assert (Hda : cos (radians (lon - DHAKA_LON)) =
                cos (radians (Rabs (lon - DHAKA_LON)))).
  { now rewrite <- radians_Rabs, cos_Rabs. }
  assert (Hrad : 0 <= radians (Rabs (lon - DHAKA_LON)) < PI / 2).
  { unfold radians; split; nra. }
  assert (Hdl : vis_dlon_rad lon <= radians (Rabs (lon - DHAKA_LON))).
  { unfold vis_dlon_rad, radians, GROUND_STATION_longitude, DHAKA_LON in *.
    nra. }
  assert (Hdl0 : 0 <= vis_dlon_rad lon).
  { unfold vis_dlon_rad, GROUND_STATION_longitude, DHAKA_LON in *; nra. }
  assert (Hcd : cos (radians (Rabs (lon - DHAKA_LON))) <=
                cos (vis_dlon_rad lon)) by (apply cos_decr_1; lra).
  assert (Hpos : 0 < cos (radians (Rabs (lon - DHAKA_LON))))
    by (apply cos_gt_0; lra).
  pose proof (COS_bound (vis_dlon_rad lon)) as [_ Hle1].
  unfold cos_gamma_at, vis_cos_gamma; rewrite Hda.
  repeat split; nra.
Qed.

Lemma predictor_elevation_exceeds (lon : R) :
  Rabs (lon - DHAKA_LON) < 90 ->
  R_EARTH / R_GEO < cos_gamma_at DHAKA_LAT DHAKA_LON lon ->
  elevation_at DHAKA_LAT DHAKA_LON lon < vis_elevation_of lon.
Proof.
  intros Hd Hvis; destruct (vis_cos_gamma_exceeds lon Hd) as [[Hc0 Hlt] Hc1].
  rewrite elevation_formula by lra.
  unfold vis_elevation_of; cbv zeta.
  apply degrees_lt, atan_increasing.
  change (6371 / 42164) with (R_EARTH / R_GEO).
  apply elevation_quotient_increasing; try lra.
  unfold R_EARTH, R_GEO; lra.
Qed.

(** How far the cosines of the two latitudes are apart. *)
Lemma cos_lat_gap :
  0.0000001 <= cos vis_lat_rad - cos (radians DHAKA_LAT) <= 0.0000004.
Proof.
  pose proof PI_lower6 as Hl; pose proof PI_upper6 as Hu.
  assert (Hd : 0.00000026 <= radians DHAKA_LAT - vis_lat_rad <= 0.0000004).
  { unfold radians, vis_lat_rad, DHAKA_LAT, GROUND_STATION_latitude; lra. }
  destruct vis_lat_enclosure as [Hva Hvb].
  destruct survey_lat_enclosure as [Hsa Hsb].
  split.
  - rewrite cos_diff.
    pose proof (sin_enclosure 0.00000013 0.0000002
                  ((radians DHAKA_LAT - vis_lat_rad) / 2)
                  ltac:(lra) ltac:(lra) ltac:(lra) ltac:(lra)) as [Hs _].
    pose proof (sin_enclosure 0.4155 0.4156
                  ((radians DHAKA_LAT + vis_lat_rad) / 2)
                  ltac:(lra) ltac:(lra) ltac:(lra) ltac:(lra)) as [Hw _].
    set (su := sin ((radians DHAKA_LAT - vis_lat_rad) / 2)) in *.
    set (sw := sin ((radians DHAKA_LAT + vis_lat_rad) / 2)) in *.
    assert (H1 : 0.000000129 <= su) by lra.
    assert (H2 : 0.4036 <= sw) by lra.
    assert (0 <= (su - 0.000000129) * (sw - 0.4036))
      by (apply Rmult_le_pos; lra).
    lra.
  - pose proof (cos_diff_le vis_lat_rad (radians DHAKA_LAT)
                  ltac:(lra) ltac:(lra) ltac:(lra)); lra.
Qed.

(** How far the two values of [cos gamma] are apart. *)
Lemma cos_gamma_gap (lon : R) :
  Rabs (lon - DHAKA_LON) < 90 ->
  R_EARTH / R_GEO < cos_gamma_at DHAKA_LAT DHAKA_LON lon ->
  0.000000015 <= vis_cos_gamma lon - cos_gamma_at DHAKA_LAT DHAKA_LON lon
    <= 0.0000018.
Proof.
  intros Hd Hvis.
  pose proof PI_lower6 as Hl; pose proof PI_upper6 as Hu.
  pose proof (Rabs_pos (lon - DHAKA_LON)) as Hd0.
  pose proof cos_lat_gap as Hlat.
  pose proof vis_cos_lat as Hcv; pose proof survey_cos_lat as Hcs.
  assert (Hx : cos (radians (lon - DHAKA_LON)) =
               cos (radians (Rabs (lon - DHAKA_LON)))).
  { now rewrite <- radians_Rabs, cos_Rabs. }
  unfold cos_gamma_at in *; rewrite Hx in *.
  unfold vis_cos_gamma, vis_dlon_rad.
  change GROUND_STATION_longitude with DHAKA_LON.
  set (d := Rabs (lon - DHAKA_LON)) in *.
  assert (Hgap : 0 <= cos (d * 3.14159 / 180) - cos (radians d) <= 0.0000015).
  { assert (Hdx : 0 <= radians d - d * 3.14159 / 180 <= 0.0000015)
      by (unfold radians; split; nra).
    assert (Hr : radians d <= 3) by (unfold radians; nra).
    assert (H0 : 0 <= d * 3.14159 / 180) by lra.
    pose proof (cos_diff_le (d * 3.14159 / 180) (radians d)
                  H0 ltac:(lra) Hr); lra. }
  set (ca := cos (radians DHAKA_LAT)) in *.
  set (ca' := cos vis_lat_rad) in *.
  set (cx := cos (radians d)) in *.
  set (cx' := cos (d * 3.14159 / 180)) in *.
  assert (Hr : 0.151 <= R_EARTH / R_GEO) by (unfold R_EARTH, R_GEO; lra).
  assert (Hcx : 0.151 <= cx <= 1).
  { pose proof (COS_bound (radians d)) as [_ H1]; fold cx in H1.
    split; [|exact H1].
    destruct (Rle_lt_dec 0.151 cx) as [|Hlt]; [assumption|]; exfalso.
    destruct (Rle_lt_dec 0 cx).
    - assert (ca * cx <= 1 * 0.151) by (apply Rmult_le_compat; lra); lra.
    - assert (0 <= ca * - cx) by (apply Rmult_le_pos; lra); lra. }
  replace (ca' * cx' - ca * cx)
    with (ca' * (cx' - cx) + cx * (ca' - ca)) by ring.
  split.
  - assert (0 <= ca' * (cx' - cx)) by (apply Rmult_le_pos; lra).
    assert (0.151 * 0.0000001 <= cx * (ca' - ca))
      by (apply Rmult_le_compat; lra).
    lra.
  - assert (ca' * (cx' - cx) <= 0.915 * 0.0000015)
      by (apply Rmult_le_compat; lra).
    assert (cx * (ca' - ca) <= 1 * 0.0000004)
      by (apply Rmult_le_compat; lra).
    lra.
Qed.

(** How far the two elevations are apart, in degrees. *)
Lemma predictor_elevation_gap (lon : R) :
  Rabs (lon - DHAKA_LON) < 90 ->
  R_EARTH / R_GEO < cos_gamma_at DHAKA_LAT DHAKA_LON lon ->
  0.0000001 <= vis_elevation_of lon - elevation_at DHAKA_LAT DHAKA_LON lon
    <= 0.002.
Proof.
  intros Hd Hvis.
  pose proof PI_lower6 as Hl; pose proof PI_upper6 as Hu.
  destruct (cos_gamma_gap lon Hd Hvis) as [Hg0 Hg1].
  pose proof (vis_cos_gamma_le lon) as HcB.
  assert (Hr : 0.151 <= R_EARTH / R_GEO) by (unfold R_EARTH, R_GEO; lra).
  rewrite elevation_formula by lra.
  unfold vis_elevation_of; cbv zeta.
  change (6371 / 42164) with (R_EARTH / R_GEO).
  set (r := R_EARTH / R_GEO) in *.
  set (cA := cos_gamma_at DHAKA_LAT DHAKA_LON lon) in *.
  set (cB := vis_cos_gamma lon) in *.
  destruct (quotient_gap r cA cB Hr Hvis ltac:(lra) HcB) as [Hq0 Hq1].
  destruct (elevation_quotient_range r cA Hr Hvis ltac:(lra)) as [HA0 HA2].
  destruct (elevation_quotient_range r cB Hr ltac:(lra) HcB) as [HB0 HB2].
  set (u := (cA - r) / sqrt (1 - cA ^ 2)) in *.
  set (v := (cB - r) / sqrt (1 - cB ^ 2)) in *.
  assert (Hau : atan u <= 1.2).
  { apply Rle_trans with (atan 2); [apply atan_le; lra | apply atan_2]. }
  assert (Hlo : atan u + radians 0.0000001 <= atan v).
  { assert (He : 0 <= radians 0.0000001 <= 0.000000002)
      by (unfold radians; lra).
    destruct He as [He0 He1].
    apply atan_gap_ge; try lra.
    pose proof (sin_le_x _ He0) as Hs.
    assert (Hs0 : 0 <= sin (radians 0.0000001))
      by (apply sin_ge_0; lra).
    pose proof (cos_enclosure 0 0.000000002 _ ltac:(lra) He0 He1 ltac:(lra))
      as [Hc _].
    set (se := sin (radians 0.0000001)) in *.
    set (ce := cos (radians 0.0000001)) in *.
    assert (H1 : u * v <= 2 * 2) by (apply Rmult_le_compat; lra).
    assert (H2 : se * (1 + u * v) <= 0.000000002 * 5)
      by (apply Rmult_le_compat; nra).
    assert (H3 : 0.000000015 * 0.99 <= (v - u) * ce)
      by (apply Rmult_le_compat; lra).
    lra. }
  assert (Hhi : atan v <= atan u + radians 0.002).
  { assert (He : 0.0000349 <= radians 0.002 <= 0.00004)
      by (unfold radians; lra).
    destruct He as [He0 He1].
    apply atan_gap_le; try lra.
    pose proof (sin_enclosure 0.0000349 0.00004 _ ltac:(lra) He0 He1
                  ltac:(lra)) as [Hs _].
    lra. }
  apply degrees_le in Hlo, Hhi.
  rewrite degrees_plus, degrees_radians in Hlo, Hhi; lra.
Qed.

(** ** Bangabandhu-1 at 119.1 degrees East, seen from Dhaka *)

(** Encloses [radians d] between two decimals, from the bounds on pi. *)
Ltac radians_enclosure :=
  unfold radians, DHAKA_LON;
  pose proof PI_lower; pose proof PI_upper; lra.

Lemma bb_dlon : 0.5006 <= radians (119.1 - DHAKA_LON) <= 0.5007.
Proof. radians_enclosure. Qed.

Lemma bb_cos_dlon : 0.8772 <= cos (radians (119.1 - DHAKA_LON)) <= 0.8774.
Proof.
  destruct bb_dlon as [Ha Hb].
  pose proof (cos_enclosure 0.5006 0.5007 _ ltac:(lra) Ha Hb ltac:(lra)); lra.
Qed.

Lemma bb_sin_dlon : 0.4799 <= sin (radians (119.1 - DHAKA_LON)) <= 0.4801.
Proof.
  destruct bb_dlon as [Ha Hb].
  pose proof (sin_enclosure 0.5006 0.5007 _ ltac:(lra) Ha Hb ltac:(lra)); lra.
Qed.

Lemma bb_cos_gamma :
  0.8024 <= cos_gamma_at DHAKA_LAT DHAKA_LON 119.1 <= 0.8029.
Proof.
  unfold cos_gamma_at; pose proof survey_cos_lat; pose proof bb_cos_dlon.
  split; nra.
Qed.

Lemma bb_sqrt :
  0.596 <= sqrt (1 - cos_gamma_at DHAKA_LAT DHAKA_LON 119.1 ^ 2) <= 0.597.
Proof. pose proof bb_cos_gamma; apply sqrt_enclosure; nra. Qed.

Lemma radians_47 : 0.8203 <= radians 47 <= 0.8204.
Proof. radians_enclosure. Qed.

Lemma radians_48 : 0.8377 <= radians 48 <= 0.8378.
Proof. radians_enclosure. Qed.

Lemma radians_53 : 0.9250 <= radians 53 <= 0.9251.
Proof. radians_enclosure. Qed.

Lemma radians_54 : 0.9424 <= radians 54 <= 0.9425.
Proof. radians_enclosure. Qed.

Lemma bb_elevation : 47 <= elevation_at DHAKA_LAT DHAKA_LON 119.1 <= 48.
Proof.
  pose proof bb_cos_gamma as Hc; pose proof bb_sqrt as Hs; pose proof PI2_3_2.
  rewrite elevation_formula by lra.
  set (c := cos_gamma_at DHAKA_LAT DHAKA_LON 119.1) in *.
  set (s := sqrt (1 - c ^ 2)) in *.
  assert (Hr : 0.1511 <= R_EARTH / R_GEO <= 0.15111)
    by (unfold R_EARTH, R_GEO; lra).
  split.
  - destruct radians_47 as [Ha Hb].
    pose proof (sin_enclosure 0.8203 0.8204 _ ltac:(lra) Ha Hb ltac:(lra)).
    pose proof (cos_enclosure 0.8203 0.8204 _ ltac:(lra) Ha Hb ltac:(lra)).
    apply degrees_ge_of, atan_quot_ge; [lra | lra | nra].
  - destruct radians_48 as [Ha Hb].
    pose proof (sin_enclosure 0.8377 0.8378 _ ltac:(lra) Ha Hb ltac:(lra)).
    pose proof (cos_enclosure 0.8377 0.8378 _ ltac:(lra) Ha Hb ltac:(lra)).
    apply degrees_le_of, atan_quot_le; [lra | lra | nra].
Qed.

Lemma bb_azimuth : 126 <= azimuth_at DHAKA_LAT DHAKA_LON 119.1 <= 127.
Proof.
  pose proof bb_sin_dlon as Hy; pose proof bb_cos_dlon as Hcd.
  pose proof survey_sin_lat as Hsl; pose proof PI2_3_2.
  pose proof PI_lower; pose proof PI_upper.
  unfold azimuth_at; cbv zeta.
  set (y := sin (radians (119.1 - DHAKA_LON))) in *.
  set (x := - cos (radians (119.1 - DHAKA_LON)) * sin (radians DHAKA_LAT)).
  assert (Hx : -0.3544 <= x <= -0.3540) by (unfold x; split; nra).
  rewrite atan2_upper_left by lra.
  replace (y / x) with (- (y / - x)) by (field; lra).
  rewrite atan_opp.
  assert (Hlo : radians 53 <= atan (y / - x)).
  { destruct radians_53 as [Ha Hb].
    pose proof (sin_enclosure 0.9250 0.9251 _ ltac:(lra) Ha Hb ltac:(lra)).
    pose proof (cos_enclosure 0.9250 0.9251 _ ltac:(lra) Ha Hb ltac:(lra)).
    apply atan_quot_ge; [lra | lra | nra]. }
  assert (Hhi : atan (y / - x) <= radians 54).
  { destruct radians_54 as [Ha Hb].
    pose proof (sin_enclosure 0.9424 0.9425 _ ltac:(lra) Ha Hb ltac:(lra)).
    pose proof (cos_enclosure 0.9424 0.9425 _ ltac:(lra) Ha Hb ltac:(lra)).
    apply atan_quot_le; [lra | lra | nra]. }
  assert (Hdeg : 126 <= degrees (- atan (y / - x) + PI) <= 127).
  { split.
    - apply degrees_ge_of; unfold radians in *; lra.
    - apply degrees_le_of; unfold radians in *; lra. }
  rewrite py_mod_small; lra.
Qed.

(** The slant range for any elevation between 47 and 48 degrees. *)
Lemma slant_range_47_48 (el : R) :
  47 <= el <= 48 -> 37200 <= calculate_slant_range el <= 37300.
Proof.
  intros [H1 H2]; unfold calculate_slant_range; cbv zeta.
  destruct radians_47 as [Ha _]; destruct radians_48 as [_ Hb].
  pose proof (radians_le _ _ H1); pose proof (radians_le _ _ H2).
  pose proof (sin_enclosure 0.8203 0.8378 (radians el)
                ltac:(lra) ltac:(lra) ltac:(lra) ltac:(lra)) as Hs.
  set (sn := sin (radians el)) in *.
  assert (HK : 42.7994 <= (R_GEO / R_EARTH) ^ 2 - 1 <= 42.7995)
    by (unfold R_GEO, R_EARTH; lra).
  assert (Hq : 6.5828 <= sqrt (sn ^ 2 + (R_GEO / R_EARTH) ^ 2 - 1) <= 6.5843)
    by (apply sqrt_enclosure; nra).
  set (rt := sqrt (sn ^ 2 + (R_GEO / R_EARTH) ^ 2 - 1)) in *.
  unfold R_EARTH; lra.
Qed.

Lemma bb_angles :
  calculate_geo_angles 119.1 =
  Some (elevation_at DHAKA_LAT DHAKA_LON 119.1,
        azimuth_at DHAKA_LAT DHAKA_LON 119.1).
Proof. apply survey_visible_in_arc; lra. Qed.

(** C4, refuted as stated: the azimuth towards 119.1 degrees East is above
    126 degrees, outside the expected 90 to 110, and the elevation stays
    below 48 degrees. *)
Lemma bangabandhu_outside_expected_ranges :
  exists el az : R,
    calculate_geo_angles 119.1 = Some (el, az) /\
    ~ (48 <= el <= 50 /\ 90 <= az <= 110 /\
       36500 <= calculate_slant_range el <= 37500).
Proof.
  eexists; eexists; split; [apply bb_angles|].
  pose proof bb_azimuth; lra.
Qed.

(** C4 (as amended).  For the observer at (23.8103 N, 90.4125 E) and the
    target at 119.1 E the elevation lies between 47 and 48 degrees, the
    azimuth between 126 and 127 degrees, and the slant range between
    36500 and 37500 km. *)
Theorem bangabandhu_geometry :
  exists el az : R,
    calculate_geo_angles 119.1 = Some (el, az) /\
    47 <= el <= 48 /\
    126 <= az <= 127 /\
    36500 <= calculate_slant_range el <= 37500.
Proof.
  eexists; eexists; split; [apply bb_angles|].
  pose proof bb_elevation as He.
  pose proof (slant_range_47_48 _ He).
  split; [exact He|]; split; [exact bb_azimuth | lra].
Qed.

(** C10, refuted as stated: at 119.1 degrees East both computations give a
    result and the two elevations differ. *)
Lemma elevations_differ_at_bangabandhu :
  exists ea aa eb ab : R,
    calculate_geo_angles 119.1 = Some (ea, aa) /\
    geo_visibility_angles 40 160 119.1 = Some (eb, ab) /\
    ea <> eb.
Proof.
  do 4 eexists; split; [apply bb_angles|].
  split; [apply vis_visible_in_arc; lra|].
  apply Rlt_not_eq, predictor_elevation_exceeds.
  - unfold DHAKA_LON; apply Rabs_def1; lra.
  - pose proof bb_cos_gamma; unfold R_EARTH, R_GEO; lra.
Qed.

(** C10 (as amended).  For every target longitude within 90 degrees of the
    observer's for which both computations give a result, the two
    elevations agree to within 0.002 degrees and are not equal: the one of
    [calculate_geo_visibility], which converts degrees with
    3.14159 / 180, is the greater, by at least 0.0000001 degrees. *)
Theorem predictor_elevation_is_slightly_larger
    (arc_min arc_max lon ea aa eb ab : R) :
  Rabs (lon - DHAKA_LON) < 90 ->
  calculate_geo_angles lon = Some (ea, aa) ->
  geo_visibility_angles arc_min arc_max lon = Some (eb, ab) ->
  0.0000001 <= eb - ea <= 0.002.
Proof.
  intros Hd Ha Hb.
  unfold calculate_geo_angles in Ha.
  rewrite calculate_geo_angles_at_unfold in Ha.
  destruct (Rle_dec _ _) as [|Hc]; [discriminate|].
  destruct (Rlt_dec _ _); [discriminate|].
  rewrite geo_visibility_angles_unfold in Hb.
  destruct (Rle_dec arc_min lon); [|discriminate].
  destruct (Rle_dec lon arc_max); [|discriminate].
  destruct (Rlt_dec _ _); [|discriminate].
  injection Ha as <- _; injection Hb as <- _.
  apply predictor_elevation_gap; [assumption | lra].
Qed.

Lemma predictor_elevation_is_slightly_larger_witness :
  0.0000001 <=
    vis_elevation_of 119.1 - elevation_at DHAKA_LAT DHAKA_LON 119.1
    <= 0.002.
Proof.
  apply (predictor_elevation_is_slightly_larger 40 160 119.1
           (elevation_at DHAKA_LAT DHAKA_LON 119.1)
           (azimuth_at DHAKA_LAT DHAKA_LON 119.1)
           (vis_elevation_of 119.1) (vis_azimuth_of 119.1)).
  - unfold DHAKA_LON; apply Rabs_def1; lra.
  - apply bb_angles.
  - apply vis_visible_in_arc; lra.
Defined.

(** ** The visibility test on the predictor's table *)

Lemma targets_off_meridian :
  Forall (fun t : string * R * string =>
            53 <= snd (fst t) <= 154 /\
            snd (fst t) <> GROUND_STATION_longitude) GEO_TARGETS.
Proof.
  unfold GEO_TARGETS, GROUND_STATION_longitude.
  repeat constructor; cbn; lra.
Qed.






(** ** Mirrored longitudes *)

(** Over the reals [calculate_geo_angles] treats two longitudes placed
    symmetrically about the observer's alike: both are rejected, or both
    are reported with the same elevation and with azimuths that add up to
    a multiple of 360.  (On floats the two sides agree up to rounding.) *)
Lemma survey_angles_mirror (lat0 lon0 min_el d : R) :
  (calculate_geo_angles_at lat0 lon0 min_el (lon0 + d) = None /\
   calculate_geo_angles_at lat0 lon0 min_el (lon0 - d) = None) \/
  (exists el a1 a2 : R,
      calculate_geo_angles_at lat0 lon0 min_el (lon0 + d) = Some (el, a1) /\
      calculate_geo_angles_at lat0 lon0 min_el (lon0 - d) = Some (el, a2) /\
      exists k : Z, a1 + a2 = 360 * IZR k).
Proof.
  assert (Hc : cos_gamma_at lat0 lon0 (lon0 - d) =
               cos_gamma_at lat0 lon0 (lon0 + d)).
  { unfold cos_gamma_at.
    replace (lon0 - d - lon0) with (- d) by ring.
    replace (lon0 + d - lon0) with d by ring.
    now rewrite radians_opp, cos_neg. }
  assert (He : elevation_at lat0 lon0 (lon0 - d) =
               elevation_at lat0 lon0 (lon0 + d)).
  { unfold elevation_at; cbv zeta; now rewrite Hc. }
  rewrite !calculate_geo_angles_at_unfold, He, Hc.
  destruct (Rle_dec _ _); [left; auto|].
  destruct (Rlt_dec _ _); [left; auto|].
  right; do 3 eexists; split; [reflexivity|]; split; [reflexivity|].
  unfold azimuth_at; cbv zeta.
  replace (lon0 - d - lon0) with (- d) by ring.
  replace (lon0 + d - lon0) with d by ring.
  rewrite radians_opp, sin_neg, cos_neg.
  set (x := - cos (radians d) * sin (radians lat0)).
  destruct (Req_dec (sin (radians d)) 0) as [Hy|Hy].
  - rewrite Hy, Ropp_0.
    set (a := degrees (atan2 0 x)).
    assert (Hcases : a = 0 \/ a = 180).
    { unfold a, atan2.
      destruct (Rlt_dec 0 x).
      { left; unfold Rdiv; rewrite Rmult_0_l, atan_0; unfold degrees; lra. }
      destruct (Rlt_dec x 0).
      { destruct (Rle_dec 0 0); [|lra].
        right; unfold Rdiv at 1; rewrite Rmult_0_l, atan_0.
        unfold degrees; field; apply PI_neq0. }
      destruct (Rlt_dec 0 0); [lra|].
      left; unfold degrees; lra. }
    destruct Hcases as [-> | ->].
    + exists 0%Z; rewrite py_mod_small; lra.
    + exists 1%Z; rewrite py_mod_small; lra.
  - rewrite (atan2_mirror _ _ Hy), degrees_opp.
    destruct (py_mod_reflect (degrees (atan2 (sin (radians d)) x)) 360)
      as [k Hk].
    exists k; lra.
Qed.

(** [calculate_geo_visibility] takes the absolute longitude difference, so
    it cannot tell the two sides of the meridian apart. *)
Lemma vis_dlon_mirror (d : R) :
  vis_dlon_rad (GROUND_STATION_longitude - d) =
  vis_dlon_rad (GROUND_STATION_longitude + d).
Proof.
  unfold vis_dlon_rad.
  replace (GROUND_STATION_longitude - d - GROUND_STATION_longitude)
    with (- d) by ring.
  replace (GROUND_STATION_longitude + d - GROUND_STATION_longitude)
    with d by ring.
  now rewrite Rabs_Ropp.
Qed.

Lemma vis_angles_mirror (d : R) :
  vis_elevation_of (GROUND_STATION_longitude - d) =
  vis_elevation_of (GROUND_STATION_longitude + d) /\
  vis_azimuth_of (GROUND_STATION_longitude - d) =
  vis_azimuth_of (GROUND_STATION_longitude + d).
Proof.
  unfold vis_elevation_of, vis_azimuth_of, vis_cos_gamma; cbv zeta.
  now rewrite vis_dlon_mirror.
Qed.

(** Whatever the side, its azimuth points into the eastern half. *)
Lemma vis_azimuth_eastern (lon : R) :
  0 < vis_dlon_rad lon < PI / 2 -> 90 < vis_azimuth_of lon < 180.
Proof.
  intros [H0 H1]; pose proof PI_RGT_0 as Hpi.
  destruct vis_lat_enclosure as [Hla Hlb]; pose proof PI2_1.
  assert (Hy : 0 < sin (vis_dlon_rad lon)) by (apply sin_gt_0; lra).
  assert (Hc : 0 < cos (vis_dlon_rad lon)) by (apply cos_gt_0; lra).
  assert (Hs : 0 < sin vis_lat_rad) by (apply sin_gt_0; lra).
  unfold vis_azimuth_of.
  set (y := sin (vis_dlon_rad lon)) in *.
  set (x := - cos (vis_dlon_rad lon) * sin vis_lat_rad).
  assert (Hx : x < 0) by (unfold x; nra).
  rewrite atan2_upper_left by lra.
  assert (Hq : y / x < 0).
  { unfold Rdiv; apply Ropp_lt_cancel; rewrite Ropp_0.
    replace (- (y * / x)) with (y * / - x) by (field; lra).
    apply Rmult_lt_0_compat; [lra | apply Rinv_0_lt_compat; lra]. }
  pose proof (atan_bound (y / x)) as [Hb0 _].
  pose proof (atan_increasing _ _ Hq) as Hb1; rewrite atan_0 in Hb1.
  assert (Hdeg : 90 < degrees (atan (y / x) + PI) < 180).
  { split.
    - rewrite <- (degrees_radians 90); apply degrees_lt; unfold radians; lra.
    - rewrite <- (degrees_radians 180); apply degrees_lt; unfold radians; lra. }
  rewrite py_mod_small; lra.
Qed.

(** C7, at the failing input.  GSAT-30 at 83 degrees East lies west of the
    Dhaka meridian and 97.825 degrees East lies as far east of it.  For
    both, [calculate_geo_visibility] reports the same elevation and the
    very same azimuth, between 90 and 180 degrees: the two azimuths are
    not reflections of each other, and their sum is no multiple of 360. *)
Theorem predictor_azimuth_not_mirrored :
  exists el az : R,
    geo_visibility_angles 40 160 83 = Some (el, az) /\
    geo_visibility_angles 40 160 97.825 = Some (el, az) /\
    90 < az < 180 /\
    forall k : Z, az + az <> 360 * IZR k.
Proof.
  exists (vis_elevation_of 97.825), (vis_azimuth_of 97.825).
  assert (Hw : 83 = GROUND_STATION_longitude - 7.4125)
    by (unfold GROUND_STATION_longitude; lra).
  assert (He : 97.825 = GROUND_STATION_longitude + 7.4125)
    by (unfold GROUND_STATION_longitude; lra).
  destruct (vis_angles_mirror 7.4125) as [Hel Haz].
  rewrite <- Hw, <- He in Hel, Haz.
  assert (Hrange : 90 < vis_azimuth_of 97.825 < 180).
  { apply vis_azimuth_eastern; unfold vis_dlon_rad, GROUND_STATION_longitude.
    rewrite Rabs_pos_eq by lra; pose proof PI2_1; lra. }
  split; [|split; [|split]].
  - rewrite vis_visible_in_arc by lra; now rewrite Hel, Haz.
  - apply vis_visible_in_arc; lra.
  - exact Hrange.
  - intros k Hk.
    assert (Hk' : 0 < IZR k < 1) by lra.
    destruct Hk' as [Hk0 Hk1].
    apply lt_IZR in Hk0; apply lt_IZR in Hk1; lia.
Qed.

(** ** Priority score and tier *)

Lemma py_min_Rmin (a b : R) : py_min a b = Rmin a b.
Proof.
  unfold py_min, Rmin.
  destruct (Rlt_dec b a), (Rle_dec a b); lra.
Qed.

Section SurveyFacts.

Variable round : R -> Z -> R.

Lemma priority_score_spec (el : R) (bands coverage : string) :
  priority_score_of el bands coverage = spec_score el bands coverage.
Proof.
  unfold priority_score_of, spec_score; cbv zeta; rewrite py_min_Rmin.
  destruct (str_in "Ku" bands),
    (str_in "Bangladesh" coverage || str_in "South Asia" coverage)%bool,
    (str_in "India" coverage); ring.
Qed.

Lemma priority_of_spec (score : R) : tier_is score (priority_of score).
Proof.
  unfold tier_is, priority_of.
  destruct (Rle_dec 7 score); [repeat split; intros; auto; lra|].
  destruct (Rle_dec 4 score); repeat split; intros; auto; lra.
Qed.

Lemma survey_row_spec (row : DbRow) (r : SurveyRow) :
  survey_row round row = Some r ->
  exists el az : R,
    calculate_geo_angles (snd (fst (fst row))) = Some (el, az) /\
    sv_longitude r = snd (fst (fst row)) /\
    sv_bands r = snd (fst row) /\
    sv_coverage r = snd row /\
    sv_priority_score r = round (spec_score el (snd (fst row)) (snd row)) 1 /\
    tier_is (spec_score el (snd (fst row)) (snd row)) (sv_priority r).
Proof.
  destruct row as [[[[operator name] lon] bands] coverage]; simpl.
  destruct (calculate_geo_angles lon) as [[el az]|]; [|discriminate].
  intros [= <-]; exists el, az; simpl.
  rewrite priority_score_spec; repeat split; apply priority_of_spec.
Qed.

Lemma In_insert_by_longitude (x y : SurveyRow) (l : list SurveyRow) :
  In y (insert_by_longitude x l) -> y = x \/ In y l.
Proof.
  induction l as [|z l IH]; simpl.
  - intros [<-|[]]; auto.
  - destruct (Rlt_dec _ _); simpl; [|intros [<-|H]; auto].
    intros [<-|H]; auto; destruct (IH H); auto.
Qed.

Lemma In_sort_by_longitude (y : SurveyRow) (l : list SurveyRow) :
  In y (sort_by_longitude l) -> In y l.
Proof.
  induction l as [|x l IH]; simpl; [auto|].
  intro H; apply In_insert_by_longitude in H; destruct H as [->|H]; auto.
Qed.

Lemma In_survey_rows (r : SurveyRow) (db : list DbRow) :
  In r (survey_rows round db) ->
  exists row, In row db /\ survey_row round row = Some r.
Proof.
  unfold survey_rows; rewrite in_flat_map; intros (row & Hin & Hr).
  exists row; split; [assumption|].
  destruct (survey_row round row) as [r'|]; [|destruct Hr].
  destruct Hr as [->|[]]; reflexivity.
Qed.

End SurveyFacts.

Lemma bangabandhu_survey_row :
  survey_row no_rounding bangabandhu = Some bangabandhu_survey.
Proof.
  unfold survey_row, bangabandhu; rewrite bb_angles; reflexivity.
Qed.

(** *** Rounding of the stored score *)

Lemma round_half_even_near (x : R) :
  Rabs (IZR (round_half_even x) - x) <= 1 / 2.
Proof.
  unfold round_half_even; cbv zeta.
  destruct (Zfloor_bound x) as [Hlo Hhi].
  destruct (Rlt_dec _ _); [apply Rabs_le; lra|].
  destruct (Rlt_dec _ _); [rewrite plus_IZR; apply Rabs_le; lra|].
  destruct (Z.even _); [|rewrite plus_IZR]; apply Rabs_le; lra.
Qed.

Lemma py_round_near (x : R) : Rabs (py_round x 1 - x) <= 1 / 20.
Proof.
  unfold py_round; change (10 ^ 1)%Z with 10%Z.
  pose proof (round_half_even_near (x * 10)) as H.
  pose proof (Rle_abs (IZR (round_half_even (x * 10)) - x * 10)) as H1.
  pose proof (Rle_abs (- (IZR (round_half_even (x * 10)) - x * 10))) as H2.
  rewrite Rabs_Ropp in H2.
  apply Rabs_le; lra.
Qed.

Lemma round_half_even_up (z : Z) (x : R) :
  IZR z + 1 / 2 < x < IZR z + 1 -> round_half_even x = (z + 1)%Z.
Proof.
  intros [H1 H2]; unfold round_half_even; cbv zeta.
  rewrite (Zfloor_eq z x) by lra.
  destruct (Rlt_dec _ _); [lra|].
  destruct (Rlt_dec _ _); [reflexivity | lra].
Qed.

(** *** From the catalogue to the survey and back *)

Lemma insert_by_longitude_In (x y : SurveyRow) (l : list SurveyRow) :
  y = x \/ In y l -> In y (insert_by_longitude x l).
Proof.
  induction l as [|z l IH]; simpl.
  - intros [->|[]]; now left.
  - destruct (Rlt_dec _ _); simpl; intros [->|[->|H]]; auto.
Qed.

Lemma sort_by_longitude_In (y : SurveyRow) (l : list SurveyRow) :
  In y l -> In y (sort_by_longitude l).
Proof.
  induction l as [|x l IH]; simpl; [auto|].
  intros [->|H]; apply insert_by_longitude_In; auto.
Qed.

Lemma survey_rows_In (round : R -> Z -> R) (db : list DbRow)
    (row : DbRow) (r : SurveyRow) :
  In row db -> survey_row round row = Some r ->
  In r (survey_rows round db).
Proof.
  intros Hin Hr; unfold survey_rows; rewrite in_flat_map.
  exists row; split; [assumption|]; rewrite Hr; now left.
Qed.

Lemma survey_row_fields (round : R -> Z -> R) (row : DbRow) (r : SurveyRow) :
  survey_row round row = Some r ->
  row = (sv_operator r, sv_satellite r, sv_longitude r, sv_bands r,
         sv_coverage r).
Proof.
  destruct row as [[[[operator name] lon] bands] coverage]; simpl.
  destruct (calculate_geo_angles lon) as [[el az]|]; [|discriminate].
  now intros [= <-].
Qed.

(** A visible entry of the catalogue has its row in the survey. *)
Lemma visible_entry_has_row (db : list DbRow)
    (operator name : string) (lon : R) (bands coverage : string)
    (el az : R) :
  In (operator, name, lon, bands, coverage) db ->
  calculate_geo_angles lon = Some (el, az) ->
  exists r : SurveyRow,
    In r (sort_by_longitude (survey_rows py_round db)) /\
    sv_operator r = operator /\ sv_satellite r = name /\
    sv_longitude r = lon /\ sv_bands r = bands /\
    sv_coverage r = coverage /\
    sv_priority_score r = py_round (spec_score el bands coverage) 1 /\
    Rabs (sv_priority_score r - spec_score el bands coverage) <= 0.051 /\
    tier_is (spec_score el bands coverage) (sv_priority r).
Proof.
  intros Hin Hang.
  destruct (survey_row py_round (operator, name, lon, bands, coverage))
    as [r|] eqn:Hr; [|simpl in Hr; rewrite Hang in Hr; discriminate].
  exists r; split.
  { apply sort_by_longitude_In, (survey_rows_In _ _ _ _ Hin Hr). }
  pose proof (survey_row_fields _ _ _ Hr) as Hf.
  destruct (survey_row_spec py_round _ r Hr)
    as (el' & az' & Hang' & _ & _ & _ & Hs & Ht).
  cbn [fst snd] in Hang', Hs, Ht.
  rewrite Hang in Hang'; injection Hang' as <- <-.
  injection Hf as -> -> -> -> ->.
  repeat split; try reflexivity; try apply Ht.
  - exact Hs.
  - rewrite Hs; eapply Rle_trans; [apply py_round_near | lra].
Qed.

(** A row of the survey is that of a visible entry of the catalogue. *)
Lemma row_has_visible_entry (db : list DbRow) (r : SurveyRow) :
  In r (sort_by_longitude (survey_rows py_round db)) ->
  exists el az : R,
    In (sv_operator r, sv_satellite r, sv_longitude r, sv_bands r,
        sv_coverage r) db /\
    calculate_geo_angles (sv_longitude r) = Some (el, az) /\
    sv_priority_score r =
      py_round (spec_score el (sv_bands r) (sv_coverage r)) 1 /\
    Rabs (sv_priority_score r
          - spec_score el (sv_bands r) (sv_coverage r)) <= 0.051 /\
    tier_is (spec_score el (sv_bands r) (sv_coverage r)) (sv_priority r).
Proof.
  intro Hin; apply In_sort_by_longitude, In_survey_rows in Hin.
  destruct Hin as (row & Hrow & Hr).
  pose proof (survey_row_fields _ _ _ Hr) as Hf.
  destruct (survey_row_spec py_round row r Hr)
    as (el & az & Hang & Hlon & Hb & Hc & Hs & Ht).
  rewrite <- Hlon in Hang; rewrite <- Hb, <- Hc in Hs, Ht.
  exists el, az; rewrite <- Hf.
  repeat split; try assumption; try apply Ht.
  rewrite Hs; eapply Rle_trans; [apply py_round_near | lra].
Qed.

(** C9 (as amended).  Every visible entry of the catalogue has its row in
    the survey, and every row of the survey is that of a visible entry.
    The row carries the entry's fields; the score it stores is the capped
    elevation term plus the band and region bonuses, rounded to one
    decimal, so within 0.051 of that sum (0.05 for the rounding, the rest
    for the binary form of the decimal); and its tier is HIGH from seven
    up, MEDIUM from four up to seven and LOW otherwise, decided on the
    sum before rounding. *)
Theorem survey_priority (db : list DbRow) :
  (forall (operator name : string) (lon : R) (bands coverage : string)
          (el az : R),
      In (operator, name, lon, bands, coverage) db ->
      calculate_geo_angles lon = Some (el, az) ->
      exists r : SurveyRow,
        In r (sort_by_longitude (survey_rows py_round db)) /\
        sv_operator r = operator /\ sv_satellite r = name /\
        sv_longitude r = lon /\ sv_bands r = bands /\
        sv_coverage r = coverage /\
        sv_priority_score r = py_round (spec_score el bands coverage) 1 /\
        Rabs (sv_priority_score r - spec_score el bands coverage)
          <= 0.051 /\
        tier_is (spec_score el bands coverage) (sv_priority r)) /\
  (forall r : SurveyRow,
      In r (sort_by_longitude (survey_rows py_round db)) ->
      exists el az : R,
        In (sv_operator r, sv_satellite r, sv_longitude r, sv_bands r,
            sv_coverage r) db /\
        calculate_geo_angles (sv_longitude r) = Some (el, az) /\
        sv_priority_score r =
          py_round (spec_score el (sv_bands r) (sv_coverage r)) 1 /\
        Rabs (sv_priority_score r
              - spec_score el (sv_bands r) (sv_coverage r)) <= 0.051 /\
        tier_is (spec_score el (sv_bands r) (sv_coverage r))
                (sv_priority r)).
Proof.
  split.
  - intros operator name lon bands coverage el az.
    apply visible_entry_has_row.
  - apply row_has_visible_entry.
Qed.

Lemma survey_priority_witness :
  exists r : SurveyRow,
    In r (sort_by_longitude (survey_rows py_round GEO_DATABASE)) /\
    sv_operator r = "BSCCL"%string /\
    sv_satellite r = "Bangabandhu-1"%string /\
    sv_longitude r = 119.1 /\ sv_bands r = "C/Ku"%string /\
    sv_coverage r = "Bangladesh, South Asia"%string /\
    sv_priority_score r =
      py_round (spec_score (elevation_at DHAKA_LAT DHAKA_LON 119.1)
                  "C/Ku" "Bangladesh, South Asia") 1 /\
    Rabs (sv_priority_score r
          - spec_score (elevation_at DHAKA_LAT DHAKA_LON 119.1)
              "C/Ku" "Bangladesh, South Asia") <= 0.051 /\
    tier_is (spec_score (elevation_at DHAKA_LAT DHAKA_LON 119.1)
               "C/Ku" "Bangladesh, South Asia") (sv_priority r).
Proof.
  apply (proj1 (survey_priority GEO_DATABASE)
           "BSCCL"%string "Bangabandhu-1"%string 119.1 "C/Ku"%string
           "Bangladesh, South Asia"%string
           (elevation_at DHAKA_LAT DHAKA_LON 119.1)
           (azimuth_at DHAKA_LAT DHAKA_LON 119.1)).
  - do 23 right; left; reflexivity.
  - exact bb_angles.
Defined.

(** ** Express AM6 at 53 degrees East, seen from Dhaka *)

(** Encloses [radians d] between two decimals, to six digits of pi. *)
Ltac radians_enclosure6 :=
  unfold radians, DHAKA_LAT, DHAKA_LON;
  pose proof PI_lower6; pose proof PI_upper6; lra.

Lemma am6_lat : 0.415567 <= radians DHAKA_LAT <= 0.415569.
Proof. radians_enclosure6. Qed.

Lemma am6_cos_lat : 0.91488 <= cos (radians DHAKA_LAT) <= 0.9149.
Proof.
  destruct am6_lat as [Ha Hb].
  pose proof (cos_enclosure 0.415567 0.415569 _ ltac:(lra) Ha Hb ltac:(lra)).
  lra.
Qed.

Lemma am6_cos_dlon : 0.79428 <= cos (radians (53 - DHAKA_LON)) <= 0.79439.
Proof.
  assert (H : 0.65297 <= Rabs (radians (53 - DHAKA_LON)) <= 0.652972).
  { rewrite Rabs_left1; radians_enclosure6. }
  destruct H as [Ha Hb].
  pose proof (cos_enclosure_abs 0.65297 0.652972 _ ltac:(lra) Ha Hb
                ltac:(lra)); lra.
Qed.

Lemma am6_cos_gamma :
  0.72667 <= cos_gamma_at DHAKA_LAT DHAKA_LON 53 <= 0.726788.
Proof.
  unfold cos_gamma_at; pose proof am6_cos_lat; pose proof am6_cos_dlon.
  split; nra.
Qed.

Lemma am6_elevation : 39.6 <= elevation_at DHAKA_LAT DHAKA_LON 53 <= 39.99.
Proof.
  pose proof am6_cos_gamma as Hc; pose proof PI2_3_2.
  rewrite elevation_formula by lra.
  set (c := cos_gamma_at DHAKA_LAT DHAKA_LON 53) in *.
  assert (Hs : 0.6868 <= sqrt (1 - c ^ 2) <= 0.687)
    by (apply sqrt_enclosure; nra).
  set (s := sqrt (1 - c ^ 2)) in *.
  assert (Hr : 0.1511 <= R_EARTH / R_GEO <= 0.15111)
    by (unfold R_EARTH, R_GEO; lra).
  split.
  - assert (Ht : 0.69115 <= radians 39.6 <= 0.691151) by radians_enclosure6.
    destruct Ht as [Ha Hb].
    pose proof (sin_enclosure 0.69115 0.691151 _ ltac:(lra) Ha Hb ltac:(lra)).
    pose proof (cos_enclosure 0.69115 0.691151 _ ltac:(lra) Ha Hb ltac:(lra)).
    apply degrees_ge_of, atan_quot_ge; [lra | lra | nra].
  - assert (Ht : 0.697957 <= radians 39.99 <= 0.697958)
      by radians_enclosure6.
    destruct Ht as [Ha Hb].
    pose proof (sin_enclosure 0.697957 0.697958 _ ltac:(lra) Ha Hb
                  ltac:(lra)).
    pose proof (cos_enclosure 0.697957 0.697958 _ ltac:(lra) Ha Hb
                  ltac:(lra)).
    apply degrees_le_of, atan_quot_le; [lra | lra | nra].
Qed.

Lemma am6_angles :
  calculate_geo_angles 53 =
  Some (elevation_at DHAKA_LAT DHAKA_LON 53,
        azimuth_at DHAKA_LAT DHAKA_LON 53).
Proof. apply survey_visible_in_arc; lra. Qed.

(** The sum for Express AM6: 3.96 to 3.999 for the elevation, 3 for the
    band, nothing for the region. *)
Lemma am6_score :
  6.96 <= spec_score (elevation_at DHAKA_LAT DHAKA_LON 53) "C/Ku"
            "Russia, Central Asia, Middle East" <= 6.999.
Proof.
  pose proof am6_elevation as He.
  unfold spec_score; simpl str_in; simpl orb; cbv iota.
  unfold Rmin; destruct (Rle_dec _ _); lra.
Qed.

Lemma py_round_am6 (x : R) : 6.96 <= x <= 6.999 -> py_round x 1 = 7.
Proof.
  intros [H1 H2]; unfold py_round; change (10 ^ 1)%Z with 10%Z.
  rewrite (round_half_even_up 69); [simpl; lra | lra].
Qed.

Lemma express_am6_listed :
  In ("RSCC", "Express AM6", 53, "C/Ku",
      "Russia, Central Asia, Middle East")%string GEO_DATABASE.
Proof. left; replace 53 with 53.0 by lra; reflexivity. Qed.

(** C9, refuted as stated: the survey holds the row of Express AM6 with
    the score 7 and the tier MEDIUM.  The sum behind it is below seven;
    the stored score is not that sum, and the tier is not the one the
    thresholds give for the stored score. *)
Lemma stored_score_does_not_decide_tier :
  exists (r : SurveyRow) (el az : R),
    In r (survey_geo_arc py_round) /\
    sv_satellite r = "Express AM6"%string /\
    calculate_geo_angles (sv_longitude r) = Some (el, az) /\
    spec_score el (sv_bands r) (sv_coverage r) < 7 /\
    sv_priority_score r = 7 /\
    sv_priority r = MEDIUM /\
    ~ tier_is (sv_priority_score r) (sv_priority r).
Proof.
  pose proof am6_score as Hsc.
  destruct (visible_entry_has_row GEO_DATABASE
              "RSCC"%string "Express AM6"%string 53 "C/Ku"%string
              "Russia, Central Asia, Middle East"%string _ _
              express_am6_listed am6_angles)
    as (r & Hin & _ & Hn & Hlon & Hb & Hc & Hs & _ & Ht).
  exists r, (elevation_at DHAKA_LAT DHAKA_LON 53),
    (azimuth_at DHAKA_LAT DHAKA_LON 53).
  rewrite Hlon, Hb, Hc.
  assert (H7 : sv_priority_score r = 7)
    by (rewrite Hs; now apply py_round_am6).
  assert (Hm : sv_priority r = MEDIUM) by (apply Ht; lra).
  repeat split; try assumption; try apply am6_angles; try lra.
  rewrite H7, Hm; intros (T7 & _); discriminate T7; lra.
Qed.

(** The Bangabandhu-1 row scores between 9.7 and 9.8 and is rated HIGH. *)
Lemma bangabandhu_is_high :
  9.7 <= spec_score (elevation_at DHAKA_LAT DHAKA_LON 119.1)
           "C/Ku" "Bangladesh, South Asia" <= 9.8 /\
  sv_priority bangabandhu_survey = HIGH.
Proof.
  pose proof bb_elevation as He.
  assert (Hs : 9.7 <= spec_score (elevation_at DHAKA_LAT DHAKA_LON 119.1)
                        "C/Ku" "Bangladesh, South Asia" <= 9.8).
  { unfold spec_score; simpl str_in; simpl orb; cbv iota.
    unfold Rmin; destruct (Rle_dec _ _); lra. }
  split; [exact Hs|].
  unfold bangabandhu_survey; cbv zeta; simpl sv_priority.
  rewrite priority_score_spec.
  apply (priority_of_spec _); lra.
Qed.

End GeoSpec.

(* ====================================================================== *)
(** * Part V: further properties of the pass loop                          *)
(* ====================================================================== *)

Module LeoExtra.

Import Leo.
Local Open Scope Q_scope.

Section LoopInvariants.

Variable altaz_degrees : Time -> Q.
Variables name freq : string.

Local Abbreviation on_event := (on_event altaz_degrees name freq).
Local Abbreviation for_events := (for_events altaz_degrees name freq).
Local Abbreviation pass_loop := (pass_loop altaz_degrees name freq).
Local Abbreviation passes := (passes altaz_degrees name freq).

(** *** Where a rise is followed by a set *)

Lemma has_code_split (c : Z) (es : list Event) :
  has_code c es = true ->
  exists a t b, es = a ++ (t, c) :: b.
Proof.
  induction es as [|[t c'] es IH]; [discriminate|].
  rewrite LeoSpec.has_code_cons; intro H; apply orb_prop in H.
  destruct H as [H|H].
  - apply Z.eqb_eq in H; subst c'; now exists [], t, es.
  - destruct (IH H) as (a & t0 & b & ->).
    now exists ((t, c') :: a), t0, b.
Qed.

Lemma rise_then_set_split (es : list Event) :
  rise_then_set es = true <->
  exists a tr b ts c, es = a ++ (tr, RISE) :: b ++ (ts, SET) :: c.
Proof.
  split.
  - induction es as [|[t c'] es IH]; [discriminate|].
    rewrite LeoSpec.rise_then_set_cons; intro H; apply orb_prop in H.
    destruct H as [H|H].
    + apply andb_prop in H; destruct H as [Hc Hs].
      apply Z.eqb_eq in Hc; subst c'.
      destruct (has_code_split SET es Hs) as (b & ts & c & ->).
      now exists [], t, b, ts, c.
    + destruct (IH H) as (a & tr & b & ts & c & ->).
      now exists ((t, c') :: a), tr, b, ts, c.
  - intros (a & tr & b & ts & c & ->).
    rewrite LeoSpec.rise_then_set_app, LeoSpec.rise_then_set_cons.
    rewrite LeoSpec.has_code_app, LeoSpec.has_code_cons.
    change (RISE =? RISE)%Z with true; change (SET =? SET)%Z with true.
    now rewrite !orb_true_r.
Qed.

(** *** Codes the loop does not know *)

Lemma unknown_code_skipped (v : Vars) (e : Event) :
  known_code e = false -> on_event v e = (Normal v, []).
Proof.
  destruct e as [ti c]; unfold known_code, is_code, Leo.on_event; cbn [snd].
  intro H; apply orb_false_iff in H; destruct H as [H H3].
  apply orb_false_iff in H; destruct H as [H1 H2].
  now rewrite H1, H2, H3.
Qed.

Lemma filter_known (es : list Event) (v : Vars) :
  for_events v (filter known_code es) = for_events v es.
Proof.
  revert v; induction es as [|e es IH]; intro v; [reflexivity|].
  cbn [filter]; destruct (known_code e) eqn:Hk.
  - rewrite !LeoSpec.for_events_cons.
    destruct (fst (on_event v e)); [apply IH | reflexivity].
  - rewrite LeoSpec.for_events_cons, (unknown_code_skipped v e Hk).
    cbn [fst]; apply IH.
Qed.

(** ** Properties of the loop *)

(** X2.  The loop reports at most as many passes as it saw Set events, and
    at most as many as it saw Rise events. *)
Theorem records_bounded_by_events (es : list Event) :
  (List.length (passes es) <= count_code SET es)%nat /\
  (List.length (passes es) <= count_code RISE es)%nat.
Proof.
  unfold Leo.passes; rewrite LeoSpec.pass_loop_eq; cbn [fst records_of].
  split; apply Nat.le_0_l.
Qed.

(** X4.  Event codes other than 0, 1 and 2 are ignored: dropping them from
    the sequence changes nothing. *)
Theorem unknown_codes_are_ignored (es : list Event) :
  pass_loop (filter known_code es) = pass_loop es.
Proof. unfold Leo.pass_loop; now rewrite filter_known. Qed.

(** X28.  What the loop does with any sequence of events: it appends and
    prints nothing, and it raises [TypeError] exactly when some rise of
    the sequence is followed, at any distance, by a set. *)
Theorem loop_raises_iff_rise_then_set (es : list Event) :
  fst (pass_loop es) = [] /\
  (snd (pass_loop es) = Some TypeError <->
   exists a tr b ts c, es = a ++ (tr, RISE) :: b ++ (ts, SET) :: c) /\
  (snd (pass_loop es) = None <->
   ~ exists a tr b ts c, es = a ++ (tr, RISE) :: b ++ (ts, SET) :: c).
Proof.
  rewrite LeoSpec.pass_loop_outcome; cbn [fst snd].
  pose proof (rise_then_set_split es) as Hsplit.
  destruct (rise_then_set es); (split; [reflexivity|]); split; split.
  - intros _; now apply Hsplit.
  - reflexivity.
  - discriminate.
  - intro H; exfalso; apply H; now apply Hsplit.
  - discriminate.
  - intro H; apply Hsplit in H; discriminate.
  - intros _ H; apply Hsplit in H; discriminate.
  - reflexivity.
Qed.

End LoopInvariants.

End LeoExtra.

(* ====================================================================== *)
(** * Part VI: further properties of the GEO geometry                      *)
(* ====================================================================== *)

Module GeoExtra.

Import Geo GeoSpec.
Local Open Scope R_scope.

(** ** Ranges of the angles *)

Lemma atan2_upper_half (y x : R) :
  0 < y -> 0 <= x -> 0 < atan2 y x <= PI / 2.
Proof.
  intros Hy Hx; unfold atan2; pose proof PI_RGT_0.
  destruct (Rlt_dec 0 x) as [Hpos|Hn].
  - assert (Hq : 0 < y / x) by (apply Rdiv_lt_0_compat; lra).
    pose proof (atan_increasing _ _ Hq) as Hin; rewrite atan_0 in Hin.
    destruct (atan_bound (y / x)); lra.
  - destruct (Rlt_dec x 0); [lra|].
    destruct (Rlt_dec 0 y); lra.
Qed.

(** Whatever the observer and the threshold, a reported elevation lies
    between the threshold and 90 degrees. *)
Lemma elevation_range (lat0 lon0 min_el lon el az : R) :
  calculate_geo_angles_at lat0 lon0 min_el lon = Some (el, az) ->
  min_el <= el <= 90.
Proof.
  rewrite calculate_geo_angles_at_unfold.
  destruct (Rle_dec _ _) as [|Hc]; [discriminate|].
  destruct (Rlt_dec _ _) as [|He]; [discriminate|].
  intros [= <- <-]; split; [lra|].
  unfold elevation_at; cbv zeta.
  destruct (atan2_upper_half
              (cos_gamma_at lat0 lon0 lon - R_EARTH / R_GEO)
              (sqrt (1 - cos_gamma_at lat0 lon0 lon ^ 2)))
    as [_ Hup]; [lra | apply sqrt_pos |].
  apply degrees_le_of; unfold radians; lra.
Qed.

Lemma radians_63 : 1.0995 <= radians 63 <= 1.0996.
Proof. radians_enclosure. Qed.

(** Seen from Dhaka no satellite of the belt stands higher than 63
    degrees. *)
Lemma dhaka_elevation_le (lon : R) :
  R_EARTH / R_GEO < cos_gamma_at DHAKA_LAT DHAKA_LON lon ->
  elevation_at DHAKA_LAT DHAKA_LON lon <= 63.
Proof.
  intro Hvis; pose proof (dhaka_cos_gamma_le lon) as Hu.
  assert (Hr : 0.1511 <= R_EARTH / R_GEO) by (unfold R_EARTH, R_GEO; lra).
  rewrite elevation_formula by lra.
  set (c := cos_gamma_at DHAKA_LAT DHAKA_LON lon) in *.
  assert (Hs : 0.4034 <= sqrt (1 - c ^ 2) <= 1)
    by (apply sqrt_enclosure; nra).
  destruct radians_63 as [Ha Hb]; pose proof PI2_3_2.
  pose proof (sin_enclosure 1.0995 1.0996 _ ltac:(lra) Ha Hb ltac:(lra)).
  pose proof (cos_enclosure 1.0995 1.0996 _ ltac:(lra) Ha Hb ltac:(lra)).
  apply degrees_le_of, atan_quot_le; [lra | lra |].
  assert ((c - R_EARTH / R_GEO) * cos (radians 63) <= 0.7639 * 0.4565)
    by (apply Rmult_le_compat; lra).
  assert (0.4034 * 0.8909 <= sqrt (1 - c ^ 2) * sin (radians 63))
    by (apply Rmult_le_compat; lra).
  lra.
Qed.

Lemma py_mod_negative (x m : R) : - m <= x -> x < 0 -> py_mod x m = x + m.
Proof.
  intros H0 Hm; unfold py_mod.
  rewrite (Zfloor_eq (-1) (x / m)); [simpl; ring|].
  assert (Hpos : 0 < m) by lra.
  replace (IZR (-1)) with (-1) by reflexivity.
  split.
  - apply (Rmult_le_reg_r m); [lra|]; unfold Rdiv.
    rewrite Rmult_assoc, Rinv_l; lra.
  - apply (Rmult_lt_reg_r m); [lra|]; unfold Rdiv.
    rewrite Rmult_assoc, Rinv_l; lra.
Qed.

Lemma atan2_lower_left (y x : R) :
  x < 0 -> y < 0 -> atan2 y x = atan (y / x) - PI.
Proof.
  intros Hx Hy; unfold atan2.
  destruct (Rlt_dec 0 x); [lra|].
  destruct (Rlt_dec x 0); [|lra].
  destruct (Rle_dec 0 y); [lra | reflexivity].
Qed.

(** Dhaka lies north of the equator, so every visible satellite of the
    belt is seen in the southern half of the sky. *)
Lemma dhaka_azimuth_range (lon : R) :
  R_EARTH / R_GEO < cos_gamma_at DHAKA_LAT DHAKA_LON lon ->
  90 < azimuth_at DHAKA_LAT DHAKA_LON lon < 270.
Proof.
  intro Hvis; pose proof PI_RGT_0 as Hpi.
  pose proof survey_cos_lat as Hcl; pose proof survey_sin_lat as Hsl.
  assert (Hr : 0 < R_EARTH / R_GEO) by (unfold R_EARTH, R_GEO; lra).
  unfold cos_gamma_at in Hvis; unfold azimuth_at; cbv zeta.
  set (cd := cos (radians (lon - DHAKA_LON))) in *.
  set (y := sin (radians (lon - DHAKA_LON))).
  assert (Hcd : 0 < cd).
  { destruct (Rlt_le_dec 0 cd) as [|Hle]; [assumption|]; exfalso.
    assert (0 <= cos (radians DHAKA_LAT) * - cd)
      by (apply Rmult_le_pos; lra); lra. }
  set (x := - cd * sin (radians DHAKA_LAT)).
  assert (Hx : x < 0).
  { unfold x; assert (0 < cd * sin (radians DHAKA_LAT))
      by (apply Rmult_lt_0_compat; lra); lra. }
  pose proof (atan_bound (y / x)) as [Hb0 Hb1].
  destruct (Rle_lt_dec 0 y) as [Hy|Hy].
  - rewrite atan2_upper_left by lra.
    assert (Hq : y / x <= 0).
    { unfold Rdiv; replace (y * / x) with (- (y * / - x)) by (field; lra).
      assert (0 <= y * / - x)
        by (apply Rmult_le_pos; [lra | left; apply Rinv_0_lt_compat; lra]).
      lra. }
    pose proof (atan_le _ _ Hq) as Hat; rewrite atan_0 in Hat.
    assert (Hdeg : 90 < degrees (atan (y / x) + PI) <= 180).
    { split.
      - rewrite <- (degrees_radians 90); apply degrees_lt; unfold radians; lra.
      - apply degrees_le_of; unfold radians; lra. }
    rewrite py_mod_small; lra.
  - rewrite atan2_lower_left by lra.
    assert (Hq : 0 < y / x).
    { unfold Rdiv; replace (y * / x) with (- y * / - x) by (field; lra).
      apply Rmult_lt_0_compat; [lra | apply Rinv_0_lt_compat; lra]. }
    pose proof (atan_increasing _ _ Hq) as Hat; rewrite atan_0 in Hat.
    assert (Hdeg : -180 < degrees (atan (y / x) - PI) < -90).
    { split.
      - rewrite <- (degrees_radians (-180)); apply degrees_lt.
        unfold radians; lra.
      - rewrite <- (degrees_radians (-90)); apply degrees_lt.
        unfold radians; lra. }
    rewrite py_mod_negative; lra.
Qed.

(** X8.  What [calculate_geo_angles] reports from Dhaka: an elevation between
    the 5-degree minimum and 63 degrees, and an azimuth strictly between
    90 and 270 degrees, east over south to west. *)
Theorem dhaka_angles_in_range (lon el az : R) :
  calculate_geo_angles lon = Some (el, az) ->
  5 <= el <= 63 /\ 90 < az < 270.
Proof.
  unfold calculate_geo_angles; rewrite calculate_geo_angles_at_unfold.
  destruct (Rle_dec _ _) as [|Hc]; [discriminate|].
  destruct (Rlt_dec _ _) as [|He]; [discriminate|].
  intros [= <- <-]; unfold MIN_ELEVATION in He.
  assert (Hvis : R_EARTH / R_GEO < cos_gamma_at DHAKA_LAT DHAKA_LON lon)
    by lra.
  split; [split; [lra | now apply dhaka_elevation_le]|].
  now apply dhaka_azimuth_range.
Qed.

Lemma dhaka_angles_in_range_witness :
  5 <= elevation_at DHAKA_LAT DHAKA_LON 119.1 <= 63 /\
  90 < azimuth_at DHAKA_LAT DHAKA_LON 119.1 < 270.
Proof. apply (dhaka_angles_in_range 119.1); exact bb_angles. Defined.

(** ** The slant range *)

Lemma slant_root_sq (s : R) :
  sqrt (s ^ 2 + (R_GEO / R_EARTH) ^ 2 - 1) ^ 2 =
  s ^ 2 + (R_GEO / R_EARTH) ^ 2 - 1.
Proof.
  rewrite pow2_sqrt; [reflexivity|].
  assert (1 <= (R_GEO / R_EARTH) ^ 2) by (unfold R_GEO, R_EARTH; lra).
  nra.
Qed.

(** X11.  The slant range [d] closes the triangle between the centre of the
    Earth, the observer and the satellite: for every elevation
    [d^2 + 2 R_EARTH d sin(el) + R_EARTH^2] is [R_GEO^2], to within one
    square kilometre. *)
Theorem slant_range_closes_triangle (el : R) :
  Rabs (calculate_slant_range el ^ 2
        + 2 * R_EARTH * calculate_slant_range el * sin (radians el)
        + R_EARTH ^ 2 - R_GEO ^ 2) <= 1.
Proof.
  unfold calculate_slant_range; cbv zeta.
  pose proof (slant_root_sq (sin (radians el))) as Hq.
  set (s := sin (radians el)) in *.
  set (q := sqrt (s ^ 2 + (R_GEO / R_EARTH) ^ 2 - 1)) in *.
  replace ((R_EARTH * (- s + q)) ^ 2 + 2 * R_EARTH * (R_EARTH * (- s + q)) * s
           + R_EARTH ^ 2 - R_GEO ^ 2)
    with (R_EARTH ^ 2 * (q ^ 2 - s ^ 2 + 1) - R_GEO ^ 2) by ring.
  rewrite Hq.
  replace (R_EARTH ^ 2 * (s ^ 2 + (R_GEO / R_EARTH) ^ 2 - 1 - s ^ 2 + 1)
           - R_GEO ^ 2) with 0 by (unfold R_GEO, R_EARTH; field).
  rewrite Rabs_R0; lra.
Qed.

Lemma sin_radians_range (el : R) :
  0 <= el <= 90 -> 0 <= sin (radians el) <= 1.
Proof.
  intros [H0 H1]; pose proof PI_RGT_0.
  assert (0 <= radians el <= PI / 2) by (unfold radians; split; nra).
  split; [apply sin_ge_0; lra | apply SIN_bound].
Qed.

Lemma slant_range_enclosure (el : R) :
  0 <= el <= 90 ->
  R_GEO - R_EARTH <= calculate_slant_range el <= 41680.
Proof.
  intro Hel; destruct (sin_radians_range el Hel) as [Hs0 Hs1].
  unfold calculate_slant_range; cbv zeta.
  set (s := sin (radians el)) in *.
  assert (Hq : s + (R_GEO / R_EARTH - 1)
               <= sqrt (s ^ 2 + (R_GEO / R_EARTH) ^ 2 - 1)
               <= s + 6.54214).
  { assert (Hrho : 6.6181 <= R_GEO / R_EARTH <= 6.61812)
      by (unfold R_GEO, R_EARTH; lra).
    set (rho := R_GEO / R_EARTH) in *.
    apply sqrt_enclosure; [lra | lra | |].
    - assert (0 <= (rho - 1) * (1 - s)) by (apply Rmult_le_pos; lra); nra.
    - assert (rho ^ 2 <= 43.79952) by nra; nra. }
  unfold R_GEO, R_EARTH in *; lra.
Qed.

(** X12.  Between the horizon and the zenith the slant range stays between
    [R_GEO - R_EARTH], which it reaches at 90 degrees, and 41680 km. *)
Theorem slant_range_bounds (el : R) :
  0 <= el <= 90 ->
  R_GEO - R_EARTH <= calculate_slant_range el <= 41680 /\
  calculate_slant_range 90 = R_GEO - R_EARTH.
Proof.
  intro Hel; split; [now apply slant_range_enclosure|].
  unfold calculate_slant_range; cbv zeta.
  replace (radians 90) with (PI / 2) by (unfold radians; field).
  rewrite sin_PI2.
  replace (1 ^ 2 + (R_GEO / R_EARTH) ^ 2 - 1) with ((R_GEO / R_EARTH) ^ 2)
    by ring.
  rewrite sqrt_pow2 by (unfold R_GEO, R_EARTH; lra).
  unfold R_GEO, R_EARTH; field.
Qed.

Lemma slant_range_bounds_witness :
  R_GEO - R_EARTH <= calculate_slant_range 47 <= 41680 /\
  calculate_slant_range 90 = R_GEO - R_EARTH.
Proof. apply (slant_range_bounds 47); lra. Defined.

Lemma radians_half : 0.008726 <= radians 0.5 <= 0.008727.
Proof. radians_enclosure. Qed.

Lemma sin_radians_half : 0.0087258 <= sin (radians 0.5).
Proof.
  destruct radians_half as [Ha Hb].
  pose proof (sin_enclosure 0.008726 0.008727 _ ltac:(lra) Ha Hb ltac:(lra)).
  lra.
Qed.

(** Two angles of the first quadrant that are a degree apart: their
    cosines differ by at least 0.00015. *)
Lemma cos_gap_one_degree (x1 x2 : R) :
  0 <= x1 -> x1 + radians 1 <= x2 -> x2 <= PI / 2 ->
  0.00015 <= cos x1 - cos x2.
Proof.
  intros H0 H12 H2; pose proof PI_RGT_0 as Hpi.
  pose proof sin_radians_half as Hh; destruct radians_half as [Ha Hb].
  assert (Hr : radians 1 = 2 * radians 0.5) by (unfold radians; lra).
  rewrite cos_diff.
  assert (Hu : sin (radians 0.5) <= sin ((x2 - x1) / 2))
    by (apply sin_incr_1; lra).
  assert (Hw : sin (radians 0.5) <= sin ((x2 + x1) / 2))
    by (apply sin_incr_1; lra).
  assert (0.0087258 * 0.0087258 <=
          sin ((x2 - x1) / 2) * sin ((x2 + x1) / 2))
    by (apply Rmult_le_compat; lra).
  lra.
Qed.

Lemma sin_diff (p q : R) :
  sin p - sin q = 2 * cos ((p + q) / 2) * sin ((p - q) / 2).
Proof. apply form4. Qed.

(** Two angles of the first quadrant that are a degree apart: their sines
    differ by at least 0.00015. *)
Lemma sin_gap_one_degree (x1 x2 : R) :
  0 <= x1 -> x1 + radians 1 <= x2 -> x2 <= PI / 2 ->
  0.00015 <= sin x2 - sin x1.
Proof.
  intros H0 H12 H2; pose proof PI_RGT_0 as Hpi.
  pose proof sin_radians_half as Hh; destruct radians_half as [Ha Hb].
  assert (Hr : radians 1 = 2 * radians 0.5) by (unfold radians; lra).
  rewrite sin_diff.
  assert (Hu : sin (radians 0.5) <= sin ((x2 - x1) / 2))
    by (apply sin_incr_1; lra).
  assert (Hw : sin (radians 0.5) <= cos ((x2 + x1) / 2)).
  { rewrite <- (cos_shift (radians 0.5)); apply cos_decr_1; lra. }
  assert (0.0087258 * 0.0087258 <=
          cos ((x2 + x1) / 2) * sin ((x2 - x1) / 2))
    by (apply Rmult_le_compat; lra).
  lra.
Qed.

(** X13.  The higher the satellite stands, the shorter the slant range: one
    degree more of elevation makes it at least half a kilometre
    shorter. *)
Theorem slant_range_decreasing (el1 el2 : R) :
  0 <= el1 -> el1 + 1 <= el2 -> el2 <= 90 ->
  calculate_slant_range el2 + 0.5 <= calculate_slant_range el1.
Proof.
  intros H0 H12 H2; pose proof PI_RGT_0.
  assert (Hr1 : 0 <= radians el1) by (unfold radians; nra).
  assert (Hr2 : radians el2 <= PI / 2) by (unfold radians; nra).
  assert (Hr : radians el1 + radians 1 <= radians el2)
    by (unfold radians; nra).
  pose proof (sin_gap_one_degree _ _ Hr1 Hr Hr2) as Hs.
  assert (Hone : 0 <= radians 1) by (unfold radians; lra).
  assert (Hs1 : 0 <= sin (radians el1)) by (apply sin_ge_0; lra).
  pose proof (SIN_bound (radians el2)) as [_ Hs2].
  unfold calculate_slant_range; cbv zeta.
  pose proof (slant_root_sq (sin (radians el1))) as Hq1.
  pose proof (slant_root_sq (sin (radians el2))) as Hq2.
  set (s1 := sin (radians el1)) in *; set (s2 := sin (radians el2)) in *.
  assert (HC : 42.79 <= (R_GEO / R_EARTH) ^ 2 - 1)
    by (unfold R_GEO, R_EARTH; lra).
  assert (Hp1 : 6.54 <= sqrt (s1 ^ 2 + (R_GEO / R_EARTH) ^ 2 - 1)).
  { apply (sqrt_enclosure 6.54 10); try lra; [nra|].
    assert ((R_GEO / R_EARTH) ^ 2 <= 44) by (unfold R_GEO, R_EARTH; lra).
    nra. }
  assert (Hp2 : 6.54 <= sqrt (s2 ^ 2 + (R_GEO / R_EARTH) ^ 2 - 1)).
  { apply (sqrt_enclosure 6.54 10); try lra; [nra|].
    assert ((R_GEO / R_EARTH) ^ 2 <= 44) by (unfold R_GEO, R_EARTH; lra).
    nra. }
  set (q1 := sqrt (s1 ^ 2 + (R_GEO / R_EARTH) ^ 2 - 1)) in *.
  set (q2 := sqrt (s2 ^ 2 + (R_GEO / R_EARTH) ^ 2 - 1)) in *.
  assert (Hd : q2 - q1 <= 0.2 * (s2 - s1)).
  { assert (Hprod : (q2 - q1) * (q2 + q1) = (s2 - s1) * (s2 + s1)) by nra.
    assert (Hge : 0 <= q2 - q1).
    { destruct (Rle_lt_dec 0 (q2 - q1)) as [|Hneg]; [assumption|].
      exfalso.
      assert (0 <= (s2 - s1) * (s2 + s1)) by (apply Rmult_le_pos; lra).
      assert (0 < (q1 - q2) * (q2 + q1)) by (apply Rmult_lt_0_compat; lra).
      lra. }
    assert ((q2 - q1) * 13.08 <= (q2 - q1) * (q2 + q1))
      by (apply Rmult_le_compat_l; lra).
    assert ((s2 - s1) * (s2 + s1) <= (s2 - s1) * 2)
      by (apply Rmult_le_compat_l; lra).
    lra. }
  assert (HR : 6371 * 0.00012 <= R_EARTH * ((s2 - s1) - (q2 - q1))).
  { apply Rmult_le_compat; try lra; unfold R_EARTH; lra. }
  lra.
Qed.

Lemma slant_range_decreasing_witness :
  calculate_slant_range 48 + 0.5 <= calculate_slant_range 47.
Proof. apply (slant_range_decreasing 47 48); lra. Defined.

(** ** Elevation against the distance from the meridian *)

(** X10.  Seen from Dhaka, of two reported satellites the one farther from the
    observer's meridian stands lower: one degree more of longitude
    difference costs at least a thousandth of a degree of elevation. *)
Theorem elevation_falls_away_from_meridian
    (lon1 lon2 e1 a1 e2 a2 : R) :
  Rabs (lon1 - DHAKA_LON) + 1 <= Rabs (lon2 - DHAKA_LON) ->
  Rabs (lon2 - DHAKA_LON) <= 180 ->
  calculate_geo_angles lon1 = Some (e1, a1) ->
  calculate_geo_angles lon2 = Some (e2, a2) ->
  e2 + 0.001 <= e1.
Proof.
  intros Hsep H180 H1 H2; pose proof PI_RGT_0 as Hpi.
  pose proof PI_lower as Hpl; pose proof PI_upper as Hpu.
  unfold calculate_geo_angles in H1, H2.
  rewrite calculate_geo_angles_at_unfold in H1, H2.
  destruct (Rle_dec _ _) as [|_] in H1; [discriminate|].
  destruct (Rlt_dec _ _) as [|_] in H1; [discriminate|].
  destruct (Rle_dec _ _) as [|Hc2] in H2; [discriminate|].
  destruct (Rlt_dec _ _) as [|_] in H2; [discriminate|].
  injection H1 as <- _; injection H2 as <- _.
  pose proof survey_cos_lat as Hlat.
  pose proof (Rabs_pos (lon1 - DHAKA_LON)) as Hp1.
  assert (Hr : 0.151 <= R_EARTH / R_GEO) by (unfold R_EARTH, R_GEO; lra).
  pose proof (dhaka_cos_gamma_le lon1) as Hu1.
  assert (Hg : 0.000137 <= cos_gamma_at DHAKA_LAT DHAKA_LON lon1
                           - cos_gamma_at DHAKA_LAT DHAKA_LON lon2).
  { unfold cos_gamma_at in *.
    rewrite <- (cos_Rabs (radians (lon2 - DHAKA_LON))) in *.
    rewrite <- (cos_Rabs (radians (lon1 - DHAKA_LON))).
    rewrite !radians_Rabs in *.
    set (d1 := Rabs (lon1 - DHAKA_LON)) in *.
    set (d2 := Rabs (lon2 - DHAKA_LON)) in *.
    assert (Hx1 : 0 <= radians d1) by (unfold radians; nra).
    assert (Hx12 : radians d1 + radians 1 <= radians d2)
      by (unfold radians; nra).
    assert (Hx2 : radians d2 <= PI) by (unfold radians; nra).
    assert (Hq : radians d2 <= PI / 2).
    { destruct (Rle_lt_dec (radians d2) (PI / 2)) as [|Hgt]; [assumption|].
      exfalso.
      assert (Hneg : cos (radians d2) <= 0) by (apply cos_le_0; lra).
      assert (0 <= cos (radians DHAKA_LAT) * - cos (radians d2))
        by (apply Rmult_le_pos; lra).
      lra. }
    pose proof (cos_gap_one_degree _ _ Hx1 Hx12 Hq) as Hgap.
    assert (0.9148 * 0.00015 <=
            cos (radians DHAKA_LAT) * (cos (radians d1) - cos (radians d2)))
      by (apply Rmult_le_compat; lra).
    lra. }
  rewrite !elevation_formula by lra.
  set (r := R_EARTH / R_GEO) in *.
  set (c1 := cos_gamma_at DHAKA_LAT DHAKA_LON lon1) in *.
  set (c2 := cos_gamma_at DHAKA_LAT DHAKA_LON lon2) in *.
  assert (Hvis : r < c2) by lra.
  destruct (quotient_gap r c2 c1 Hr Hvis ltac:(lra) Hu1) as [Hq0 _].
  destruct (elevation_quotient_range r c2 Hr Hvis ltac:(lra)) as [HA0 HA2].
  destruct (elevation_quotient_range r c1 Hr ltac:(lra) Hu1) as [HB0 HB2].
  set (u := (c2 - r) / sqrt (1 - c2 ^ 2)) in *.
  set (v := (c1 - r) / sqrt (1 - c1 ^ 2)) in *.
  assert (Hau : atan u <= 1.2).
  { apply Rle_trans with (atan 2); [apply atan_le; lra | apply atan_2]. }
  assert (Hlo : atan u + radians 0.001 <= atan v).
  { assert (He : 0 <= radians 0.001 <= 0.0000175) by (unfold radians; lra).
    destruct He as [He0 He1].
    apply atan_gap_ge; try lra.
    pose proof (sin_le_x _ He0) as Hs.
    assert (Hs0 : 0 <= sin (radians 0.001)) by (apply sin_ge_0; lra).
    pose proof (cos_enclosure 0 0.0000175 _ ltac:(lra) He0 He1 ltac:(lra))
      as [Hc _].
    set (se := sin (radians 0.001)) in *.
    set (ce := cos (radians 0.001)) in *.
    assert (Huv : u * v <= 2 * 2) by (apply Rmult_le_compat; lra).
    assert (HL : se * (1 + u * v) <= 0.0000175 * 5)
      by (apply Rmult_le_compat; nra).
    assert (HR : 0.000137 * 0.99 <= (v - u) * ce)
      by (apply Rmult_le_compat; lra).
    lra. }
  apply degrees_le in Hlo.
  rewrite degrees_plus, degrees_radians in Hlo; lra.
Qed.

Lemma elevation_falls_away_from_meridian_witness :
  elevation_at DHAKA_LAT DHAKA_LON 119.1 + 0.001 <=
  elevation_at DHAKA_LAT DHAKA_LON 100.
Proof.
  apply (elevation_falls_away_from_meridian 100 119.1
           (elevation_at DHAKA_LAT DHAKA_LON 100)
           (azimuth_at DHAKA_LAT DHAKA_LON 100)
           (elevation_at DHAKA_LAT DHAKA_LON 119.1)
           (azimuth_at DHAKA_LAT DHAKA_LON 119.1)).
  - unfold DHAKA_LON; rewrite !Rabs_pos_eq; lra.
  - unfold DHAKA_LON; rewrite Rabs_pos_eq; lra.
  - apply survey_visible_in_arc; lra.
  - apply survey_visible_in_arc; lra.
Defined.

(** ** The result lists: order and contents *)

Lemma length_insert_by_longitude (x : SurveyRow) (l : list SurveyRow) :
  List.length (insert_by_longitude x l) = S (List.length l).
Proof.
  induction l as [|y l IH]; simpl; [reflexivity|].
  destruct (Rlt_dec _ _); simpl; now rewrite ?IH.
Qed.

Lemma insert_by_longitude_perm (x : SurveyRow) (l : list SurveyRow) :
  Permutation (insert_by_longitude x l) (x :: l).
Proof.
  induction l as [|y l IH]; simpl; [reflexivity|].
  destruct (Rlt_dec _ _); [|reflexivity].
  rewrite IH; apply perm_swap.
Qed.

Lemma sort_by_longitude_perm (l : list SurveyRow) :
  Permutation (sort_by_longitude l) l.
Proof.
  induction l as [|x l IH]; simpl; [constructor|].
  rewrite insert_by_longitude_perm; now constructor.
Qed.

Lemma insert_by_longitude_sorted (x : SurveyRow) (l : list SurveyRow) :
  StronglySorted by_longitude l ->
  StronglySorted by_longitude (insert_by_longitude x l).
Proof.
  induction 1 as [|y l Hs IH Hall]; simpl.
  - repeat constructor.
  - destruct (Rlt_dec (sv_longitude y) (sv_longitude x)) as [Hlt|Hge].
    + constructor; [exact IH|].
      rewrite Forall_forall; intros z Hz.
      apply In_insert_by_longitude in Hz; destruct Hz as [->|Hz].
      * unfold by_longitude; lra.
      * rewrite Forall_forall in Hall; auto.
    + constructor; [now constructor|].
      constructor; [unfold by_longitude; lra|].
      rewrite Forall_forall in *; intros z Hz.
      specialize (Hall z Hz); unfold by_longitude in *; lra.
Qed.

Lemma sort_by_longitude_sorted (l : list SurveyRow) :
  StronglySorted by_longitude (sort_by_longitude l).
Proof.
  induction l as [|x l IH]; simpl; [constructor|].
  now apply insert_by_longitude_sorted.
Qed.

Lemma insert_by_longitude_stable (t : R) (x : SurveyRow) (l : list SurveyRow) :
  filter (at_longitude t) (insert_by_longitude x l) =
  filter (at_longitude t) (x :: l).
Proof.
  induction l as [|y l IH]; [reflexivity|].
  cbn [insert_by_longitude].
  destruct (Rlt_dec (sv_longitude y) (sv_longitude x)) as [Hlt|]; [|reflexivity].
  cbn [filter] in *; rewrite IH.
  unfold at_longitude.
  destruct (Req_dec_T (sv_longitude x) t), (Req_dec_T (sv_longitude y) t);
    try reflexivity; lra.
Qed.

(** X15.  The survey is returned in ascending order of longitude, and sorting
    neither drops nor duplicates a row. *)
Theorem survey_sorted_by_longitude (round : R -> Z -> R) (db : list DbRow) :
  StronglySorted by_longitude (sort_by_longitude (survey_rows round db)) /\
  Permutation (sort_by_longitude (survey_rows round db))
              (survey_rows round db).
Proof.
  split; [apply sort_by_longitude_sorted | apply sort_by_longitude_perm].
Qed.

(** X16.  The sort is stable: the rows at one longitude keep the order in which
    the catalogue lists them. *)
Theorem survey_sort_is_stable
    (round : R -> Z -> R) (db : list DbRow) (t : R) :
  filter (at_longitude t) (sort_by_longitude (survey_rows round db)) =
  filter (at_longitude t) (survey_rows round db).
Proof.
  induction (survey_rows round db) as [|x l IH]; [reflexivity|].
  cbn [sort_by_longitude fold_right].
  change (fold_right insert_by_longitude [] l) with (sort_by_longitude l).
  rewrite insert_by_longitude_stable; cbn [filter]; now rewrite IH.
Qed.

(** *** Arc coverage *)

Lemma last_any_default (l : list SurveyRow) (y d d' : SurveyRow) :
  last (y :: l) d = last (y :: l) d'.
Proof.
  revert y; induction l as [|z l IH]; intro y; [reflexivity|].
  change (last (z :: l) d = last (z :: l) d'); apply IH.
Qed.

Lemma sorted_span (first : SurveyRow) (l : list SurveyRow) :
  StronglySorted by_longitude (first :: l) ->
  forall r, In r (first :: l) ->
    sv_longitude first <= sv_longitude r <=
    sv_longitude (last (first :: l) first).
Proof.
  revert first; induction l as [|y l IH]; intros first Hs r Hin.
  - destruct Hin as [<-|[]]; simpl; lra.
  - inversion Hs as [|? ? Hs' Hall]; subst.
    assert (Hy : sv_longitude first <= sv_longitude y)
      by (inversion Hall; assumption).
    change (last (first :: y :: l) first) with (last (y :: l) first).
    rewrite (last_any_default l y first y).
    destruct Hin as [<-|Hin].
    + pose proof (IH y Hs' y (or_introl eq_refl)); lra.
    + pose proof (IH y Hs' r Hin); lra.
Qed.

(** X17.  [print_survey] after [survey_geo_arc]: the arc coverage it prints is
    the smallest and the largest longitude of the survey; with no visible
    entry there is nothing to subscript and the printing fails. *)
Theorem arc_coverage_spans_survey (round : R -> Z -> R) (db : list DbRow) :
  match arc_coverage (sort_by_longitude (survey_rows round db)) with
  | None => survey_rows round db = []
  | Some (lo, hi) =>
      forall r, In r (sort_by_longitude (survey_rows round db)) ->
        lo <= sv_longitude r <= hi
  end.
Proof.
  pose proof (sort_by_longitude_sorted (survey_rows round db)) as Hs.
  pose proof (sort_by_longitude_perm (survey_rows round db)) as Hp.
  destruct (sort_by_longitude (survey_rows round db)) as [|first l] eqn:E.
  - simpl; now apply Permutation_nil.
  - unfold arc_coverage; now apply sorted_span.
Qed.

(** ** The default arc *)

Lemma survey_rows_keep_arc (round : R -> Z -> R) (db : list DbRow) :
  Forall (fun row => 40 <= snd (fst (fst row)) <= 160) db ->
  List.length (survey_rows round db) = List.length db.
Proof.
  induction 1 as [|row db Hrow _ IH]; [reflexivity|].
  unfold survey_rows in *; cbn [flat_map]; rewrite length_app, IH.
  destruct row as [[[[operator name] lon] bands] coverage]; cbn in Hrow.
  unfold survey_row; rewrite (survey_visible_in_arc lon Hrow); reflexivity.
Qed.

Lemma length_sort_by_longitude (l : list SurveyRow) :
  List.length (sort_by_longitude l) = List.length l.
Proof. apply Permutation_length, sort_by_longitude_perm. Qed.

Lemma insert_target_perm (x : string * R * string)
    (l : list (string * R * string)) :
  Permutation (insert_target x l) (x :: l).
Proof.
  induction l as [|y l IH]; simpl; [reflexivity|].
  destruct (Rlt_dec _ _); [|reflexivity].
  rewrite IH; apply perm_swap.
Qed.

Lemma sorted_targets_perm (l : list (string * R * string)) :
  Permutation (sorted_targets l) l.
Proof.
  induction l as [|x l IH]; simpl; [constructor|].
  rewrite insert_target_perm; now constructor.
Qed.

Lemma visible_rows_keep_arc (l : list (string * R * string)) :
  Forall (fun t => 40 <= snd (fst t) <= 160) l ->
  List.length (flat_map (geo_visibility_row 40 160) l) = List.length l.
Proof.
  induction 1 as [|t l Ht _ IH]; [reflexivity|].
  cbn [flat_map]; rewrite length_app, IH.
  destruct t as [[name lon] operator]; cbn in Ht.
  unfold geo_visibility_row; rewrite (vis_visible_in_arc lon Ht); reflexivity.
Qed.

Lemma database_in_default_arc :
  Forall (fun row : DbRow => 40 <= snd (fst (fst row)) <= 160) GEO_DATABASE.
Proof. unfold GEO_DATABASE; repeat constructor; cbn; lra. Qed.

Lemma targets_in_default_arc :
  Forall (fun t : string * R * string => 40 <= snd (fst t) <= 160) GEO_TARGETS.
Proof. unfold GEO_TARGETS; repeat constructor; cbn; lra. Qed.

(** X14.  Inside the default arc from 40 to 160 degrees East neither horizon
    test ever rejects a longitude, so the survey lists all 29 catalogue
    entries and the predictor all 23 of its targets. *)
Theorem default_arc_drops_nothing (round : R -> Z -> R) :
  (forall lon : R, 40 <= lon <= 160 ->
     calculate_geo_angles lon <> None /\
     geo_visibility_angles 40 160 lon <> None) /\
  List.length (survey_geo_arc round) = 29%nat /\
  List.length (calculate_geo_visibility 40 160) = 23%nat.
Proof.
  split; [|split].
  - intros lon Harc.
    rewrite (survey_visible_in_arc lon Harc), (vis_visible_in_arc lon Harc).
    split; discriminate.
  - unfold survey_geo_arc.
    rewrite length_sort_by_longitude.
    now rewrite (survey_rows_keep_arc round _ database_in_default_arc).
  - unfold calculate_geo_visibility.
    rewrite visible_rows_keep_arc.
    + now rewrite (Permutation_length (sorted_targets_perm GEO_TARGETS)).
    + rewrite Forall_forall; intros t Ht.
      pose proof targets_in_default_arc as Hall; rewrite Forall_forall in Hall.
      apply Hall, (Permutation_in _ (sorted_targets_perm GEO_TARGETS)), Ht.
Qed.

Lemma default_arc_drops_nothing_witness :
  calculate_geo_angles 119.1 <> None /\
  geo_visibility_angles 40 160 119.1 <> None.
Proof.
  apply (proj1 (default_arc_drops_nothing no_rounding)); lra.
Defined.

(** ** The rows of [calculate_geo_visibility] *)

Lemma vis_cos_gamma_below_one (lon : R) : vis_cos_gamma lon <= 0.915.
Proof.
  unfold vis_cos_gamma; pose proof vis_cos_lat.
  pose proof (COS_bound (vis_dlon_rad lon)); nra.
Qed.

Lemma vis_elevation_range (lon : R) :
  0.1513 < vis_cos_gamma lon -> 0 < vis_elevation_of lon < 90.
Proof.
  intro Hc; pose proof (vis_cos_gamma_below_one lon) as Hu.
  pose proof PI_RGT_0.
  unfold vis_elevation_of; cbv zeta.
  set (c := vis_cos_gamma lon) in *.
  destruct (sqrt_one_minus_sq c) as [Hs _]; [lra | lra |].
  assert (Hq : 0 < (c - 6371 / 42164) / sqrt (1 - c ^ 2))
    by (apply Rdiv_lt_0_compat; lra).
  pose proof (atan_increasing _ _ Hq) as Hin; rewrite atan_0 in Hin.
  destruct (atan_bound ((c - 6371 / 42164) / sqrt (1 - c ^ 2))) as [_ Hb].
  split.
  - rewrite <- (degrees_radians 0); apply degrees_lt; unfold radians; lra.
  - rewrite <- (degrees_radians 90); apply degrees_lt; unfold radians; lra.
Qed.

Lemma vis_dlon_of_target (lon : R) :
  53 <= lon <= 154 -> lon <> GROUND_STATION_longitude ->
  0 < vis_dlon_rad lon < PI / 2.
Proof.
  intros Hr Hne; pose proof PI2_3_2.
  assert (H0 : 0 < Rabs (lon - GROUND_STATION_longitude))
    by (apply Rabs_pos_lt; lra).
  assert (H1 : Rabs (lon - GROUND_STATION_longitude) <= 64)
    by (unfold GROUND_STATION_longitude; apply Rabs_le; lra).
  unfold vis_dlon_rad; lra.
Qed.

Lemma In_visibility (arc_min arc_max : R) (r : VisibleRow) :
  In r (calculate_geo_visibility arc_min arc_max) ->
  In (vis_name r, vis_longitude r, vis_operator r) GEO_TARGETS /\
  geo_visibility_angles arc_min arc_max (vis_longitude r) =
  Some (vis_elevation r, vis_azimuth r).
Proof.
  unfold calculate_geo_visibility; rewrite in_flat_map.
  intros ([[name lon] operator] & Hin & Hr).
  apply (Permutation_in _ (sorted_targets_perm GEO_TARGETS)) in Hin.
  unfold geo_visibility_row in Hr.
  destruct (geo_visibility_angles arc_min arc_max lon) as [[el az]|] eqn:E;
    [|destruct Hr].
  destruct Hr as [<-|[]]; cbn; auto.
Qed.

(** X19.  Every row [calculate_geo_visibility] returns is one of its targets,
    lies inside the requested arc, has an elevation strictly between 0
    and 90 degrees and an azimuth strictly between 90 and 180 degrees,
    on whichever side of the observer the target is. *)
Theorem predictor_rows_in_range (arc_min arc_max : R) (r : VisibleRow) :
  In r (calculate_geo_visibility arc_min arc_max) ->
  In (vis_name r, vis_longitude r, vis_operator r) GEO_TARGETS /\
  arc_min <= vis_longitude r <= arc_max /\
  0 < vis_elevation r < 90 /\
  90 < vis_azimuth r < 180.
Proof.
  intro Hin; destruct (In_visibility _ _ _ Hin) as [Ht Hang].
  split; [exact Ht|].
  pose proof targets_off_meridian as Hall; rewrite Forall_forall in Hall.
  destruct (Hall _ Ht) as [Hr Hne]; cbn [fst snd] in Hr, Hne.
  clear Hall Ht Hin.
  rewrite geo_visibility_angles_unfold in Hang.
  destruct (Rle_dec _ _) as [Ha|]; [|discriminate].
  destruct (Rle_dec _ _) as [Hb|]; [|discriminate].
  destruct (Rlt_dec _ _) as [Hc|]; [|discriminate].
  injection Hang as Hel Haz; rewrite <- Hel, <- Haz.
  split; [split; assumption|].
  split; [apply vis_elevation_range; exact Hc|].
  apply vis_azimuth_eastern, vis_dlon_of_target; assumption.
Qed.

Lemma predictor_rows_in_range_witness :
  In ("Bangabandhu-1"%string, 119.1, "BSCCL (Bangladesh)"%string) GEO_TARGETS /\
  40 <= 119.1 <= 160 /\
  0 < vis_elevation_of 119.1 < 90 /\
  90 < vis_azimuth_of 119.1 < 180.
Proof.
  apply (predictor_rows_in_range 40 160
           (mkVisible "Bangabandhu-1" 119.1 "BSCCL (Bangladesh)"
              (vis_elevation_of 119.1) (vis_azimuth_of 119.1))).
  unfold calculate_geo_visibility; rewrite in_flat_map.
  exists ("Bangabandhu-1"%string, 119.1, "BSCCL (Bangladesh)"%string); split.
  - apply (Permutation_in _ (Permutation_sym (sorted_targets_perm GEO_TARGETS))).
    left; reflexivity.
  - unfold geo_visibility_row; rewrite vis_visible_in_arc by lra.
    left; reflexivity.
Defined.

(** X21.  An arc whose lower end is above its upper end is not rejected: the
    function returns the empty list. *)
Theorem inverted_arc_gives_nothing (arc_min arc_max : R) :
  arc_max < arc_min -> calculate_geo_visibility arc_min arc_max = [].
Proof.
  intro Hinv; unfold calculate_geo_visibility.
  induction (sorted_targets GEO_TARGETS) as [|[[name lon] operator] l IH];
    [reflexivity|].
  cbn [flat_map]; rewrite IH, app_nil_r.
  unfold geo_visibility_row; rewrite geo_visibility_angles_unfold.
  destruct (Rle_dec arc_min lon); [|reflexivity].
  destruct (Rle_dec lon arc_max); [lra | reflexivity].
Qed.

Lemma inverted_arc_gives_nothing_witness :
  calculate_geo_visibility 160 40 = [].
Proof. apply inverted_arc_gives_nothing; lra. Defined.

(** *** Order of the rows *)

Lemma In_insert_target (x y : string * R * string)
    (l : list (string * R * string)) :
  In y (insert_target x l) -> y = x \/ In y l.
Proof.
  intro H; apply (Permutation_in _ (insert_target_perm x l)) in H.
  destruct H as [<-|H]; auto.
Qed.

Lemma insert_target_sorted (x : string * R * string)
    (l : list (string * R * string)) :
  StronglySorted (fun a b => snd (fst a) <= snd (fst b)) l ->
  StronglySorted (fun a b => snd (fst a) <= snd (fst b)) (insert_target x l).
Proof.
  induction 1 as [|y l Hs IH Hall]; simpl.
  - repeat constructor.
  - destruct (Rlt_dec (snd (fst y)) (snd (fst x))) as [Hlt|Hge].
    + constructor; [exact IH|].
      rewrite Forall_forall; intros z Hz.
      apply In_insert_target in Hz; destruct Hz as [->|Hz].
      * lra.
      * rewrite Forall_forall in Hall; auto.
    + constructor; [now constructor|].
      constructor; [lra|].
      rewrite Forall_forall in *; intros z Hz.
      specialize (Hall z Hz); cbn in *; lra.
Qed.

Lemma sorted_targets_sorted (l : list (string * R * string)) :
  StronglySorted (fun a b => snd (fst a) <= snd (fst b)) (sorted_targets l).
Proof.
  induction l as [|x l IH]; simpl; [constructor|].
  now apply insert_target_sorted.
Qed.

Lemma visible_rows_sorted (arc_min arc_max : R)
    (l : list (string * R * string)) :
  StronglySorted (fun a b => snd (fst a) <= snd (fst b)) l ->
  StronglySorted vis_by_longitude
    (flat_map (geo_visibility_row arc_min arc_max) l).
Proof.
  induction 1 as [|[[name lon] operator] l Hs IH Hall]; [constructor|].
  cbn [flat_map]; unfold geo_visibility_row at 1.
  destruct (geo_visibility_angles arc_min arc_max lon) as [[el az]|];
    [|exact IH].
  cbn [app]; constructor; [exact IH|].
  rewrite Forall_forall; intros r Hr; rewrite in_flat_map in Hr.
  destruct Hr as ([[name' lon'] operator'] & Hin & Hr).
  rewrite Forall_forall in Hall; specialize (Hall _ Hin); cbn in Hall.
  unfold geo_visibility_row in Hr.
  destruct (geo_visibility_angles arc_min arc_max lon') as [[el' az']|];
    [|destruct Hr].
  destruct Hr as [<-|[]]; unfold vis_by_longitude; cbn; lra.
Qed.

(** X20.  The rows come back in ascending order of longitude, whatever the
    arc. *)
Theorem predictor_rows_sorted (arc_min arc_max : R) :
  StronglySorted vis_by_longitude (calculate_geo_visibility arc_min arc_max).
Proof. apply visible_rows_sorted, sorted_targets_sorted. Qed.

(** ** Bounds on the priority score *)

Lemma spec_score_bounds (el : R) (bands coverage : string) :
  5 <= el <= 90 ->
  0.5 <= spec_score el bands coverage <= 11 /\
  (str_in "Ku" bands = false ->
   (str_in "Bangladesh" coverage || str_in "South Asia" coverage)%bool = false ->
   str_in "India" coverage = false ->
   spec_score el bands coverage <= 5) /\
  (str_in "Ku" bands = true ->
   (str_in "Bangladesh" coverage || str_in "South Asia" coverage)%bool = true ->
   5.5 <= spec_score el bands coverage).
Proof.
  intros [H0 H1]; unfold spec_score.
  assert (Hm : 0.5 <= Rmin (el / 10) 5 <= 5).
  { unfold Rmin; destruct (Rle_dec _ _); lra. }
  destruct (str_in "Ku" bands),
    (str_in "Bangladesh" coverage || str_in "South Asia" coverage)%bool,
    (str_in "India" coverage);
    repeat split; intros; try discriminate; lra.
Qed.

(** X18.  For every row of the survey the unrounded score lies between 0.5 and
    11.  A row with none of the three bonuses is never rated HIGH, and a
    Ku-band row that covers Bangladesh or South Asia is never rated
    LOW. *)
Theorem survey_score_bounds
    (round : R -> Z -> R) (db : list DbRow) (r : SurveyRow) :
  In r (sort_by_longitude (survey_rows round db)) ->
  exists score : R,
    sv_priority_score r = round score 1%Z /\
    0.5 <= score <= 11 /\
    tier_is score (sv_priority r) /\
    (str_in "Ku" (sv_bands r) = false ->
     (str_in "Bangladesh" (sv_coverage r)
      || str_in "South Asia" (sv_coverage r))%bool = false ->
     str_in "India" (sv_coverage r) = false ->
     sv_priority r <> HIGH) /\
    (str_in "Ku" (sv_bands r) = true ->
     (str_in "Bangladesh" (sv_coverage r)
      || str_in "South Asia" (sv_coverage r))%bool = true ->
     sv_priority r <> LOW).
Proof.
  intro Hin; apply In_sort_by_longitude, In_survey_rows in Hin.
  destruct Hin as (row & _ & Hr).
  destruct (survey_row_spec round row r Hr)
    as (el & az & Hang & _ & Hb & Hc & Hs & Ht).
  rewrite <- Hb, <- Hc in Hs, Ht.
  pose proof (elevation_range _ _ _ _ _ _ Hang) as Hel.
  unfold MIN_ELEVATION in Hel.
  destruct (spec_score_bounds el (sv_bands r) (sv_coverage r) Hel)
    as (Hrange & Hnone & Hboth).
  destruct Ht as (T7 & T4 & T0).
  exists (spec_score el (sv_bands r) (sv_coverage r)).
  split; [exact Hs|]; split; [exact Hrange|].
  split; [repeat split; assumption|]; split.
  - intros H1 H2 H3 Hhigh.
    pose proof (Hnone H1 H2 H3) as Hle.
    destruct (Rle_lt_dec 4 (spec_score el (sv_bands r) (sv_coverage r))).
    + rewrite T4 in Hhigh by lra; discriminate.
    + rewrite T0 in Hhigh by lra; discriminate.
  - intros H1 H2 Hlow.
    pose proof (Hboth H1 H2) as Hge.
    destruct (Rle_lt_dec 7 (spec_score el (sv_bands r) (sv_coverage r))).
    + rewrite T7 in Hlow by lra; discriminate.
    + rewrite T4 in Hlow by lra; discriminate.
Qed.

Lemma survey_score_bounds_witness :
  exists score : R,
    sv_priority_score bangabandhu_survey = no_rounding score 1%Z /\
    0.5 <= score <= 11 /\
    tier_is score (sv_priority bangabandhu_survey) /\
    (str_in "Ku" (sv_bands bangabandhu_survey) = false ->
     (str_in "Bangladesh" (sv_coverage bangabandhu_survey)
      || str_in "South Asia" (sv_coverage bangabandhu_survey))%bool = false ->
     str_in "India" (sv_coverage bangabandhu_survey) = false ->
     sv_priority bangabandhu_survey <> HIGH) /\
    (str_in "Ku" (sv_bands bangabandhu_survey) = true ->
     (str_in "Bangladesh" (sv_coverage bangabandhu_survey)
      || str_in "South Asia" (sv_coverage bangabandhu_survey))%bool = true ->
     sv_priority bangabandhu_survey <> LOW).
Proof.
  apply (survey_score_bounds no_rounding [bangabandhu] bangabandhu_survey).
  unfold survey_rows, flat_map; rewrite bangabandhu_survey_row.
  left; reflexivity.
Defined.

(** ** The side of the meridian *)

Lemma sin_radians_sign (d : R) :
  (0 <= d -> d < 180 -> 0 <= sin (radians d)) /\
  (d < 0 -> -180 < d -> sin (radians d) < 0).
Proof.
  pose proof PI_RGT_0 as Hpi; split.
  - intros H0 H1; apply sin_ge_0; unfold radians; nra.
  - intros H0 H1; apply sin_lt_0_var; unfold radians; nra.
Qed.

(** X29.  [calculate_geo_angles] tells the two sides of the Dhaka meridian
    apart: a reported satellite at or east of it has its azimuth above 90
    and at most 180 degrees, one at or west of it has its azimuth at least
    180 and below 270 degrees. *)
Theorem azimuth_tells_the_sides_apart (lon el az : R) :
  Rabs (lon - DHAKA_LON) < 180 ->
  calculate_geo_angles lon = Some (el, az) ->
  (DHAKA_LON <= lon -> 90 < az <= 180) /\
  (lon <= DHAKA_LON -> 180 <= az < 270).
Proof.
  intros Hd; unfold calculate_geo_angles.
  rewrite calculate_geo_angles_at_unfold.
  destruct (Rle_dec _ _) as [|Hc]; [discriminate|].
  destruct (Rlt_dec _ _) as [|He]; [discriminate|].
  intros [= _ <-].
  assert (Hvis : R_EARTH / R_GEO < cos_gamma_at DHAKA_LAT DHAKA_LON lon)
    by lra.
  pose proof PI_RGT_0 as Hpi.
  pose proof survey_cos_lat as Hcl; pose proof survey_sin_lat as Hsl.
  assert (Hr : 0 < R_EARTH / R_GEO) by (unfold R_EARTH, R_GEO; lra).
  assert (Hdd : - 180 < lon - DHAKA_LON < 180).
  { split; [|apply Rle_lt_trans with (2 := Hd); apply Rle_abs].
    pose proof (Rle_abs (- (lon - DHAKA_LON))) as H.
    rewrite Rabs_Ropp in H; lra. }
  destruct (sin_radians_sign (lon - DHAKA_LON)) as [Hpos Hneg].
  unfold cos_gamma_at in Hvis; unfold azimuth_at; cbv zeta.
  set (cd := cos (radians (lon - DHAKA_LON))) in *.
  set (y := sin (radians (lon - DHAKA_LON))) in *.
  assert (Hcd : 0 < cd).
  { destruct (Rlt_le_dec 0 cd) as [|Hle]; [assumption|]; exfalso.
    assert (0 <= cos (radians DHAKA_LAT) * - cd)
      by (apply Rmult_le_pos; lra); lra. }
  set (x := - cd * sin (radians DHAKA_LAT)).
  assert (Hx : x < 0).
  { unfold x; assert (0 < cd * sin (radians DHAKA_LAT))
      by (apply Rmult_lt_0_compat; lra); lra. }
  pose proof (atan_bound (y / x)) as [Hb0 Hb1].
  assert (Heast : 0 <= y -> 90 < py_mod (degrees (atan2 y x)) 360 <= 180).
  { intro Hy; rewrite atan2_upper_left by lra.
    assert (Hq : y / x <= 0).
    { unfold Rdiv; replace (y * / x) with (- (y * / - x)) by (field; lra).
      assert (0 <= y * / - x)
        by (apply Rmult_le_pos; [lra | left; apply Rinv_0_lt_compat; lra]).
      lra. }
    pose proof (atan_le _ _ Hq) as Hat; rewrite atan_0 in Hat.
    assert (Hdeg : 90 < degrees (atan (y / x) + PI) <= 180).
    { split.
      - rewrite <- (degrees_radians 90); apply degrees_lt; unfold radians; lra.
      - apply degrees_le_of; unfold radians; lra. }
    rewrite py_mod_small; lra. }
  assert (Hwest : y < 0 -> 180 < py_mod (degrees (atan2 y x)) 360 < 270).
  { intro Hy; rewrite atan2_lower_left by lra.
    assert (Hq : 0 < y / x).
    { unfold Rdiv; replace (y * / x) with (- y * / - x) by (field; lra).
      apply Rmult_lt_0_compat; [lra | apply Rinv_0_lt_compat; lra]. }
    pose proof (atan_increasing _ _ Hq) as Hat; rewrite atan_0 in Hat.
    assert (Hdeg : -180 < degrees (atan (y / x) - PI) < -90).
    { split.
      - rewrite <- (degrees_radians (-180)); apply degrees_lt.
        unfold radians; lra.
      - rewrite <- (degrees_radians (-90)); apply degrees_lt.
        unfold radians; lra. }
    rewrite py_mod_negative; lra. }
  split.
  - intro Hl; apply Heast, Hpos; lra.
  - intro Hl; destruct (Rle_lt_dec 0 (lon - DHAKA_LON)) as [H0|H0].
    + assert (Hy : 0 <= y) by (apply Hpos; lra).
      assert (Hz : lon - DHAKA_LON = 0) by lra.
      assert (Hy0 : y = 0).
      { unfold y; rewrite Hz; unfold radians.
        replace (0 * PI / 180) with 0 by field; apply sin_0. }
      pose proof (Heast Hy) as [_ Hle].
      assert (Hge : 180 <= py_mod (degrees (atan2 y x)) 360).
      { rewrite atan2_upper_left by lra.
        rewrite Hy0; unfold Rdiv at 1; rewrite Rmult_0_l, atan_0.
        replace (degrees (0 + PI)) with 180
          by (unfold degrees; field; apply PI_neq0).
        rewrite py_mod_small; lra. }
      lra.
    + assert (Hy : y < 0) by (apply Hneg; lra).
      pose proof (Hwest Hy); lra.
Qed.

Lemma azimuth_tells_the_sides_apart_witness :
  180 <= azimuth_at DHAKA_LAT DHAKA_LON 83 < 270.
Proof.
  apply (azimuth_tells_the_sides_apart 83
           (elevation_at DHAKA_LAT DHAKA_LON 83)
           (azimuth_at DHAKA_LAT DHAKA_LON 83)).
  - unfold DHAKA_LON; apply Rabs_def1; lra.
  - apply survey_visible_in_arc; lra.
  - unfold DHAKA_LON; lra.
Defined.

(** ** The numbers of a survey row *)

Lemma py_round_near2 (x : R) : Rabs (py_round x 2 - x) <= 1 / 200.
Proof.
  unfold py_round; change (10 ^ 2)%Z with 100%Z.
  pose proof (round_half_even_near (x * 100)) as H.
  pose proof (Rle_abs (IZR (round_half_even (x * 100)) - x * 100)) as H1.
  pose proof (Rle_abs (- (IZR (round_half_even (x * 100)) - x * 100))) as H2.
  rewrite Rabs_Ropp in H2.
  apply Rabs_le; lra.
Qed.

Lemma Rabs_le_between (x a : R) : Rabs x <= a -> - a <= x <= a.
Proof.
  intro H; pose proof (Rle_abs x) as H1; pose proof (Rle_abs (- x)) as H2.
  rewrite Rabs_Ropp in H2; lra.
Qed.

Lemma survey_row_numbers (round : R -> Z -> R) (row : DbRow) (r : SurveyRow) :
  survey_row round row = Some r ->
  exists el az : R,
    calculate_geo_angles (snd (fst (fst row))) = Some (el, az) /\
    sv_elevation r = round el 2%Z /\
    sv_azimuth r = round az 2%Z /\
    sv_slant_range_km r = round (calculate_slant_range el) 1%Z.
Proof.
  destruct row as [[[[operator name] lon] bands] coverage]; simpl.
  destruct (calculate_geo_angles lon) as [[el az]|]; [|discriminate].
  intros [= <-]; exists el, az; repeat split.
Qed.

(** X30.  The numbers a survey row stores: an elevation between 4.99 and
    63.01 degrees, an azimuth between 89.99 and 270.01 degrees and a
    slant range between 35792.9 and 41680.1 km, for any catalogue. *)
Theorem survey_numbers_in_range (db : list DbRow) (r : SurveyRow) :
  In r (sort_by_longitude (survey_rows py_round db)) ->
  4.99 <= sv_elevation r <= 63.01 /\
  89.99 <= sv_azimuth r <= 270.01 /\
  35792.9 <= sv_slant_range_km r <= 41680.1.
Proof.
  intro Hin; apply In_sort_by_longitude, In_survey_rows in Hin.
  destruct Hin as (row & _ & Hr).
  destruct (survey_row_numbers py_round row r Hr)
    as (el & az & Hang & -> & -> & ->).
  unfold calculate_geo_angles in Hang.
  rewrite calculate_geo_angles_at_unfold in Hang.
  destruct (Rle_dec _ _) as [|Hc]; [discriminate|].
  destruct (Rlt_dec _ _) as [|He]; [discriminate|].
  injection Hang as <- <-; unfold MIN_ELEVATION in He.
  assert (Hvis : R_EARTH / R_GEO <
                 cos_gamma_at DHAKA_LAT DHAKA_LON (snd (fst (fst row))))
    by lra.
  pose proof (dhaka_elevation_le _ Hvis) as Hel.
  pose proof (dhaka_azimuth_range _ Hvis) as Haz.
  set (el := elevation_at DHAKA_LAT DHAKA_LON (snd (fst (fst row)))) in *.
  set (az := azimuth_at DHAKA_LAT DHAKA_LON (snd (fst (fst row)))) in *.
  pose proof (slant_range_enclosure el ltac:(lra)) as Hsl.
  unfold R_GEO, R_EARTH in Hsl.
  pose proof (Rabs_le_between _ _ (py_round_near2 el)).
  pose proof (Rabs_le_between _ _ (py_round_near2 az)).
  pose proof (Rabs_le_between _ _ (py_round_near (calculate_slant_range el))).
  repeat split; lra.
Qed.

Lemma survey_numbers_in_range_witness :
  4.99 <= py_round (elevation_at DHAKA_LAT DHAKA_LON 119.1) 2 <= 63.01 /\
  89.99 <= py_round (azimuth_at DHAKA_LAT DHAKA_LON 119.1) 2 <= 270.01 /\
  35792.9 <=
    py_round (calculate_slant_range (elevation_at DHAKA_LAT DHAKA_LON 119.1))
      1 <= 41680.1.
Proof.
  apply (survey_numbers_in_range GEO_DATABASE
           (mkSurvey "BSCCL" "Bangabandhu-1" 119.1 "C/Ku"
              "Bangladesh, South Asia"
              (py_round (elevation_at DHAKA_LAT DHAKA_LON 119.1) 2)
              (py_round (azimuth_at DHAKA_LAT DHAKA_LON 119.1) 2)
              (py_round (calculate_slant_range
                           (elevation_at DHAKA_LAT DHAKA_LON 119.1)) 1)
              (priority_of
                 (priority_score_of (elevation_at DHAKA_LAT DHAKA_LON 119.1)
                    "C/Ku" "Bangladesh, South Asia"))
              (py_round
                 (priority_score_of (elevation_at DHAKA_LAT DHAKA_LON 119.1)
                    "C/Ku" "Bangladesh, South Asia") 1))).
  apply sort_by_longitude_In, (survey_rows_In py_round GEO_DATABASE bangabandhu).
  - do 23 right; left; reflexivity.
  - unfold survey_row, bangabandhu; rewrite bb_angles; reflexivity.
Defined.

End GeoExtra.

(* ====================================================================== *)
(** * Part VII: properties of the audit report                             *)
(* ====================================================================== *)

Module AuditExtra.

Import Audit Audit.EncryptionAuditReport.
Local Open Scope Z_scope.

(** ** Counting *)

Lemma count_if_from (cond : TransponderSample.t -> bool)
    (l : list TransponderSample.t) (acc : Z) :
  fold_left (fun a s => if cond s then a + 1 else a) l acc =
  acc + Z.of_nat (List.length (filter cond l)).
Proof.
  revert acc; induction l as [|s l IH]; intro acc; simpl; [lia|].
  rewrite IH; destruct (cond s); simpl List.length; lia.
Qed.

Lemma count_if_filter (cond : TransponderSample.t -> bool)
    (l : list TransponderSample.t) :
  count_if cond l = Z.of_nat (List.length (filter cond l)).
Proof. unfold count_if; now rewrite count_if_from. Qed.

Lemma count_if_snoc (cond : TransponderSample.t -> bool)
    (l : list TransponderSample.t) (s : TransponderSample.t) :
  count_if cond (l ++ [s]) = count_if cond l + (if cond s then 1 else 0).
Proof.
  rewrite !count_if_filter, filter_app, length_app; simpl.
  destruct (cond s); simpl; lia.
Qed.

Lemma count_if_range (cond : TransponderSample.t -> bool)
    (l : list TransponderSample.t) :
  0 <= count_if cond l <= Z.of_nat (List.length l).
Proof.
  rewrite count_if_filter; pose proof (filter_length_le cond l); lia.
Qed.

Lemma statuses_add_up (l : list TransponderSample.t) :
  count_if (has_status EncryptionStatus.ENCRYPTED) l
  + count_if (has_status EncryptionStatus.PLAINTEXT) l
  + count_if (has_status EncryptionStatus.OBFUSCATED) l
  + count_if (has_status EncryptionStatus.UNKNOWN) l
  + count_if (has_status EncryptionStatus.COMPRESSED) l
  + count_if (has_status EncryptionStatus.CONTROL) l
  = Z.of_nat (List.length l).
Proof.
  induction l as [|s l IH] using rev_ind; [reflexivity|].
  rewrite !count_if_snoc, length_app; simpl List.length.
  unfold has_status at 2 4 6 8 10 12.
  destruct (TransponderSample.encryption_status s); simpl; lia.
Qed.

Lemma get_statistics_cases (self : t) :
  (samples self = [] /\
   get_statistics self = NoObservations 0 "No observations yet") \/
  (samples self <> [] /\
   0 < Z.of_nat (List.length (samples self)) /\
   exists st, get_statistics self = Statistics st /\
     total_transponders st = Z.of_nat (List.length (samples self)) /\
     encrypted st =
       count_if (has_status EncryptionStatus.ENCRYPTED) (samples self) /\
     plaintext st =
       count_if (has_status EncryptionStatus.PLAINTEXT) (samples self) /\
     obfuscated st =
       count_if (has_status EncryptionStatus.OBFUSCATED) (samples self) /\
     unknown st =
       count_if (has_status EncryptionStatus.UNKNOWN) (samples self) /\
     encryption_rate st =
       (inject_Z (encrypted st) / inject_Z (total_transponders st) * 100)%Q /\
     plaintext_rate st =
       (inject_Z (plaintext st) / inject_Z (total_transponders st) * 100)%Q /\
     pii_exposure_count st =
       count_if TransponderSample.contains_pii (samples self) /\
     disclosure_required_count st =
       count_if TransponderSample.responsible_disclosure_required
                (samples self)).
Proof.
  unfold get_statistics; destruct (samples self) as [|s l] eqn:E.
  - left; split; reflexivity.
  - right; split; [discriminate|].
    set (n := Z.of_nat (List.length (s :: l))).
    assert (Hn : 0 < n) by (unfold n; simpl List.length; lia).
    split; [exact Hn|].
    destruct (Z.eqb_spec n 0) as [|_]; [lia|].
    destruct (Z.ltb_spec 0 n) as [_|]; [|lia].
    eexists; split; [reflexivity|]; cbn; repeat split.
Qed.

(** ** The properties *)

(** X22.  The four printed counters leave out two statuses.  For a report with
    samples, encrypted + plaintext + obfuscated + unknown is the total
    minus the samples classified COMPRESSED or CONTROL; a report without
    samples gets the two-key dictionary instead. *)
Theorem counters_omit_two_statuses (self : t) :
  match get_statistics self with
  | NoObservations total _ => samples self = [] /\ total = 0
  | Statistics st =>
      samples self <> [] /\
      total_transponders st = Z.of_nat (List.length (samples self)) /\
      encrypted st + plaintext st + obfuscated st + unknown st =
      total_transponders st
      - count_if (has_status EncryptionStatus.COMPRESSED) (samples self)
      - count_if (has_status EncryptionStatus.CONTROL) (samples self)
  end.
Proof.
  destruct (get_statistics_cases self)
    as [[He ->] | (Hne & _ & st & -> & Ht & H1 & H2 & H3 & H4 & _)].
  - split; [exact He | reflexivity].
  - split; [exact Hne|]; split; [exact Ht|].
    rewrite H1, H2, H3, H4, Ht.
    pose proof (statuses_add_up (samples self)); lia.
Qed.

Lemma rate_bounds (k n : Z) :
  0 <= k -> k <= n -> 0 < n ->
  (0 <= inject_Z k / inject_Z n * 100 <= 100)%Q.
Proof.
  intros Hk Hkn Hn.
  assert (Hq : (0 < inject_Z n)%Q)
    by (change (inject_Z 0 < inject_Z n)%Q; now rewrite <- Zlt_Qlt).
  assert (Hk' : (0 <= inject_Z k)%Q)
    by (change (inject_Z 0 <= inject_Z k)%Q; now rewrite <- Zle_Qle).
  assert (Hkn' : (inject_Z k <= inject_Z n)%Q) by (now rewrite <- Zle_Qle).
  assert (H0 : (0 <= inject_Z k / inject_Z n)%Q).
  { apply Qle_shift_div_l; [exact Hq|]; lra. }
  assert (H1 : (inject_Z k / inject_Z n <= 1)%Q).
  { apply Qle_shift_div_r; [exact Hq|]; lra. }
  split; lra.
Qed.

(** X23.  Both rates are percentages between 0 and 100; a rate is 0 when its
    counter is 0 and 100 when its counter is the total. *)
Theorem rates_are_percentages (self : t) :
  match get_statistics self with
  | NoObservations _ _ => samples self = []
  | Statistics st =>
      (0 <= encryption_rate st <= 100)%Q /\
      (0 <= plaintext_rate st <= 100)%Q /\
      (encrypted st = 0 -> (encryption_rate st == 0)%Q) /\
      (plaintext st = 0 -> (plaintext_rate st == 0)%Q) /\
      (encrypted st = total_transponders st ->
       (encryption_rate st == 100)%Q) /\
      (plaintext st = total_transponders st ->
       (plaintext_rate st == 100)%Q)
  end.
Proof.
  destruct (get_statistics_cases self)
    as [[He ->] | (Hne & Hpos & st & -> & Ht & H1 & H2 & _ & _ & R1 & R2 & _)].
  - exact He.
  - pose proof (count_if_range (has_status EncryptionStatus.ENCRYPTED)
                  (samples self)) as He.
    pose proof (count_if_range (has_status EncryptionStatus.PLAINTEXT)
                  (samples self)) as Hp.
    rewrite <- H1, <- H2, <- Ht in *.
    assert (Hq : ~ (inject_Z (total_transponders st) == 0)%Q).
    { intro Hz; change (inject_Z (total_transponders st) == inject_Z 0)%Q in Hz.
      pose proof (proj1 (inject_Z_injective _ _) Hz); lia. }
    rewrite R1, R2.
    split; [apply rate_bounds; lia|].
    split; [apply rate_bounds; lia|].
    repeat split; intros ->; field; exact Hq.
Qed.

(** The report of [demo]: one sample, of status UNKNOWN. *)
Lemma rates_are_percentages_witness :
  match get_statistics
          (add_sample (init "Bangabandhu-1" 119.1 "t0") sample1 "t1") with
  | NoObservations _ _ => False
  | Statistics st =>
      (encryption_rate st == 0)%Q /\ (0 <= plaintext_rate st <= 100)%Q
  end.
Proof.
  pose proof (rates_are_percentages
                (add_sample (init "Bangabandhu-1" 119.1 "t0") sample1 "t1"))
    as H.
  destruct (get_statistics
              (add_sample (init "Bangabandhu-1" 119.1 "t0") sample1 "t1"))
    as [|st] eqn:E.
  - vm_compute in E; discriminate E.
  - destruct H as (_ & Hp & H0 & _); split; [apply H0 | exact Hp].
    vm_compute in E; injection E as <-; reflexivity.
Defined.

(** X24.  Adding a sample always leaves a report with full statistics: the
    total grows by one, the counter of the sample's status grows by one
    when that status is one of the four that are counted, and the two
    flag counters grow with the sample's flags. *)
Theorem add_sample_updates_statistics
    (self : t) (sample : TransponderSample.t) (now : string) :
  exists st,
    get_statistics (add_sample self sample now) = Statistics st /\
    total_transponders st = Z.of_nat (List.length (samples self)) + 1 /\
    encrypted st =
      count_if (has_status EncryptionStatus.ENCRYPTED) (samples self)
      + (if has_status EncryptionStatus.ENCRYPTED sample then 1 else 0) /\
    plaintext st =
      count_if (has_status EncryptionStatus.PLAINTEXT) (samples self)
      + (if has_status EncryptionStatus.PLAINTEXT sample then 1 else 0) /\
    obfuscated st =
      count_if (has_status EncryptionStatus.OBFUSCATED) (samples self)
      + (if has_status EncryptionStatus.OBFUSCATED sample then 1 else 0) /\
    unknown st =
      count_if (has_status EncryptionStatus.UNKNOWN) (samples self)
      + (if has_status EncryptionStatus.UNKNOWN sample then 1 else 0) /\
    pii_exposure_count st =
      count_if TransponderSample.contains_pii (samples self)
      + (if TransponderSample.contains_pii sample then 1 else 0) /\
    disclosure_required_count st =
      count_if TransponderSample.responsible_disclosure_required
               (samples self)
      + (if TransponderSample.responsible_disclosure_required sample
         then 1 else 0).
Proof.
  destruct (get_statistics_cases (add_sample self sample now))
    as [[He _] | (_ & _ & st & Hst & Ht & H1 & H2 & H3 & H4 & _ & _ & H5 & H6)].
  - simpl in He; now destruct (samples self).
  - exists st; split; [exact Hst|].
    simpl samples in *.
    rewrite Ht, H1, H2, H3, H4, H5, H6, !count_if_snoc, length_app.
    simpl List.length; repeat split; lia.
Qed.

(** X25.  Whatever the report holds, the numbers [print_summary] shows are the
    counts over its samples; for an empty report, whose statistics have
    none of the keys it reads, every number is 0. *)
Theorem summary_shows_the_counts (self : t) :
  sum_total (print_summary self) = Z.of_nat (List.length (samples self)) /\
  sum_encrypted (print_summary self) =
    count_if (has_status EncryptionStatus.ENCRYPTED) (samples self) /\
  sum_plaintext (print_summary self) =
    count_if (has_status EncryptionStatus.PLAINTEXT) (samples self) /\
  sum_obfuscated (print_summary self) =
    count_if (has_status EncryptionStatus.OBFUSCATED) (samples self) /\
  sum_unknown (print_summary self) =
    count_if (has_status EncryptionStatus.UNKNOWN) (samples self) /\
  sum_pii (print_summary self) =
    count_if TransponderSample.contains_pii (samples self) /\
  sum_disclosure (print_summary self) =
    count_if TransponderSample.responsible_disclosure_required
             (samples self) /\
  (samples self = [] ->
   sum_encryption_rate (print_summary self) = 0%Q /\
   sum_plaintext_rate (print_summary self) = 0%Q).
Proof.
  unfold print_summary.
  destruct (get_statistics_cases self)
    as [[He ->] | (Hne & _ & st & -> & Ht & H1 & H2 & H3 & H4 & _ & _ & H5 & H6)].
  - rewrite He; cbn; repeat split.
  - cbn; repeat split; try assumption; intros; contradiction.
Qed.

(** ** The exported dictionaries *)

Lemma encryption_value_injective (a b : EncryptionStatus.t) :
  EncryptionStatus.value a = EncryptionStatus.value b -> a = b.
Proof. destruct a, b; cbn; intro H; try reflexivity; discriminate H. Qed.

Lemma traffic_value_injective (a b : TrafficType.t) :
  TrafficType.value a = TrafficType.value b -> a = b.
Proof. destruct a, b; cbn; intro H; try reflexivity; discriminate H. Qed.

Lemma modulation_value_injective (a b : ModulationType.t) :
  ModulationType.value a = ModulationType.value b -> a = b.
Proof. destruct a, b; cbn; intro H; try reflexivity; discriminate H. Qed.

(** X26.  [to_dict] loses nothing: samples with the same dictionary are the same
    sample, since within each enumeration no two members share a value. *)
Theorem to_dict_is_injective (a b : TransponderSample.t) :
  TransponderSample.to_dict a = TransponderSample.to_dict b -> a = b.
Proof.
  destruct a, b; unfold TransponderSample.to_dict; cbn.
  intro H; injection H; intros; subst.
  f_equal; auto using encryption_value_injective, traffic_value_injective,
    modulation_value_injective.
Qed.

Lemma to_dict_is_injective_witness : sample1 = sample1.
Proof. apply (to_dict_is_injective sample1 sample1); reflexivity. Defined.

(** ** A report built step by step *)

Lemma built_snoc (name : string) (lon : Q) (t0 : string)
    (adds : list (TransponderSample.t * string))
    (a : TransponderSample.t * string) :
  built name lon t0 (adds ++ [a]) =
  add_sample (built name lon t0 adds) (fst a) (snd a).
Proof. unfold built; now rewrite fold_left_app. Qed.

(** X27.  A report keeps its samples in the order they were added and exports
    them in that order; its name, longitude and creation time never
    change, and [last_updated] is the instant of the last [add_sample], or
    of the creation when nothing was added. *)
Theorem built_report_keeps_order (name : string) (lon : Q) (t0 : string)
    (adds : list (TransponderSample.t * string)) :
  samples (built name lon t0 adds) = map fst adds /\
  ex_samples (export_json (built name lon t0 adds)) =
    map TransponderSample.to_dict (map fst adds) /\
  satellite_name (built name lon t0 adds) = name /\
  satellite_longitude (built name lon t0 adds) = lon /\
  created_at (built name lon t0 adds) = t0 /\
  last_updated (built name lon t0 adds) = last (map snd adds) t0.
Proof.
  induction adds as [|a adds IH] using rev_ind.
  - repeat split.
  - destruct IH as (Hs & _ & Hn & Hl & Hc & _).
    rewrite built_snoc; unfold export_json; cbn.
    rewrite Hs, Hn, Hl, Hc, !map_app; cbn.
    repeat split; now rewrite last_last.
Qed.

End AuditExtra.

(* ====================================================================== *)
(** * Part VIII: properties of the prediction over all targets             *)
(* ====================================================================== *)

Module PredictorExtra.

Import Leo Predictor.

Section PredictFacts.

Variables lower upper first_word : string -> string.

Local Abbreviation find_satellite := (find_satellite lower upper first_word).
Local Abbreviation target_passes := (target_passes lower upper first_word).
Local Abbreviation for_targets := (for_targets lower upper first_word).
Local Abbreviation all_targets := (all_targets lower upper first_word).
Local Abbreviation sees_a_pass := (sees_a_pass lower upper first_word).
Local Abbreviation targets_for := (targets_for lower).
Local Abbreviation predict_leo_passes :=
  (predict_leo_passes lower upper first_word).

Lemma target_passes_outcome (satellites : list Satellite)
    (target : string * (Z * string * string)) :
  target_passes satellites target =
  ([], if sees_a_pass satellites target then Some TypeError else None).
Proof.
  destruct target as [name [[norad freq] band]].
  unfold Predictor.target_passes, Predictor.sees_a_pass; cbn [fst].
  destruct (find_satellite satellites name) as [sat|]; [|reflexivity].
  destruct (sat_events sat) as [|e es] eqn:E; [reflexivity|].
  rewrite <- E, LeoSpec.pass_loop_outcome; reflexivity.
Qed.

Lemma for_targets_outcome (satellites : list Satellite)
    (targets : list (string * (Z * string * string)))
    (all_passes : list PassRecord) :
  for_targets satellites targets all_passes =
  if existsb (sees_a_pass satellites) targets
  then Raises TypeError else Normal all_passes.
Proof.
  revert all_passes; induction targets as [|target rest IH]; intro acc.
  - reflexivity.
  - cbn [Predictor.for_targets existsb].
    rewrite target_passes_outcome.
    destruct (sees_a_pass satellites target); [reflexivity|].
    now rewrite IH, app_nil_r.
Qed.

(** X6.  [predict_leo_passes] never returns a record.  Without TLE data
    it returns the empty list; with TLE data it raises [TypeError] as
    soon as one of the selected targets has a satellite whose events hold
    a rise followed by a set, and returns the empty list otherwise. *)
Theorem predict_returns_nothing_or_raises
    (tle : option (list Satellite)) (target_name : option string) :
  predict_leo_passes tle target_name =
  match tle with
  | None => Normal []
  | Some satellites =>
      if existsb (sees_a_pass satellites) (targets_for target_name)
      then Raises TypeError else Normal []
  end.
Proof.
  unfold Predictor.predict_leo_passes.
  destruct tle as [satellites|]; [|reflexivity].
  cbv zeta; unfold Predictor.all_targets.
  destruct target_name as [t|]; [|apply for_targets_outcome].
  destruct (String.eqb t "") eqn:Et; [apply for_targets_outcome|].
  destruct (targets_for (Some t)) as [|x l] eqn:E; [reflexivity|].
  apply for_targets_outcome.
Qed.

(** *** Which satellite stands for a target *)

Lemma by_name_get_some (satellites : list Satellite) (key : string)
    (sat : Satellite) :
  by_name_get satellites key = Some sat ->
  In sat satellites /\ sat_name sat = key.
Proof.
  unfold by_name_get; intro H; apply find_some in H; destruct H as [Hin Hn].
  split; [now apply in_rev | now apply String.eqb_eq].
Qed.

Lemma by_name_get_found (satellites : list Satellite) (key : string) :
  (exists sat, In sat satellites /\ sat_name sat = key) ->
  exists sat, by_name_get satellites key = Some sat.
Proof.
  intros (sat & Hin & Hn); unfold by_name_get.
  destruct (find _ (rev satellites)) as [s|] eqn:E; [now exists s|].
  exfalso; apply in_rev in Hin.
  pose proof (find_none _ _ E sat Hin) as Hf; cbn in Hf.
  apply String.eqb_neq in Hf; contradiction.
Qed.

(** X7.  The satellite used for a target is one of the TLE file; it has the
    target's name, or the upper-cased name, or a name whose lower-cased
    form contains the lower-cased first word of the target's name.  As
    soon as some satellite carries the target's exact name, one with that
    name is used. *)
Theorem lookup_prefers_exact_name
    (satellites : list Satellite) (name : string) :
  (forall sat, find_satellite satellites name = Some sat ->
     In sat satellites /\
     (sat_name sat = name \/ sat_name sat = upper name \/
      Geo.str_in (lower (first_word name)) (lower (sat_name sat)) = true)) /\
  ((exists sat, In sat satellites /\ sat_name sat = name) ->
   exists sat, find_satellite satellites name = Some sat /\
               sat_name sat = name).
Proof.
  unfold Predictor.find_satellite; split.
  - intros sat.
    destruct (by_name_get satellites name) as [s|] eqn:E1.
    { intros [= <-]; apply by_name_get_some in E1; tauto. }
    destruct (by_name_get satellites (upper name)) as [s|] eqn:E2.
    { intros [= <-]; apply by_name_get_some in E2; tauto. }
    destruct (filter _ satellites) as [|m l] eqn:E3; [discriminate|].
    intros [= <-].
    assert (Hin : In m (m :: l)) by now left.
    rewrite <- E3 in Hin; apply filter_In in Hin; tauto.
  - intro Hex; destruct (by_name_get_found satellites name Hex) as [s Hs].
    rewrite Hs; exists s; split; [reflexivity|].
    now apply by_name_get_some in Hs.
Qed.

End PredictFacts.

(** A TLE file that holds NOAA 15 and NOAA 19. *)
Lemma lookup_prefers_exact_name_witness :
  exists sat,
    find_satellite (fun s => s) (fun s => s) (fun s => s)
      [mkSat "NOAA 15" [] two_peaks; mkSat "NOAA 19" [] two_peaks]
      "NOAA 19" = Some sat /\
    sat_name sat = "NOAA 19"%string.
Proof.
  apply (proj2 (lookup_prefers_exact_name (fun s => s) (fun s => s)
                  (fun s => s)
                  [mkSat "NOAA 15" [] two_peaks; mkSat "NOAA 19" [] two_peaks]
                  "NOAA 19")).
  exists (mkSat "NOAA 19" [] two_peaks); split; [right; left|]; reflexivity.
Defined.

End PredictorExtra.
